(** * A shallow embedding of the emulator core of [program.py]

    The development follows the source file class by class:

    - [Py]: the Python primitives the program relies on (exceptions,
      list indexing, slices and slice assignment on a [bytearray],
      [int.from_bytes] and [int.to_bytes]);
    - [MIPS_CPU]: the processor ([read_word], [write_word], [step]);
    - [N64Emulator]: the session ([load_rom], [reset], [step],
      [save_state], [load_state]);
    - [EmulatorGUI]: the callbacks of the window that drive the session
      ([toggle_plugin], [toggle_cheat], [open_rom], [reset],
      [toggle_pause], [show_debugger], [update_frame]), the label and the
      debugger windows being kept as the texts they show.

    Methods are actions of a state-and-exception monad over the object
    they are called on ([self]); a raised exception keeps the mutations
    made before it, as in Python. *)

From Stdlib Require Import ZArith Lia.
From Stdlib Require Import Strings.Byte Strings.HexString.
From stdpp Require Import base list strings gmap pretty.

Local Open Scope Z_scope.

(* ===================================================================== *)
(** * Python primitives *)
(* ===================================================================== *)

Module Py.

(** The exceptions the modelled code can raise. *)
Inductive exn : Set :=
| IndexError
| OverflowError
| ValueError
| KeyError.

(** The outcome of evaluating an expression or running a statement. *)
Inductive res (A : Type) : Type :=
| Ret (a : A)
| Raise (e : exn).
Arguments Ret {A} a.
Arguments Raise {A} e.

(** A method body over an object of type [S]: it returns or raises, and
    leaves the object in some state either way. *)
Definition M (S A : Type) : Type := S -> res A * S.

Definition ret {S A : Type} (a : A) : M S A := fun s => (Ret a, s).

Definition raise {S A : Type} (e : exn) : M S A := fun s => (Raise e, s).

Definition bind {S A B : Type} (m : M S A) (k : A -> M S B) : M S B :=
  fun s =>
    match m s with
    | (Ret a, s') => k a s'
    | (Raise e, s') => (Raise e, s')
    end.

Definition get {S : Type} : M S S := fun s => (Ret s, s).

Definition put {S : Type} (s : S) : M S unit := fun _ => (Ret tt, s).

Definition lift {S A : Type} (r : res A) : M S A := fun s => (r, s).

(** Run a method of a component object (as in [self.cpu.step()]). *)
Definition zoom {S T A : Type} (proj : S -> T) (upd : T -> S -> S)
    (m : M T A) : M S A :=
  fun s => let (r, t') := m (proj s) in (r, upd t' s).

(** The state a method leaves behind. *)
Definition exec {S A : Type} (m : M S A) (s : S) : S := snd (m s).

(** [len(l)] *)
Definition len {A : Type} (l : list A) : Z := Z.of_nat (length l).

(** The position [l[i]] denotes: a negative index counts from the end. *)
Definition index {A : Type} (l : list A) (i : Z) : option nat :=
  if (0 <=? i) && (i <? len l) then Some (Z.to_nat i)
  else if (i <? 0) && (- len l <=? i) then Some (Z.to_nat (i + len l))
  else None.

(** [l[i]] *)
Definition getitem {A : Type} (l : list A) (i : Z) : res A :=
  match index l i with
  | Some n =>
      match l !! n with
      | Some x => Ret x
      | None => Raise IndexError
      end
  | None => Raise IndexError
  end.

(** [l[i] = v] *)
Definition setitem {A : Type} (l : list A) (i : Z) (v : A) : res (list A) :=
  match index l i with
  | Some n => Ret (<[n := v]> l)
  | None => Raise IndexError
  end.

(** A slice bound, as Python normalises it against the length. *)
Definition clamp {A : Type} (l : list A) (i : Z) : nat :=
  Z.to_nat (Z.min (len l) (Z.max 0 (if i <? 0 then i + len l else i))).

(** [l[lo:hi]] *)
Definition slice {A : Type} (l : list A) (lo hi : Z) : list A :=
  take (clamp l hi - clamp l lo)%nat (drop (clamp l lo) l).

(** [l[lo:hi] = src] on a [bytearray]: the slice is replaced by [src]
    whatever the length of [src], so the array grows or shrinks. *)
Definition slice_assign {A : Type} (l : list A) (lo hi : Z) (src : list A)
    : list A :=
  take (clamp l lo) l ++ src ++ drop (clamp l lo `max` clamp l hi)%nat l.

(** [bytearray(n)]: [n] zero bytes. *)
Definition bytearray (n : Z) : list byte := replicate (Z.to_nat n) x00.

Definition byte_val (b : byte) : Z := Z.of_N (Byte.to_N b).

Definition byte_of_Z (z : Z) : byte :=
  match Byte.of_N (Z.to_N z) with
  | Some b => b
  | None => x00
  end.

(** [int.from_bytes(bs, 'big')] *)
Definition int_from_bytes_big (bs : list byte) : Z :=
  foldl (fun acc b => acc * 256 + byte_val b) 0 bs.

(** The [n] low-order base-256 digits of [v], most significant first. *)
Fixpoint digits_big (n : nat) (v : Z) : list byte :=
  match n with
  | O => []
  | S n' => digits_big n' (v / 256) ++ [byte_of_Z (v mod 256)]
  end.

(** [v.to_bytes(n, 'big')]: an int that is negative or does not fit in
    [n] bytes raises [OverflowError]. *)
Definition int_to_bytes_big (v : Z) (n : nat) : res (list byte) :=
  if (0 <=? v) && (v <? 2 ^ (8 * Z.of_nat n)) then Ret (digits_big n v)
  else Raise OverflowError.

(** [random.choice(seq)], the generator's draw being [rnd]. *)
Definition choice {A : Type} (rnd : nat) (seq : list A) : res A :=
  match seq !! (rnd mod length seq)%nat with
  | Some x => Ret x
  | None => Raise IndexError
  end.

(** [d[k]] on a dict *)
Definition dict_get {V : Type} (d : gmap string V) (k : string) : res V :=
  match d !! k with
  | Some v => Ret v
  | None => Raise KeyError
  end.

End Py.

Import Py.

Declare Scope py_scope.
Delimit Scope py_scope with py.
Notation "x <- m ;; k" := (bind m (fun x => k))
  (at level 100, m at next level, right associativity) : py_scope.
Notation "m ;; k" := (bind m (fun _ => k))
  (at level 100, right associativity) : py_scope.
Local Open Scope py_scope.

(* ===================================================================== *)
(** * class MIPS_CPU *)
(* ===================================================================== *)

Module MIPS_CPU.

Record t : Type := mk {
  regs : list Z;        (* 32 GPRs + PC (regs[32]) *)
  memory : list byte;   (* 4MB RDRAM *)
  cycles : Z
}.

Definition set_regs (r : list Z) (self : t) : t :=
  mk r (memory self) (cycles self).

Definition set_memory (m : list byte) (self : t) : t :=
  mk (regs self) m (cycles self).

Definition set_cycles (c : Z) (self : t) : t :=
  mk (regs self) (memory self) c.

(** [self.regs[i]] *)
Definition getreg (i : Z) : M t Z :=
  self <- get ;; lift (getitem (regs self) i).

(** [self.regs[i] = v] *)
Definition setreg (i : Z) (v : Z) : M t unit :=
  self <- get ;;
  r <- lift (setitem (regs self) i v) ;;
  put (set_regs r self).

(** The N64 reset vector. *)
Definition RESET_VECTOR : Z := 0xBFC00000.

(** The base of the segment mapped onto RDRAM. *)
Definition KSEG_BASE : Z := 0x80000000.

(** [bytearray(4 * 1024 * 1024)] *)
Definition RDRAM_SIZE : Z := 4 * 1024 * 1024.

(** [__init__] *)
Definition init : t :=
  mk (<[32%nat := RESET_VECTOR]> (replicate 33 0))
     (bytearray RDRAM_SIZE)
     0.

Definition read_word (addr : Z) : M t Z :=
  self <- get ;;
  let addr := addr - 0x80000000 in
  if (0 <=? addr) && (addr <? len (memory self) - 3)
  then ret (int_from_bytes_big (slice (memory self) addr (addr + 4)))
  else ret 0.

Definition write_word (addr value : Z) : M t unit :=
  self <- get ;;
  let addr := addr - 0x80000000 in
  if (0 <=? addr) && (addr <? len (memory self) - 3)
  then
    bs <- lift (int_to_bytes_big value 4) ;;
    put (set_memory (slice_assign (memory self) addr (addr + 4) bs) self)
  else ret tt.

(** [if imm & 0x8000: imm -= 0x10000] *)
Definition sign_extend16 (imm : Z) : Z :=
  if Z.land imm 0x8000 =? 0 then imm else imm - 0x10000.

Definition step : M t unit :=
  pc <- getreg 32 ;;
  instr <- read_word pc ;;
  let opcode := Z.land (Z.shiftr instr 26) 0x3F in
  (if opcode =? 0x08 then
     let rt := Z.land (Z.shiftr instr 16) 0x1F in
     let rs := Z.land (Z.shiftr instr 21) 0x1F in
     let imm := Z.land instr 0xFFFF in
     let imm := sign_extend16 imm in
     a <- getreg rs ;;
     setreg rt (Z.land (a + imm) 0xFFFFFFFF)
   else if opcode =? 0x23 then
     let rt := Z.land (Z.shiftr instr 16) 0x1F in
     let rs := Z.land (Z.shiftr instr 21) 0x1F in
     let imm := Z.land instr 0xFFFF in
     let imm := sign_extend16 imm in
     a <- getreg rs ;;
     let addr := Z.land (a + imm) 0xFFFFFFFF in
     w <- read_word addr ;;
     setreg rt w
   else if opcode =? 0x00 then
     let funct := Z.land instr 0x3F in
     if funct =? 0x20 then
       let rd := Z.land (Z.shiftr instr 11) 0x1F in
       let rs := Z.land (Z.shiftr instr 21) 0x1F in
       let rt := Z.land (Z.shiftr instr 16) 0x1F in
       a <- getreg rs ;;
       b <- getreg rt ;;
       setreg rd (Z.land (a + b) 0xFFFFFFFF)
     else ret tt
   else ret tt) ;;
  setreg 32 (Z.land (pc + 4) 0xFFFFFFFF) ;;
  self <- get ;;
  put (set_cycles (cycles self + 1) self).

End MIPS_CPU.

(* ===================================================================== *)
(** * class N64Emulator *)
(* ===================================================================== *)

Module N64Emulator.

Record t : Type := mk {
  cpu : MIPS_CPU.t;
  rom : option (list byte);          (* None until a ROM is loaded *)
  running : bool;
  paused : bool;
  plugins : gmap string bool;
  cheats : gmap string bool;
  mario_hat_color : string
}.

Definition set_cpu (c : MIPS_CPU.t) (self : t) : t :=
  mk c (rom self) (running self) (paused self) (plugins self)
     (cheats self) (mario_hat_color self).

Definition set_rom (r : option (list byte)) (self : t) : t :=
  mk (cpu self) r (running self) (paused self) (plugins self)
     (cheats self) (mario_hat_color self).

Definition set_running (b : bool) (self : t) : t :=
  mk (cpu self) (rom self) b (paused self) (plugins self)
     (cheats self) (mario_hat_color self).

Definition set_mario_hat_color (h : string) (self : t) : t :=
  mk (cpu self) (rom self) (running self) (paused self) (plugins self)
     (cheats self) h.

(** A method call on [self.cpu]. *)
Definition on_cpu {A : Type} (m : M MIPS_CPU.t A) : M t A :=
  zoom cpu set_cpu m.

(** [__init__] *)
Definition init : t :=
  mk MIPS_CPU.init
     None
     false
     false
     (<["Personalizer" := true]>
        (<["Rediscovered" := false]>
           (<["Wonder Graphics" := false]>
              (<["Debugger" := false]> ∅))))
     (<["Infinite Health" := false]> ∅)
     "Red".

(** The address [load_rom] hands control to. *)
Definition ENTRY_POINT : Z := 0x80000000.

(** [self.cpu.memory[0:0x1000] = image[0:0x1000]] *)
Definition pi_dma (image : list byte) : M MIPS_CPU.t unit :=
  c <- get ;;
  put (MIPS_CPU.set_memory
         (slice_assign (MIPS_CPU.memory c) 0 0x1000 (slice image 0 0x1000))
         c).

(** [load_rom(path)], [image] being the bytes read from the file at
    [path]. *)
Definition load_rom (image : list byte) : M t unit :=
  self <- get ;;
  put (set_rom (Some image) self) ;;
  on_cpu (pi_dma image) ;;
  on_cpu (MIPS_CPU.setreg 32 0x80000000).

(** [if self.rom:] holds for a ROM that is neither [None] nor empty. *)
Definition reset : M t unit :=
  self <- get ;;
  put (set_cpu MIPS_CPU.init self) ;;
  self <- get ;;
  match rom self with
  | Some (b :: image) => on_cpu (pi_dma (b :: image))
  | Some [] | None => ret tt
  end ;;
  self <- get ;;
  put (set_running true self).

(** [step()], [rnd] being the random generator's draw when the
    personalizer asks for one. *)
Definition step (rnd : nat) : M t unit :=
  self <- get ;;
  if negb (running self) || paused self then ret tt
  else
    on_cpu MIPS_CPU.step ;;
    self <- get ;;
    p <- lift (dict_get (plugins self) "Personalizer") ;;
    (if p && (MIPS_CPU.cycles (cpu self) mod 1000 =? 0) then
       h <- lift (choice rnd ["Red"; "Blue"; "Green"]%string) ;;
       put (set_mario_hat_color h self)
     else ret tt) ;;
    self <- get ;;
    r <- lift (dict_get (plugins self) "Rediscovered") ;;
    (if r && (MIPS_CPU.cycles (cpu self) =? 5000) then
       on_cpu (MIPS_CPU.write_word 0x80300000 1)
     else ret tt) ;;
    self <- get ;;
    c <- lift (dict_get (cheats self) "Infinite Health") ;;
    (if c then on_cpu (MIPS_CPU.write_word 0x8033B21E 8) else ret tt).

(** What [pickle.load] hands to [load_state]: either a tuple of exactly
    three items, taken at the types [save_state] writes (a list of ints,
    a bytearray and a str, of any lengths), or any other object, which
    does not unpack into three targets. *)
Inductive unpickled : Type :=
| Triple (regs : list Z) (memory : list byte) (hat : string)
| Other.

(** [save_state(path)]: the object pickled into the file. The cycle
    counter is not among its components. *)
Definition save_state (self : t) : unpickled :=
  Triple (MIPS_CPU.regs (cpu self)) (MIPS_CPU.memory (cpu self))
         (mario_hat_color self).

(** [load_state(path)], [obj] being the object unpickled from the file.
    The right-hand side is unpacked before the first target is assigned,
    so an object that does not unpack raises with nothing assigned. *)
Definition load_state (obj : unpickled) : M t unit :=
  match obj with
  | Triple r m h =>
      on_cpu (c <- get ;; put (MIPS_CPU.set_regs r c)) ;;
      on_cpu (c <- get ;; put (MIPS_CPU.set_memory m c)) ;;
      self <- get ;;
      put (set_mario_hat_color h self)
  | Other => raise ValueError
  end.

End N64Emulator.

(* ===================================================================== *)
(** * class EmulatorGUI *)
(* ===================================================================== *)

(** The callbacks of the window. A widget is kept as the text it shows:
    [display] is the text of the display label, and a debugger window is
    the list of the texts of the widgets packed into it so far. The menu
    bar, the catalogue list, sizes and colours of [setup_ui] hold no state
    the callbacks read, and the timer of [update_frame] is the caller of
    this model: one call is one frame. *)
Module EmulatorGUI.

Record t : Type := mk {
  emu : N64Emulator.t;
  display : string;
  debuggers : list (list string)
}.

Definition set_emu (e : N64Emulator.t) (self : t) : t :=
  mk e (display self) (debuggers self).

Definition set_display (d : string) (self : t) : t :=
  mk (emu self) d (debuggers self).

Definition set_debuggers (w : list (list string)) (self : t) : t :=
  mk (emu self) (display self) w.

(** [self.emu.plugins = d], [self.emu.cheats = d] and [self.emu.paused = b]
    as the callbacks assign them. *)
Definition set_plugins (d : gmap string bool) (e : N64Emulator.t)
    : N64Emulator.t :=
  N64Emulator.mk (N64Emulator.cpu e) (N64Emulator.rom e)
    (N64Emulator.running e) (N64Emulator.paused e) d
    (N64Emulator.cheats e) (N64Emulator.mario_hat_color e).

Definition set_cheats (d : gmap string bool) (e : N64Emulator.t)
    : N64Emulator.t :=
  N64Emulator.mk (N64Emulator.cpu e) (N64Emulator.rom e)
    (N64Emulator.running e) (N64Emulator.paused e) (N64Emulator.plugins e)
    d (N64Emulator.mario_hat_color e).

Definition set_paused (b : bool) (e : N64Emulator.t) : N64Emulator.t :=
  N64Emulator.mk (N64Emulator.cpu e) (N64Emulator.rom e)
    (N64Emulator.running e) b (N64Emulator.plugins e)
    (N64Emulator.cheats e) (N64Emulator.mario_hat_color e).

(** A method call on [self.emu]. *)
Definition on_emu {A : Type} (m : M N64Emulator.t A) : M t A :=
  zoom emu set_emu m.

(** The newline character. *)
Definition nl : string := String (Ascii.ascii_of_byte x0a) EmptyString.

(** [hex(n)] and [str(n)] on an int. *)
Definition hex (n : Z) : string := HexString.of_Z n.
Definition str (n : Z) : string := pretty n.

(** [[f(x) for x in l]], stopping at the first call that raises. *)
Fixpoint for_each {S A B : Type} (f : A -> M S B) (l : list A)
    : M S (list B) :=
  match l with
  | [] => ret []
  | x :: l' => y <- f x ;; ys <- for_each f l' ;; ret (y :: ys)
  end.

(** [range(start, start + step * n, step)] *)
Definition range (start step : Z) (n : nat) : list Z :=
  map (fun i => start + step * Z.of_nat i) (seq 0 n).

(** [__init__]: a fresh emulator behind a label that reads
    ["No ROM Loaded"]; the first [update_frame] it calls finds the
    emulator not running. *)
Definition init : t := mk N64Emulator.init "No ROM Loaded" [].

(** [tk.Label(debug_win, text=...).pack()] on the window opened last. *)
Definition pack (text : string) : M t unit :=
  self <- get ;;
  match reverse (debuggers self) with
  | w :: ws =>
      put (set_debuggers (reverse ((w ++ [text]) :: ws)) self)
  | [] => ret tt
  end.

Definition show_debugger : M t unit :=
  self <- get ;;
  put (set_debuggers (debuggers self ++ [[]]) self) ;;
  pc <- on_emu (N64Emulator.on_cpu (MIPS_CPU.getreg 32)) ;;
  pack ("PC: " +:+ hex pc) ;;
  self <- get ;;
  pack ("Cycles: " +:+ str (MIPS_CPU.cycles (N64Emulator.cpu (emu self)))) ;;
  lines <- on_emu (N64Emulator.on_cpu
             (for_each
                (fun addr =>
                   w <- MIPS_CPU.read_word addr ;;
                   ret (hex addr +:+ ": " +:+ hex w))
                (range 0x80000000 4 64))) ;;
  pack (String.concat nl lines).

Definition toggle_plugin (plugin : string) : M t unit :=
  self <- get ;;
  v <- lift (dict_get (N64Emulator.plugins (emu self)) plugin) ;;
  put (set_emu
         (set_plugins (<[plugin := negb v]> (N64Emulator.plugins (emu self)))
                      (emu self)) self) ;;
  self <- get ;;
  if String.eqb plugin "Debugger" then
    v' <- lift (dict_get (N64Emulator.plugins (emu self)) plugin) ;;
    if v' then show_debugger else ret tt
  else ret tt.

Definition toggle_cheat (cheat : string) : M t unit :=
  self <- get ;;
  v <- lift (dict_get (N64Emulator.cheats (emu self)) cheat) ;;
  put (set_emu
         (set_cheats (<[cheat := negb v]> (N64Emulator.cheats (emu self)))
                     (emu self)) self).

(** [open_rom()], [path] being the answer of the file dialog (empty when
    it was cancelled) and [image] the bytes of the file at [path]. *)
Definition open_rom (path : string) (image : list byte) : M t unit :=
  if String.eqb path "" then ret tt
  else
    on_emu (N64Emulator.load_rom image) ;;
    on_emu N64Emulator.reset ;;
    self <- get ;;
    put (set_display "ROM Loaded: Running..." self).

Definition reset : M t unit :=
  on_emu N64Emulator.reset ;;
  self <- get ;;
  put (set_display "ROM Reset: Running..." self).

Definition toggle_pause : M t unit :=
  self <- get ;;
  put (set_emu (set_paused (negb (N64Emulator.paused (emu self))) (emu self))
               self) ;;
  self <- get ;;
  put (set_display
         (if N64Emulator.paused (emu self) then "Paused" else "Running") self).

(** The status text of a running emulator. *)
Definition status (e : N64Emulator.t) : M t string :=
  let s := "Running - Cycles: " +:+ str (MIPS_CPU.cycles (N64Emulator.cpu e))
           +:+ nl in
  let s := s +:+ "Personalization: Mario's Hat = "
           +:+ N64Emulator.mario_hat_color e +:+ nl in
  r <- lift (dict_get (N64Emulator.plugins e) "Rediscovered") ;;
  let s := if r then s +:+ "Rediscovered: Unused Coin Spawned" +:+ nl
           else s in
  w <- lift (dict_get (N64Emulator.plugins e) "Wonder Graphics") ;;
  let s := if w then s +:+ "Wonder Graphics: Enhanced (Placeholder)" +:+ nl
           else s in
  ret s.

(** [update_frame()], [rnd] being the draw handed to the step. *)
Definition update_frame (rnd : nat) : M t unit :=
  self <- get ;;
  if N64Emulator.running (emu self) then
    on_emu (N64Emulator.step rnd) ;;
    self <- get ;;
    s <- status (emu self) ;;
    put (set_display s self)
  else ret tt.

End EmulatorGUI.

(* ===================================================================== *)
(** * Derived notions used in the statements *)
(* ===================================================================== *)

(** The fields of an instruction word, as [MIPS_CPU.step] extracts them. *)
Module Instr.
Definition opcode (instr : Z) : Z := Z.land (Z.shiftr instr 26) 0x3F.
Definition rs (instr : Z) : Z := Z.land (Z.shiftr instr 21) 0x1F.
Definition rt (instr : Z) : Z := Z.land (Z.shiftr instr 16) 0x1F.
Definition rd (instr : Z) : Z := Z.land (Z.shiftr instr 11) 0x1F.
Definition imm (instr : Z) : Z := Z.land instr 0xFFFF.
Definition funct (instr : Z) : Z := Z.land instr 0x3F.
End Instr.

(** The value of a 16-bit immediate read as a signed quantity, in the
    words of the specification: an immediate with bit 15 set stands for
    the negative number [imm - 2^16]. *)
Definition signed16 (imm : Z) : Z :=
  if imm <? 2 ^ 15 then imm else imm - 2 ^ 16.

(** The program counter of a register file. *)
Definition PC (c : MIPS_CPU.t) : option Z := MIPS_CPU.regs c !! 32%nat.

(** The state the last two statements of [MIPS_CPU.step] lead to:
    [self.regs[32] = (pc + 4) & 0xFFFFFFFF] and [self.cycles += 1]. *)
Definition advance (pc : Z) (c : MIPS_CPU.t) : MIPS_CPU.t :=
  MIPS_CPU.mk (<[32%nat := (pc + 4) mod 2 ^ 32]> (MIPS_CPU.regs c))
              (MIPS_CPU.memory c) (MIPS_CPU.cycles c + 1).

(** Running [m] from [s] leaves the observation [f] of the object as it
    was, whether [m] returns or raises. *)
Definition frame_at {S A X : Type} (f : S -> X) (m : M S A) (s : S) : Prop :=
  f (exec m s) = f s.

(** A 4096-byte image whose first word is [addi $0, $0, 5]. *)
Definition addi_r0_image : list byte :=
  [x20; x00; x00; x05] ++ replicate 4092 x00.

(** A machine with a 12-byte memory, as [load_state] can set one up:
    [lw $2, 8($4)], [add $3, $2, $2] and the word 0xFFFFFFFF, with the PC
    at the first word and [$4] holding the base of the segment. *)
Definition toy : MIPS_CPU.t :=
  MIPS_CPU.mk
    (<[32%nat := 0x80000000]> (<[4%nat := 0x80000000]> (replicate 33 0)))
    [x8c; x82; x00; x08; x00; x42; x18; x20; xff; xff; xff; xff]
    0.

(** An unsigned 32-bit value. *)
Definition u32 (v : Z) : Prop := 0 <= v < 2 ^ 32.

(** A register file as [MIPS_CPU.__init__] builds it: 33 slots, each
    holding an unsigned 32-bit value. *)
Definition wf_regs (r : list Z) : Prop := length r = 33%nat /\ Forall u32 r.

#[global] Instance u32_dec (v : Z) : Decision (u32 v).
Proof. unfold u32. apply _. Defined.

#[global] Instance wf_regs_dec (r : list Z) : Decision (wf_regs r).
Proof. unfold wf_regs. apply _. Defined.

(** The flags [N64Emulator.step] looks up are in the dicts, as
    [N64Emulator.__init__] puts them there. *)
Definition has_flags (e : N64Emulator.t) : Prop :=
  is_Some (N64Emulator.plugins e !! "Personalizer")
  /\ is_Some (N64Emulator.plugins e !! "Rediscovered")
  /\ is_Some (N64Emulator.cheats e !! "Infinite Health").

(** The colours the personalizer draws from. *)
Definition hat_colours : list string := ["Red"; "Blue"; "Green"].

(** The three mutators [N64Emulator.step] applies after the processor
    step, each as the state it leaves when its flag reads [p], [r] or [c]
    and nothing raises. *)
Definition personalized (rnd : nat) (p : bool) (e : N64Emulator.t)
    : N64Emulator.t :=
  if p && (MIPS_CPU.cycles (N64Emulator.cpu e) mod 1000 =? 0) then
    match hat_colours !! (rnd mod 3)%nat with
    | Some h => N64Emulator.set_mario_hat_color h e
    | None => e
    end
  else e.

Definition coin_spawned (r : bool) (e : N64Emulator.t) : N64Emulator.t :=
  if r && (MIPS_CPU.cycles (N64Emulator.cpu e) =? 5000) then
    N64Emulator.set_cpu
      (exec (MIPS_CPU.write_word 0x80300000 1) (N64Emulator.cpu e)) e
  else e.

Definition health_pinned (c : bool) (e : N64Emulator.t) : N64Emulator.t :=
  if c then
    N64Emulator.set_cpu
      (exec (MIPS_CPU.write_word 0x8033B21E 8) (N64Emulator.cpu e)) e
  else e.

(** [n] calls of [MIPS_CPU.step] in a row, up to the first that raises. *)
Fixpoint steps (n : nat) : M MIPS_CPU.t unit :=
  match n with
  | O => ret tt
  | Datatypes.S n' => MIPS_CPU.step ;; steps n'
  end.

(** One call of [N64Emulator.step] per draw of [rnds], up to the first
    that raises. *)
Fixpoint run (rnds : list nat) : M N64Emulator.t unit :=
  match rnds with
  | [] => ret tt
  | rnd :: rnds' => N64Emulator.step rnd ;; run rnds'
  end.

(** One call of [EmulatorGUI.update_frame] per draw of [rnds], as the
    timer makes them; a frame that raises is not followed by another. *)
Fixpoint frames (rnds : list nat) : M EmulatorGUI.t unit :=
  match rnds with
  | [] => ret tt
  | rnd :: rnds' => EmulatorGUI.update_frame rnd ;; frames rnds'
  end.

(* ===================================================================== *)
(** * Facts about the Python primitives *)
(* ===================================================================== *)

Lemma bind_ret_run {S A B : Type} (m : M S A) (k : A -> M S B)
    (s s' : S) (a : A) :
  m s = (Ret a, s') -> bind m k s = k a s'.
Proof. intros H. unfold bind. now rewrite H. Qed.

Lemma len_nonneg {A : Type} (l : list A) : 0 <= len l.
Proof. unfold len. lia. Qed.

Lemma len_bytearray (n : Z) : 0 <= n -> len (bytearray n) = n.
Proof.
  intros Hn. unfold len, bytearray. rewrite length_replicate. lia.
Qed.

Lemma clamp_inside {A : Type} (l : list A) (i : Z) :
  0 <= i <= len l -> clamp l i = Z.to_nat i.
Proof.
  intros Hi. unfold clamp.
  destruct (i <? 0) eqn:E; [apply Z.ltb_lt in E; lia |].
  f_equal. lia.
Qed.

Lemma clamp_le_length {A : Type} (l : list A) (i : Z) :
  (clamp l i <= length l)%nat.
Proof. unfold clamp, len. lia. Qed.

(** The length of an array after a slice assignment: the part outside the
    slice, plus the source. *)
Lemma length_slice_assign {A : Type} (l src : list A) (lo hi : Z) :
  length (slice_assign l lo hi src)
  = (clamp l lo + length src + (length l - clamp l lo `max` clamp l hi))%nat.
Proof.
  unfold slice_assign.
  rewrite !length_app, length_take, length_drop.
  pose proof (clamp_le_length l lo). lia.
Qed.

(** A slice assignment of as many items as the slice holds keeps the
    length. *)
Lemma len_slice_assign_same {A : Type} (l src : list A) (lo hi : Z) :
  0 <= lo <= hi -> hi <= len l -> len src = hi - lo ->
  len (slice_assign l lo hi src) = len l.
Proof.
  intros Hlo Hhi Hsrc. unfold len in *.
  rewrite length_slice_assign.
  rewrite (clamp_inside l lo), (clamp_inside l hi) by (unfold len; lia).
  lia.
Qed.

(** Reading back the slice that was just assigned. *)
Lemma slice_slice_assign {A : Type} (l src : list A) (lo hi : Z) :
  0 <= lo <= hi -> hi <= len l -> len src = hi - lo ->
  slice (slice_assign l lo hi src) lo hi = src.
Proof.
  intros Hlo Hhi Hsrc.
  pose proof (len_slice_assign_same l src lo hi Hlo Hhi Hsrc) as Hlen.
  unfold slice.
  rewrite (clamp_inside _ lo), (clamp_inside _ hi) by lia.
  unfold slice_assign.
  rewrite (clamp_inside l lo), (clamp_inside l hi) by lia.
  unfold len in *.
  rewrite drop_app_length' by (rewrite length_take; lia).
  rewrite take_app_length' by lia.
  reflexivity.
Qed.

(** Reading the head of an array whose leading slice was just assigned. *)
Lemma slice_head_slice_assign {A : Type} (l src : list A) (hi n : Z) :
  0 <= n <= len src ->
  slice (slice_assign l 0 hi src) 0 n = take (Z.to_nat n) src.
Proof.
  intros Hn.
  assert (Hlen : len src <= len (slice_assign l 0 hi src)).
  { unfold len. rewrite length_slice_assign. lia. }
  unfold slice.
  rewrite (clamp_inside _ 0), (clamp_inside _ n) by lia.
  unfold slice_assign.
  rewrite (clamp_inside l 0) by (pose proof (len_nonneg l); lia).
  change (Z.to_nat 0) with 0%nat.
  rewrite Nat.sub_0_r, take_0, drop_0, app_nil_l.
  apply take_app_le. unfold len in Hn. lia.
Qed.

Lemma byte_val_of_Z (z : Z) : 0 <= z < 256 -> byte_val (byte_of_Z z) = z.
Proof.
  intros Hz. unfold byte_val, byte_of_Z.
  destruct (Byte.of_N (Z.to_N z)) as [b|] eqn:E.
  - apply Byte.to_of_N in E. rewrite E. lia.
  - apply Byte.of_N_None_iff in E. lia.
Qed.

Lemma length_digits_big (n : nat) (v : Z) : length (digits_big n v) = n.
Proof.
  revert v. induction n as [|n IH]; intros v; simpl; [reflexivity |].
  rewrite length_app, IH. simpl. lia.
Qed.

(** [int.from_bytes] reads back the digits [int.to_bytes] wrote. *)
Lemma int_from_bytes_digits_big (n : nat) (v : Z) :
  0 <= v -> int_from_bytes_big (digits_big n v) = v mod 2 ^ (8 * Z.of_nat n).
Proof.
  revert v. induction n as [|n IH]; intros v Hv.
  - simpl. now rewrite Z.mod_1_r.
  - cbn [digits_big]. unfold int_from_bytes_big in *.
    rewrite foldl_snoc, IH by (apply Z.div_pos; lia).
    rewrite byte_val_of_Z by (apply Z.mod_pos_bound; lia).
    replace (8 * Z.of_nat (Datatypes.S n)) with (8 + 8 * Z.of_nat n) by lia.
    rewrite Z.pow_add_r by lia.
    change (2 ^ 8) with 256.
    rewrite (Z.rem_mul_r v 256 (2 ^ (8 * Z.of_nat n))) by lia.
    lia.
Qed.

Lemma int_to_bytes_big_ok (v : Z) (n : nat) :
  0 <= v < 2 ^ (8 * Z.of_nat n) -> int_to_bytes_big v n = Ret (digits_big n v).
Proof.
  intros Hv. unfold int_to_bytes_big.
  destruct (0 <=? v) eqn:E1; [| apply Z.leb_gt in E1; lia].
  destruct (v <? 2 ^ (8 * Z.of_nat n)) eqn:E2; [| apply Z.ltb_ge in E2; lia].
  reflexivity.
Qed.

(* ===================================================================== *)
(** * Facts about MIPS_CPU *)
(* ===================================================================== *)

Lemma field5_range (x : Z) : 0 <= Z.land x 0x1F < 32.
Proof.
  change 0x1F with (Z.ones 5). rewrite Z.land_ones by lia.
  apply Z.mod_pos_bound. lia.
Qed.

Lemma mask32 (x : Z) : Z.land x 0xFFFFFFFF = x mod 2 ^ 32.
Proof. change 0xFFFFFFFF with (Z.ones 32). apply Z.land_ones. lia. Qed.

Lemma index_inside {A : Type} (l : list A) (i : Z) :
  0 <= i < len l -> index l i = Some (Z.to_nat i).
Proof.
  intros Hi. unfold index.
  destruct (0 <=? i) eqn:E1; [| apply Z.leb_gt in E1; lia].
  destruct (i <? len l) eqn:E2; [| apply Z.ltb_ge in E2; lia].
  reflexivity.
Qed.

Lemma getreg_run (self : MIPS_CPU.t) (i v : Z) :
  0 <= i -> MIPS_CPU.regs self !! Z.to_nat i = Some v ->
  MIPS_CPU.getreg i self = (Ret v, self).
Proof.
  intros Hi Hv. pose proof (lookup_lt_Some _ _ _ Hv) as Hlt.
  unfold MIPS_CPU.getreg, bind, get, lift, getitem.
  rewrite index_inside by (unfold len; lia).
  now rewrite Hv.
Qed.

Lemma setreg_run (self : MIPS_CPU.t) (i v : Z) :
  0 <= i < len (MIPS_CPU.regs self) ->
  MIPS_CPU.setreg i v self
  = (Ret tt, MIPS_CPU.set_regs (<[Z.to_nat i := v]> (MIPS_CPU.regs self)) self).
Proof.
  intros Hi. unfold MIPS_CPU.setreg, bind, get, lift, setitem, put.
  now rewrite index_inside.
Qed.

(** A register file too short to hold the PC makes the access raise. *)
Lemma getreg_short (self : MIPS_CPU.t) :
  (length (MIPS_CPU.regs self) < 33)%nat ->
  MIPS_CPU.getreg 32 self = (Raise IndexError, self).
Proof.
  intros Hlt. unfold MIPS_CPU.getreg, bind, get, lift, getitem, index, len.
  destruct (32 <? Z.of_nat (length (MIPS_CPU.regs self))) eqn:E;
    [apply Z.ltb_lt in E; lia |].
  reflexivity.
Qed.

(** The bounds check shared by [read_word] and [write_word]. *)
Lemma word_guard_spec (a n : Z) :
  reflect (0 <= a < n) ((0 <=? a) && (a <? n)).
Proof.
  destruct (0 <=? a) eqn:E1, (a <? n) eqn:E2; constructor;
    rewrite ?Z.leb_le, ?Z.leb_gt, ?Z.ltb_lt, ?Z.ltb_ge in *; lia.
Qed.

(** [read_word] always returns, and never touches the object. *)
Lemma read_word_total (self : MIPS_CPU.t) (addr : Z) :
  exists w, MIPS_CPU.read_word addr self = (Ret w, self).
Proof.
  unfold MIPS_CPU.read_word, bind, get, ret.
  destruct (_ && _); eauto.
Qed.

Lemma read_word_outside (self : MIPS_CPU.t) (addr : Z) :
  addr - 0x80000000 < 0 \/ len (MIPS_CPU.memory self) - 3 <= addr - 0x80000000 ->
  MIPS_CPU.read_word addr self = (Ret 0, self).
Proof.
  intros H. unfold MIPS_CPU.read_word, bind, get, ret.
  destruct (word_guard_spec (addr - 0x80000000)
              (len (MIPS_CPU.memory self) - 3)); [lia | reflexivity].
Qed.

Lemma read_word_inside (self : MIPS_CPU.t) (addr : Z) :
  0 <= addr - 0x80000000 < len (MIPS_CPU.memory self) - 3 ->
  MIPS_CPU.read_word addr self
  = (Ret (int_from_bytes_big
            (slice (MIPS_CPU.memory self) (addr - 0x80000000)
                   (addr - 0x80000000 + 4))), self).
Proof.
  intros H. unfold MIPS_CPU.read_word, bind, get, ret.
  destruct (word_guard_spec (addr - 0x80000000)
              (len (MIPS_CPU.memory self) - 3)); [reflexivity | lia].
Qed.

Lemma write_word_outside (self : MIPS_CPU.t) (addr value : Z) :
  addr - 0x80000000 < 0 \/ len (MIPS_CPU.memory self) - 3 <= addr - 0x80000000 ->
  MIPS_CPU.write_word addr value self = (Ret tt, self).
Proof.
  intros H. unfold MIPS_CPU.write_word, bind, get, ret.
  destruct (word_guard_spec (addr - 0x80000000)
              (len (MIPS_CPU.memory self) - 3)); [lia | reflexivity].
Qed.

Lemma write_word_inside (self : MIPS_CPU.t) (addr value : Z) :
  0 <= addr - 0x80000000 < len (MIPS_CPU.memory self) - 3 ->
  0 <= value < 2 ^ 32 ->
  MIPS_CPU.write_word addr value self
  = (Ret tt,
     MIPS_CPU.set_memory
       (slice_assign (MIPS_CPU.memory self) (addr - 0x80000000)
                     (addr - 0x80000000 + 4) (digits_big 4 value)) self).
Proof.
  intros H Hv. unfold MIPS_CPU.write_word, bind, get, ret, lift, put.
  destruct (word_guard_spec (addr - 0x80000000)
              (len (MIPS_CPU.memory self) - 3)); [| lia].
  now rewrite int_to_bytes_big_ok by (simpl; lia).
Qed.

(** [write_word] touches nothing but the memory, and keeps its length,
    whether it returns or raises. *)
Lemma write_word_len (self self' : MIPS_CPU.t) (addr value : Z) (r : res unit) :
  MIPS_CPU.write_word addr value self = (r, self') ->
  len (MIPS_CPU.memory self') = len (MIPS_CPU.memory self)
  /\ MIPS_CPU.regs self' = MIPS_CPU.regs self
  /\ MIPS_CPU.cycles self' = MIPS_CPU.cycles self.
Proof.
  unfold MIPS_CPU.write_word, bind, get, ret, lift, put.
  destruct (word_guard_spec (addr - 0x80000000)
              (len (MIPS_CPU.memory self) - 3)) as [Hin | Hout];
    [| intros [= <- <-]; auto].
  unfold int_to_bytes_big.
  destruct (_ && _); intros [= <- <-]; auto.
  cbn [MIPS_CPU.set_memory MIPS_CPU.memory MIPS_CPU.regs MIPS_CPU.cycles].
  split; [| auto].
  apply len_slice_assign_same; try lia.
  unfold len. cbn [length]. lia.
Qed.

(** ** One step of the processor, case by case *)

Lemma advance_run (pc : Z) (c : MIPS_CPU.t) :
  length (MIPS_CPU.regs c) = 33%nat ->
  (MIPS_CPU.setreg 32 (Z.land (pc + 4) 0xFFFFFFFF) ;;
   self <- get ;;
   put (MIPS_CPU.set_cycles (MIPS_CPU.cycles self + 1) self)) c
  = (Ret tt, advance pc c).
Proof.
  intros Hlen.
  rewrite (bind_ret_run _ _ _ _ _ (setreg_run c 32 _ ltac:(unfold len; lia))).
  unfold bind, get, put. rewrite mask32. reflexivity.
Qed.

Lemma PC_advance (pc : Z) (c : MIPS_CPU.t) :
  length (MIPS_CPU.regs c) = 33%nat ->
  PC (advance pc c) = Some ((pc + 4) mod 2 ^ 32).
Proof.
  intros Hlen. unfold PC, advance. cbn [MIPS_CPU.regs].
  apply list_lookup_insert_eq. lia.
Qed.

Lemma gpr_advance (pc : Z) (c : MIPS_CPU.t) (i : nat) :
  (i < 32)%nat ->
  MIPS_CPU.regs (advance pc c) !! i = MIPS_CPU.regs c !! i.
Proof.
  intros Hi. unfold advance. cbn [MIPS_CPU.regs].
  apply list_lookup_insert_ne. lia.
Qed.

(** The first two statements of [step], run on a state whose PC and
    fetched word are known, with the fields of the word folded back. *)
Ltac fetch_decode self pc instr Hpc Hfetch :=
  unfold MIPS_CPU.step;
  rewrite (bind_ret_run _ _ _ _ _ (getreg_run self 32 pc ltac:(lia) Hpc));
  rewrite (bind_ret_run _ _ _ _ _ Hfetch);
  cbv zeta;
  fold (Instr.opcode instr) (Instr.funct instr) (Instr.imm instr)
       (Instr.rs instr) (Instr.rt instr) (Instr.rd instr).

(** The register fields of a word index general-purpose registers. *)
Ltac field_bounds instr :=
  pose proof (field5_range (Z.shiftr instr 21));
  pose proof (field5_range (Z.shiftr instr 16));
  pose proof (field5_range (Z.shiftr instr 11));
  fold (Instr.rs instr) (Instr.rt instr) (Instr.rd instr) in *.

(** The tail, after an update of the register file that kept its length. *)
Ltac run_tail :=
  rewrite advance_run
    by (cbn [MIPS_CPU.set_regs MIPS_CPU.regs]; now rewrite length_insert);
  rewrite ?mask32; reflexivity.

Section Step.

Variables (self : MIPS_CPU.t) (pc instr : Z).
Hypothesis Hlen : length (MIPS_CPU.regs self) = 33%nat.
Hypothesis Hpc : PC self = Some pc.
Hypothesis Hfetch : MIPS_CPU.read_word pc self = (Ret instr, self).

Lemma gpr_defined (i : Z) :
  0 <= i < 32 -> exists v, MIPS_CPU.regs self !! Z.to_nat i = Some v.
Proof.
  intros Hi. apply lookup_lt_is_Some_2. lia.
Qed.

(** [addi rt, rs, imm] *)
Lemma step_addi (a : Z) :
  Instr.opcode instr = 0x08 ->
  MIPS_CPU.regs self !! Z.to_nat (Instr.rs instr) = Some a ->
  MIPS_CPU.step self
  = (Ret tt,
     advance pc
       (MIPS_CPU.set_regs
          (<[Z.to_nat (Instr.rt instr) :=
               (a + MIPS_CPU.sign_extend16 (Instr.imm instr)) mod 2 ^ 32]>
             (MIPS_CPU.regs self)) self)).
Proof.
  intros Hop Ha. fetch_decode self pc instr Hpc Hfetch. field_bounds instr.
  rewrite Hop. cbn [Z.eqb Pos.eqb].
  erewrite bind_ret_run; cycle 1.
  { erewrite bind_ret_run; [| apply getreg_run; [lia | exact Ha]].
    apply setreg_run. unfold len. lia. }
  run_tail.
Qed.

(** [lw rt, imm(rs)] *)
Lemma step_lw (a w : Z) :
  Instr.opcode instr = 0x23 ->
  MIPS_CPU.regs self !! Z.to_nat (Instr.rs instr) = Some a ->
  MIPS_CPU.read_word
    ((a + MIPS_CPU.sign_extend16 (Instr.imm instr)) mod 2 ^ 32) self
  = (Ret w, self) ->
  MIPS_CPU.step self
  = (Ret tt,
     advance pc
       (MIPS_CPU.set_regs
          (<[Z.to_nat (Instr.rt instr) := w]> (MIPS_CPU.regs self)) self)).
Proof.
  intros Hop Ha Hw. fetch_decode self pc instr Hpc Hfetch. field_bounds instr.
  rewrite Hop. cbn [Z.eqb Pos.eqb].
  erewrite bind_ret_run; cycle 1.
  { erewrite bind_ret_run; [| apply getreg_run; [lia | exact Ha]].
    rewrite mask32.
    erewrite bind_ret_run; [| exact Hw].
    apply setreg_run. unfold len. lia. }
  run_tail.
Qed.

(** [add rd, rs, rt] *)
Lemma step_add (a b : Z) :
  Instr.opcode instr = 0x00 ->
  Instr.funct instr = 0x20 ->
  MIPS_CPU.regs self !! Z.to_nat (Instr.rs instr) = Some a ->
  MIPS_CPU.regs self !! Z.to_nat (Instr.rt instr) = Some b ->
  MIPS_CPU.step self
  = (Ret tt,
     advance pc
       (MIPS_CPU.set_regs
          (<[Z.to_nat (Instr.rd instr) := (a + b) mod 2 ^ 32]>
             (MIPS_CPU.regs self)) self)).
Proof.
  intros Hop Hfn Ha Hb.
  fetch_decode self pc instr Hpc Hfetch. field_bounds instr.
  rewrite Hop, Hfn. cbn [Z.eqb Pos.eqb].
  erewrite bind_ret_run; cycle 1.
  { erewrite bind_ret_run; [| apply getreg_run; [lia | exact Ha]].
    erewrite bind_ret_run; [| apply getreg_run; [lia | exact Hb]].
    apply setreg_run. unfold len. lia. }
  run_tail.
Qed.

(** Every other word: nothing but the tail. *)
Lemma step_nop :
  Instr.opcode instr <> 0x08 ->
  Instr.opcode instr <> 0x23 ->
  ~ (Instr.opcode instr = 0x00 /\ Instr.funct instr = 0x20) ->
  MIPS_CPU.step self = (Ret tt, advance pc self).
Proof.
  intros H8 H23 H0. fetch_decode self pc instr Hpc Hfetch.
  destruct (Z.eqb_spec (Instr.opcode instr) 8) as [E8 | _]; [lia |].
  destruct (Z.eqb_spec (Instr.opcode instr) 35) as [E23 | _]; [lia |].
  erewrite bind_ret_run; [now apply advance_run |].
  destruct (Z.eqb_spec (Instr.opcode instr) 0) as [E0 | _]; [| reflexivity].
  destruct (Z.eqb_spec (Instr.funct instr) 32) as [Ef | _]; [| reflexivity].
  tauto.
Qed.

End Step.

(** From a state with the 33 register slots [step] returns: some
    instruction-dependent update of the register file, of the same length,
    then the common tail. *)
Lemma cpu_step_run (self : MIPS_CPU.t) (pc : Z) :
  length (MIPS_CPU.regs self) = 33%nat ->
  PC self = Some pc ->
  exists r : list Z,
    length r = 33%nat
    /\ MIPS_CPU.step self = (Ret tt, advance pc (MIPS_CPU.set_regs r self)).
Proof.
  intros Hlen Hpc.
  destruct (read_word_total self pc) as [instr Hfetch].
  destruct (gpr_defined self Hlen (Instr.rs instr)
              (field5_range _)) as [a Ha].
  destruct (gpr_defined self Hlen (Instr.rt instr)
              (field5_range _)) as [b Hb].
  destruct (Z.eq_dec (Instr.opcode instr) 0x08) as [E8 | N8].
  { eexists. split;
      [| exact (step_addi self pc instr Hlen Hpc Hfetch a E8 Ha)].
    now rewrite length_insert. }
  destruct (Z.eq_dec (Instr.opcode instr) 0x23) as [E23 | N23].
  { destruct (read_word_total self
                ((a + MIPS_CPU.sign_extend16 (Instr.imm instr)) mod 2 ^ 32))
      as [w Hw].
    eexists. split;
      [| exact (step_lw self pc instr Hlen Hpc Hfetch a w E23 Ha Hw)].
    now rewrite length_insert. }
  assert (Hself : MIPS_CPU.set_regs (MIPS_CPU.regs self) self = self)
    by now destruct self.
  destruct (Z.eq_dec (Instr.opcode instr) 0x00) as [E0 | N0].
  - destruct (Z.eq_dec (Instr.funct instr) 0x20) as [Ef | Nf].
    + eexists. split;
        [| exact (step_add self pc instr Hlen Hpc Hfetch a b E0 Ef Ha Hb)].
      now rewrite length_insert.
    + exists (MIPS_CPU.regs self). split; [exact Hlen |].
      rewrite Hself. apply step_nop with (instr := instr); tauto.
  - exists (MIPS_CPU.regs self). split; [exact Hlen |].
    rewrite Hself. apply step_nop with (instr := instr); tauto.
Qed.

(** Without the slot of the PC the very first statement of [step] raises,
    and nothing has changed. *)
Lemma step_raises_without_pc_slot (self : MIPS_CPU.t) :
  (length (MIPS_CPU.regs self) < 33)%nat ->
  MIPS_CPU.step self = (Raise IndexError, self).
Proof.
  intros Hlt. unfold MIPS_CPU.step, bind at 1.
  now rewrite getreg_short.
Qed.

(** ** Sign extension *)

Lemma land_pow2 (a n : Z) :
  0 <= n -> Z.land a (2 ^ n) = if Z.testbit a n then 2 ^ n else 0.
Proof.
  intros Hn. apply Z.bits_inj'. intros m Hm.
  rewrite Z.land_spec, Z.pow2_bits_eqb by lia.
  destruct (Z.eqb_spec n m) as [<- | Hne].
  - destruct (Z.testbit a n); [| now rewrite Z.bits_0].
    rewrite Z.pow2_bits_eqb, Z.eqb_refl by lia. reflexivity.
  - rewrite andb_false_r.
    destruct (Z.testbit a n); [| now rewrite Z.bits_0].
    rewrite Z.pow2_bits_eqb by lia.
    symmetry. now apply Z.eqb_neq.
Qed.

Lemma testbit15 (imm : Z) :
  0 <= imm < 2 ^ 16 -> Z.testbit imm 15 = negb (imm <? 2 ^ 15).
Proof.
  intros Himm. change (2 ^ 16) with 65536 in Himm. change (2 ^ 15) with 32768.
  destruct (imm <? 32768) eqn:E; cbn [negb].
  - apply Z.ltb_lt in E. apply Z.testbit_false; [lia |].
    change (2 ^ 15) with 32768. rewrite Z.div_small by lia. reflexivity.
  - apply Z.ltb_ge in E. apply Z.testbit_true; [lia |].
    change (2 ^ 15) with 32768.
    replace (imm / 32768) with 1; [reflexivity |].
    apply Z.div_unique with (r := imm - 32768); lia.
Qed.

(** The sign extension of the code is the signed reading of the
    specification on every 16-bit immediate. *)
Lemma sign_extend16_signed16 (imm : Z) :
  0 <= imm < 2 ^ 16 -> MIPS_CPU.sign_extend16 imm = signed16 imm.
Proof.
  intros Himm. unfold MIPS_CPU.sign_extend16, signed16.
  change 0x8000 with (2 ^ 15). change 0x10000 with (2 ^ 16).
  rewrite land_pow2, testbit15 by lia.
  destruct (imm <? 2 ^ 15); reflexivity.
Qed.

Lemma imm_range (instr : Z) : 0 <= Instr.imm instr < 2 ^ 16.
Proof.
  unfold Instr.imm. change 0xFFFF with (Z.ones 16).
  rewrite Z.land_ones by lia. apply Z.mod_pos_bound. lia.
Qed.

(** ** The machine a ROM was loaded into *)

Lemma len_memory_init : len (MIPS_CPU.memory MIPS_CPU.init) = 4194304.
Proof.
  change (MIPS_CPU.memory MIPS_CPU.init) with (bytearray MIPS_CPU.RDRAM_SIZE).
  rewrite len_bytearray; [reflexivity |].
  unfold MIPS_CPU.RDRAM_SIZE. lia.
Qed.

Lemma pi_dma_run (image : list byte) (c : MIPS_CPU.t) :
  N64Emulator.pi_dma image c
  = (Ret tt,
     MIPS_CPU.set_memory
       (slice_assign (MIPS_CPU.memory c) 0 0x1000 (slice image 0 0x1000)) c).
Proof. reflexivity. Qed.

Lemma load_rom_run (image : list byte) (self : N64Emulator.t) :
  length (MIPS_CPU.regs (N64Emulator.cpu self)) = 33%nat ->
  N64Emulator.load_rom image self
  = (Ret tt,
     N64Emulator.set_cpu
       (MIPS_CPU.mk
          (<[32%nat := N64Emulator.ENTRY_POINT]>
             (MIPS_CPU.regs (N64Emulator.cpu self)))
          (slice_assign (MIPS_CPU.memory (N64Emulator.cpu self)) 0 0x1000
                        (slice image 0 0x1000))
          (MIPS_CPU.cycles (N64Emulator.cpu self)))
       (N64Emulator.set_rom (Some image) self)).
Proof.
  intros Hlen.
  unfold N64Emulator.load_rom, N64Emulator.on_cpu, zoom, bind, get, put.
  rewrite pi_dma_run.
  cbn [N64Emulator.cpu N64Emulator.set_cpu N64Emulator.set_rom].
  rewrite setreg_run
    by (cbn [MIPS_CPU.set_memory MIPS_CPU.regs]; unfold len; lia).
  reflexivity.
Qed.

Lemma slice_whole_image :
  slice addi_r0_image 0 0x1000 = addi_r0_image.
Proof. vm_compute. reflexivity. Qed.

Lemma len_addi_r0_image : len addi_r0_image = 4096.
Proof. vm_compute. reflexivity. Qed.

(** The machine the session holds once [addi_r0_image] is loaded into a
    fresh emulator. *)
Lemma booted_cpu :
  N64Emulator.cpu (exec (N64Emulator.load_rom addi_r0_image) N64Emulator.init)
  = MIPS_CPU.mk
      (<[32%nat := N64Emulator.ENTRY_POINT]> (MIPS_CPU.regs MIPS_CPU.init))
      (slice_assign (MIPS_CPU.memory MIPS_CPU.init) 0 0x1000 addi_r0_image)
      0.
Proof.
  unfold exec. rewrite load_rom_run by reflexivity.
  rewrite slice_whole_image. reflexivity.
Qed.

Lemma booted_fetch (r : list Z) (cyc : Z) :
  let c := MIPS_CPU.mk r
             (slice_assign (MIPS_CPU.memory MIPS_CPU.init) 0 0x1000
                           addi_r0_image) cyc in
  MIPS_CPU.read_word 0x80000000 c = (Ret 0x20000005, c).
Proof.
  intros c.
  assert (Hlen : len (MIPS_CPU.memory c) = 4194304).
  { unfold c. cbn [MIPS_CPU.memory].
    rewrite len_slice_assign_same;
      rewrite ?len_memory_init, ?len_addi_r0_image; lia. }
  rewrite read_word_inside by (rewrite Hlen; lia).
  unfold c. cbn [MIPS_CPU.memory].
  change (0x80000000 - 0x80000000) with 0. change (0 + 4) with 4.
  rewrite slice_head_slice_assign by (rewrite len_addi_r0_image; lia).
  reflexivity.
Qed.

(* ===================================================================== *)
(** * The processor: memory access *)
(* ===================================================================== *)

(** C4. For every virtual address outside
    [[KSEG_BASE, KSEG_BASE + size)], [read_word] returns 0 and
    [write_word] returns without changing the machine (so every byte of
    memory is as before); neither raises, whatever the value written. *)
Theorem out_of_range_access_is_absorbed
    (self : MIPS_CPU.t) (vaddr value : Z) :
  vaddr < MIPS_CPU.KSEG_BASE
  \/ MIPS_CPU.KSEG_BASE + len (MIPS_CPU.memory self) <= vaddr ->
  MIPS_CPU.read_word vaddr self = (Ret 0, self)
  /\ MIPS_CPU.write_word vaddr value self = (Ret tt, self).
Proof.
  unfold MIPS_CPU.KSEG_BASE. intros H. split.
  - apply read_word_outside. lia.
  - apply write_word_outside. lia.
Qed.

(** The first fetch of a fresh machine, at the reset vector, is such an
    access. *)
Lemma out_of_range_access_is_absorbed_witness :
  (MIPS_CPU.RESET_VECTOR < MIPS_CPU.KSEG_BASE
   \/ MIPS_CPU.KSEG_BASE + len (MIPS_CPU.memory MIPS_CPU.init)
      <= MIPS_CPU.RESET_VECTOR)
  /\ MIPS_CPU.read_word MIPS_CPU.RESET_VECTOR MIPS_CPU.init
     = (Ret 0, MIPS_CPU.init)
  /\ MIPS_CPU.write_word MIPS_CPU.RESET_VECTOR (-1) MIPS_CPU.init
     = (Ret tt, MIPS_CPU.init).
Proof.
  assert (H : MIPS_CPU.RESET_VECTOR < MIPS_CPU.KSEG_BASE
              \/ MIPS_CPU.KSEG_BASE + len (MIPS_CPU.memory MIPS_CPU.init)
                 <= MIPS_CPU.RESET_VECTOR).
  { right. rewrite len_memory_init.
    unfold MIPS_CPU.KSEG_BASE, MIPS_CPU.RESET_VECTOR. lia. }
  split; [exact H |].
  exact (out_of_range_access_is_absorbed MIPS_CPU.init _ (-1) H).
Defined.

(** C8. For every 32-bit value and every address whose physical offset
    passes the bounds check of §4.1 ([0 <= phys <= size - 4]),
    [write_word] followed by [read_word] at the same address returns the
    value written. *)
Theorem write_word_then_read_word (self : MIPS_CPU.t) (vaddr v : Z) :
  0 <= v < 2 ^ 32 ->
  0 <= vaddr - MIPS_CPU.KSEG_BASE <= len (MIPS_CPU.memory self) - 4 ->
  exists self',
    MIPS_CPU.write_word vaddr v self = (Ret tt, self')
    /\ MIPS_CPU.read_word vaddr self' = (Ret v, self').
Proof.
  unfold MIPS_CPU.KSEG_BASE. intros Hv Ha.
  eexists. split; [apply write_word_inside; lia |].
  set (phys := vaddr - 0x80000000) in *.
  assert (Hbs : len (digits_big 4 v) = phys + 4 - phys).
  { unfold len. rewrite length_digits_big. lia. }
  rewrite read_word_inside; fold phys; cbn [MIPS_CPU.set_memory MIPS_CPU.memory].
  - rewrite slice_slice_assign by lia.
    rewrite int_from_bytes_digits_big by lia.
    change (8 * Z.of_nat 4) with 32.
    now rewrite Z.mod_small by lia.
  - rewrite len_slice_assign_same by lia. lia.
Qed.

Lemma write_word_then_read_word_witness :
  0 <= 0xDEADBEEF < 2 ^ 32
  /\ 0 <= 0x80300000 - MIPS_CPU.KSEG_BASE
       <= len (MIPS_CPU.memory MIPS_CPU.init) - 4
  /\ exists self',
       MIPS_CPU.write_word 0x80300000 0xDEADBEEF MIPS_CPU.init = (Ret tt, self')
       /\ MIPS_CPU.read_word 0x80300000 self' = (Ret 0xDEADBEEF, self').
Proof.
  assert (Hv : 0 <= 0xDEADBEEF < 2 ^ 32) by lia.
  assert (Ha : 0 <= 0x80300000 - MIPS_CPU.KSEG_BASE
               <= len (MIPS_CPU.memory MIPS_CPU.init) - 4).
  { rewrite len_memory_init. unfold MIPS_CPU.KSEG_BASE. lia. }
  split; [exact Hv |]. split; [exact Ha |].
  exact (write_word_then_read_word MIPS_CPU.init _ _ Hv Ha).
Defined.

(** The last three offsets of the memory hold no word: a write there is
    dropped, and a read returns 0. *)
Lemma write_word_at_the_end_is_dropped (self : MIPS_CPU.t) (vaddr v : Z) :
  len (MIPS_CPU.memory self) - 3 <= vaddr - MIPS_CPU.KSEG_BASE ->
  MIPS_CPU.write_word vaddr v self = (Ret tt, self)
  /\ MIPS_CPU.read_word vaddr self = (Ret 0, self).
Proof.
  unfold MIPS_CPU.KSEG_BASE. intros H. split.
  - apply write_word_outside. lia.
  - apply read_word_outside. lia.
Qed.

(* ===================================================================== *)
(** * The processor: one step *)
(* ===================================================================== *)

(** C5. When the word fetched has an opcode other than 0x08 and 0x23 and
    is not opcode 0x00 with function field 0x20, [step] returns having
    left the 32 general-purpose registers and the memory as they were;
    the PC has advanced by 4 (modulo 2^32) and the cycle counter by 1. *)
Theorem unknown_opcode_is_nop (self : MIPS_CPU.t) (pc instr : Z) :
  length (MIPS_CPU.regs self) = 33%nat ->
  PC self = Some pc ->
  MIPS_CPU.read_word pc self = (Ret instr, self) ->
  Instr.opcode instr <> 0x08 ->
  Instr.opcode instr <> 0x23 ->
  ~ (Instr.opcode instr = 0x00 /\ Instr.funct instr = 0x20) ->
  exists self',
    MIPS_CPU.step self = (Ret tt, self')
    /\ (forall i : nat,
          (i < 32)%nat -> MIPS_CPU.regs self' !! i = MIPS_CPU.regs self !! i)
    /\ MIPS_CPU.memory self' = MIPS_CPU.memory self
    /\ PC self' = Some ((pc + 4) mod 2 ^ 32)
    /\ MIPS_CPU.cycles self' = MIPS_CPU.cycles self + 1.
Proof.
  intros Hlen Hpc Hfetch H8 H23 H0.
  exists (advance pc self). split.
  - now apply step_nop with (instr := instr).
  - split; [intros i Hi; now apply gpr_advance |].
    split; [reflexivity |].
    split; [now apply PC_advance | reflexivity].
Qed.

(** A fresh machine fetches at the reset vector, which maps outside the
    memory: the word read is 0, with opcode 0 and function field 0. *)
Lemma unknown_opcode_is_nop_witness :
  exists self',
    MIPS_CPU.step MIPS_CPU.init = (Ret tt, self')
    /\ (forall i : nat,
          (i < 32)%nat ->
          MIPS_CPU.regs self' !! i = MIPS_CPU.regs MIPS_CPU.init !! i)
    /\ MIPS_CPU.memory self' = MIPS_CPU.memory MIPS_CPU.init
    /\ PC self' = Some ((MIPS_CPU.RESET_VECTOR + 4) mod 2 ^ 32)
    /\ MIPS_CPU.cycles self' = MIPS_CPU.cycles MIPS_CPU.init + 1.
Proof.
  apply (unknown_opcode_is_nop MIPS_CPU.init MIPS_CPU.RESET_VECTOR 0).
  - reflexivity.
  - reflexivity.
  - apply read_word_outside. right. rewrite len_memory_init.
    unfold MIPS_CPU.RESET_VECTOR. lia.
  - vm_compute. discriminate.
  - vm_compute. discriminate.
  - vm_compute. intros [_ H]. discriminate H.
Defined.

(** C6. From every state with the 33 register slots, [step] returns, and
    afterwards the PC is the old PC plus 4 modulo 2^32 and the cycle
    counter is the old one plus 1, whichever word was fetched. *)
Theorem step_advances_pc_and_cycles (self : MIPS_CPU.t) (pc : Z) :
  length (MIPS_CPU.regs self) = 33%nat ->
  PC self = Some pc ->
  exists self',
    MIPS_CPU.step self = (Ret tt, self')
    /\ PC self' = Some ((pc + 4) mod 2 ^ 32)
    /\ MIPS_CPU.cycles self' = MIPS_CPU.cycles self + 1.
Proof.
  intros Hlen Hpc.
  destruct (cpu_step_run self pc Hlen Hpc) as (r & Hr & Hstep).
  eexists. split; [exact Hstep |].
  split; [| reflexivity].
  apply PC_advance. exact Hr.
Qed.

(** The machine with [addi_r0_image] loaded steps from the entry point. *)
Lemma step_advances_pc_and_cycles_witness :
  let c := N64Emulator.cpu
             (exec (N64Emulator.load_rom addi_r0_image) N64Emulator.init) in
  exists self',
    MIPS_CPU.step c = (Ret tt, self')
    /\ PC self' = Some ((N64Emulator.ENTRY_POINT + 4) mod 2 ^ 32)
    /\ MIPS_CPU.cycles self' = MIPS_CPU.cycles c + 1.
Proof.
  rewrite booted_cpu.
  apply step_advances_pc_and_cycles; reflexivity.
Defined.

(** C7. Add-immediate (opcode 0x08) leaves in [regs[rt]] the sum of
    [regs[rs]] and the signed reading of the 16-bit immediate, modulo
    2^32, and the step returns (no overflow fault). An immediate with
    bit 15 set counts as negative (0x8000 is -32768), and 0xFFFFFFFF
    plus the immediate 1 wraps to 0. *)
Theorem addi_sign_extends_and_wraps (self : MIPS_CPU.t) (pc instr a : Z) :
  length (MIPS_CPU.regs self) = 33%nat ->
  PC self = Some pc ->
  MIPS_CPU.read_word pc self = (Ret instr, self) ->
  Instr.opcode instr = 0x08 ->
  MIPS_CPU.regs self !! Z.to_nat (Instr.rs instr) = Some a ->
  (exists self',
     MIPS_CPU.step self = (Ret tt, self')
     /\ MIPS_CPU.regs self' !! Z.to_nat (Instr.rt instr)
        = Some ((a + signed16 (Instr.imm instr)) mod 2 ^ 32))
  /\ MIPS_CPU.sign_extend16 0x8000 = -32768
  /\ (0xFFFFFFFF + MIPS_CPU.sign_extend16 1) mod 2 ^ 32 = 0.
Proof.
  intros Hlen Hpc Hfetch Hop Ha.
  split; [| split; reflexivity].
  eexists. split; [exact (step_addi self pc instr Hlen Hpc Hfetch a Hop Ha) |].
  pose proof (field5_range (Z.shiftr instr 16)) as Hrt.
  fold (Instr.rt instr) in Hrt.
  rewrite gpr_advance by lia.
  cbn [MIPS_CPU.set_regs MIPS_CPU.regs].
  rewrite sign_extend16_signed16 by apply imm_range.
  apply list_lookup_insert_eq. lia.
Qed.

(** [addi $0, $0, 5] on the machine with [addi_r0_image] loaded. *)
Lemma addi_sign_extends_and_wraps_witness :
  let c := N64Emulator.cpu
             (exec (N64Emulator.load_rom addi_r0_image) N64Emulator.init) in
  (exists self',
     MIPS_CPU.step c = (Ret tt, self')
     /\ MIPS_CPU.regs self' !! Z.to_nat (Instr.rt 0x20000005)
        = Some ((0 + signed16 (Instr.imm 0x20000005)) mod 2 ^ 32))
  /\ MIPS_CPU.sign_extend16 0x8000 = -32768
  /\ (0xFFFFFFFF + MIPS_CPU.sign_extend16 1) mod 2 ^ 32 = 0.
Proof.
  rewrite booted_cpu.
  apply (addi_sign_extends_and_wraps _ N64Emulator.ENTRY_POINT 0x20000005 0).
  - reflexivity.
  - reflexivity.
  - apply booted_fetch.
  - reflexivity.
  - reflexivity.
Defined.

(** C9. Register 0 is an ordinary register: on the machine with
    [addi_r0_image] loaded, whose first word is [addi $0, $0, 5], one
    step takes [regs[0]] from 0 to 5, and the value stays readable. *)
Theorem register_zero_is_writable :
  let c := N64Emulator.cpu
             (exec (N64Emulator.load_rom addi_r0_image) N64Emulator.init) in
  exists self',
    MIPS_CPU.step c = (Ret tt, self')
    /\ MIPS_CPU.getreg 0 c = (Ret 0, c)
    /\ MIPS_CPU.getreg 0 self' = (Ret 5, self')
    /\ 5 <> 0.
Proof.
  rewrite booted_cpu.
  eexists. split.
  - apply (step_addi _ N64Emulator.ENTRY_POINT 0x20000005);
      [reflexivity | reflexivity | apply booted_fetch | reflexivity |].
    change (Z.to_nat (Instr.rs 0x20000005)) with 0%nat. reflexivity.
  - split; [apply getreg_run; [lia | reflexivity] |].
    split; [apply getreg_run; [lia | reflexivity] | lia].
Qed.

(* ===================================================================== *)
(** * Frame reasoning: what a method leaves alone *)
(* ===================================================================== *)

Section Frame.

Context {S X : Type} (f : S -> X).

Lemma frame_at_ret {A : Type} (a : A) (s : S) : frame_at f (ret a) s.
Proof. reflexivity. Qed.

Lemma frame_at_lift {A : Type} (r : res A) (s : S) : frame_at f (lift r) s.
Proof. reflexivity. Qed.

Lemma frame_at_put (s' s : S) : f s' = f s -> frame_at f (put s') s.
Proof. intros H. exact H. Qed.

Lemma frame_at_bind {A B : Type} (m : M S A) (k : A -> M S B) (s : S) :
  frame_at f m s ->
  (forall a s', m s = (Ret a, s') -> frame_at f (k a) s') ->
  frame_at f (bind m k) s.
Proof.
  unfold frame_at, exec, bind. intros Hm Hk.
  destruct (m s) as [[a | e] s'] eqn:E; cbn [snd] in *.
  - now rewrite (Hk a s' eq_refl).
  - exact Hm.
Qed.

Lemma frame_at_get_bind {B : Type} (k : S -> M S B) (s : S) :
  frame_at f (k s) s -> frame_at f (bind get k) s.
Proof. intros H. exact H. Qed.

Lemma frame_at_lift_bind {A B : Type} (r : res A) (k : A -> M S B) (s : S) :
  (forall a, r = Ret a -> frame_at f (k a) s) ->
  frame_at f (bind (lift r) k) s.
Proof.
  intros H. destruct r as [a | e]; [exact (H a eq_refl) | reflexivity].
Qed.

Lemma frame_at_zoom {T Y A : Type} (g : T -> Y) (proj : S -> T)
    (upd : T -> S -> S) (m : M T A) (s : S) :
  frame_at g m (proj s) ->
  (forall t', g t' = g (proj s) -> f (upd t' s) = f s) ->
  frame_at f (zoom proj upd m) s.
Proof.
  unfold frame_at, exec, zoom. intros Hm Hupd.
  destruct (m (proj s)) as [r t'] eqn:E. cbn [snd] in *. now apply Hupd.
Qed.

End Frame.

(** ** What the processor's methods leave alone *)

Lemma getreg_frame {X : Type} (f : MIPS_CPU.t -> X) (i : Z) (c : MIPS_CPU.t) :
  frame_at f (MIPS_CPU.getreg i) c.
Proof. apply frame_at_get_bind, frame_at_lift. Qed.

Lemma setreg_memory (i v : Z) (c : MIPS_CPU.t) :
  frame_at MIPS_CPU.memory (MIPS_CPU.setreg i v) c.
Proof.
  apply frame_at_get_bind, frame_at_lift_bind. intros r _.
  now apply frame_at_put.
Qed.

Lemma read_word_frame {X : Type} (f : MIPS_CPU.t -> X) (addr : Z)
    (c : MIPS_CPU.t) :
  frame_at f (MIPS_CPU.read_word addr) c.
Proof.
  apply frame_at_get_bind. cbv beta zeta.
  destruct (_ && _); apply frame_at_ret.
Qed.

(** [MIPS_CPU.step] never writes to memory, whether it returns or raises. *)
Lemma cpu_step_memory (c : MIPS_CPU.t) :
  frame_at MIPS_CPU.memory MIPS_CPU.step c.
Proof.
  unfold MIPS_CPU.step.
  apply frame_at_bind; [apply getreg_frame |]. intros pc c1 _.
  apply frame_at_bind; [apply read_word_frame |]. intros instr c2 _.
  cbv zeta.
  apply frame_at_bind.
  - repeat match goal with
           | |- frame_at _ (if ?b then _ else _) _ => destruct b
           | |- frame_at _ (bind (MIPS_CPU.getreg _) _) _ =>
               apply frame_at_bind; [apply getreg_frame | intros ? ? _]
           | |- frame_at _ (bind (MIPS_CPU.read_word _) _) _ =>
               apply frame_at_bind; [apply read_word_frame | intros ? ? _]
           | |- frame_at _ (MIPS_CPU.setreg _ _) _ => apply setreg_memory
           | |- frame_at _ (ret _) _ => apply frame_at_ret
           end.
  - intros _ c3 _.
    apply frame_at_bind; [apply setreg_memory |]. intros _ c4 _.
    apply frame_at_get_bind. now apply frame_at_put.
Qed.

Lemma write_word_len_frame (addr value : Z) (c : MIPS_CPU.t) :
  frame_at (fun c => len (MIPS_CPU.memory c))
           (MIPS_CPU.write_word addr value) c.
Proof.
  unfold frame_at, exec.
  destruct (MIPS_CPU.write_word addr value c) as [r c'] eqn:E.
  apply write_word_len in E. cbn [snd]. tauto.
Qed.

(** ** What a session step leaves alone *)

Lemma on_cpu_len_frame {A : Type} (m : M MIPS_CPU.t A) (self : N64Emulator.t) :
  frame_at (fun c => len (MIPS_CPU.memory c)) m (N64Emulator.cpu self) ->
  frame_at (fun e => len (MIPS_CPU.memory (N64Emulator.cpu e)))
           (N64Emulator.on_cpu m) self.
Proof.
  intros H. unfold N64Emulator.on_cpu.
  apply frame_at_zoom with (g := fun c => len (MIPS_CPU.memory c));
    [exact H | auto].
Qed.

(** A session step keeps the length of the memory, whatever the flags and
    the draw, and whether it returns or raises. *)
Lemma session_step_keeps_memory_length (rnd : nat) (self : N64Emulator.t) :
  len (MIPS_CPU.memory (N64Emulator.cpu (exec (N64Emulator.step rnd) self)))
  = len (MIPS_CPU.memory (N64Emulator.cpu self)).
Proof.
  change (frame_at (fun e => len (MIPS_CPU.memory (N64Emulator.cpu e)))
                   (N64Emulator.step rnd) self).
  unfold N64Emulator.step.
  apply frame_at_get_bind. cbv beta.
  destruct (_ || _); [apply frame_at_ret |].
  apply frame_at_bind.
  { apply on_cpu_len_frame. unfold frame_at.
    now rewrite (cpu_step_memory (N64Emulator.cpu self)). }
  intros _ e1 _. apply frame_at_get_bind, frame_at_lift_bind. intros p _.
  apply frame_at_bind.
  { destruct (_ && _); [| apply frame_at_ret].
    apply frame_at_lift_bind. intros h _. now apply frame_at_put. }
  intros _ e2 _. apply frame_at_get_bind, frame_at_lift_bind. intros r _.
  apply frame_at_bind.
  { destruct (_ && _); [| apply frame_at_ret].
    apply on_cpu_len_frame, write_word_len_frame. }
  intros _ e3 _. apply frame_at_get_bind, frame_at_lift_bind. intros h _.
  destruct h; [| apply frame_at_ret].
  apply on_cpu_len_frame, write_word_len_frame.
Qed.

(** ** Loading and resetting *)

(** What [reset] does: a fresh processor, the boot transfer replayed when
    a non-empty ROM is held, and the session set running. The PC of the
    fresh processor is not reassigned. *)
Lemma reset_run (self : N64Emulator.t) :
  N64Emulator.reset self
  = (Ret tt,
     N64Emulator.set_running true
       (N64Emulator.set_cpu
          (match N64Emulator.rom self with
           | Some (b :: image) =>
               MIPS_CPU.set_memory
                 (slice_assign (MIPS_CPU.memory MIPS_CPU.init) 0 0x1000
                               (slice (b :: image) 0 0x1000))
                 MIPS_CPU.init
           | _ => MIPS_CPU.init
           end) self)).
Proof.
  unfold N64Emulator.reset, bind, get, put.
  cbn [N64Emulator.rom N64Emulator.set_cpu].
  destruct (N64Emulator.rom self) as [[| b image] |]; reflexivity.
Qed.

(** [load_rom] stores the image before anything can raise. *)
Lemma load_rom_rom (image : list byte) (self : N64Emulator.t) :
  N64Emulator.rom (exec (N64Emulator.load_rom image) self) = Some image.
Proof.
  unfold exec, N64Emulator.load_rom, N64Emulator.on_cpu, zoom, bind, get, put.
  rewrite pi_dma_run.
  destruct (MIPS_CPU.setreg _ _ _) as [[[] | e] c]; reflexivity.
Qed.

(** The length of the memory after the boot transfer: the bytes past
    offset 4096 of the old memory, behind the bytes taken from the image. *)
Lemma len_boot_transfer (mem image : list byte) :
  4096 <= len mem ->
  len (slice_assign mem 0 0x1000 (slice image 0 0x1000))
  = len mem - 4096 + Z.min (len image) 4096.
Proof.
  intros Hmem. pose proof (len_nonneg image) as Himg.
  unfold len in *. rewrite length_slice_assign.
  rewrite (clamp_inside mem 0), (clamp_inside mem 0x1000) by (unfold len; lia).
  unfold slice. rewrite length_take, length_drop.
  rewrite (clamp_inside image 0) by (unfold len; lia).
  unfold clamp, len. cbn [Z.ltb Z.compare]. lia.
Qed.

(** With an image of at least 4096 bytes the boot transfer keeps the
    length of the memory, and puts the first 4096 bytes of the image at
    offsets 0 to 4095. *)
Lemma boot_transfer_of_full_image (mem image : list byte) :
  4096 <= len mem -> 4096 <= len image ->
  len (slice_assign mem 0 0x1000 (slice image 0 0x1000)) = len mem
  /\ slice (slice_assign mem 0 0x1000 (slice image 0 0x1000)) 0 0x1000
     = slice image 0 0x1000.
Proof.
  intros Hmem Himg.
  assert (Hsrc : len (slice image 0 0x1000) = 0x1000 - 0).
  { unfold slice, len in *. rewrite length_take, length_drop.
    rewrite (clamp_inside image 0), (clamp_inside image 0x1000)
      by (unfold len; lia).
    lia. }
  split.
  - apply len_slice_assign_same; lia.
  - apply slice_slice_assign; lia.
Qed.

Lemma load_state_run (r : list Z) (m : list byte) (h : string)
    (self : N64Emulator.t) :
  N64Emulator.load_state (N64Emulator.Triple r m h) self
  = (Ret tt,
     N64Emulator.set_mario_hat_color h
       (N64Emulator.set_cpu
          (MIPS_CPU.mk r m (MIPS_CPU.cycles (N64Emulator.cpu self))) self)).
Proof. reflexivity. Qed.

(** A running, unpaused session with the 33 register slots executes one
    processor step per session step: the cycle counter goes up by 1,
    unless a flag lookup raises. *)
Lemma session_step_cycles (rnd : nat) (self : N64Emulator.t) :
  N64Emulator.running self = true ->
  N64Emulator.paused self = false ->
  length (MIPS_CPU.regs (N64Emulator.cpu self)) = 33%nat ->
  MIPS_CPU.cycles (N64Emulator.cpu (exec (N64Emulator.step rnd) self))
  = MIPS_CPU.cycles (N64Emulator.cpu self) + 1.
Proof.
  intros Hrun Hpause Hlen.
  destruct (lookup_lt_is_Some_2 (MIPS_CPU.regs (N64Emulator.cpu self)) 32
              ltac:(lia)) as [pc Hpc].
  destruct (cpu_step_run _ pc Hlen Hpc) as (r & Hr & Hstep).
  set (f := fun e => MIPS_CPU.cycles (N64Emulator.cpu e)).
  unfold exec, N64Emulator.step.
  unfold bind at 1, get at 1. rewrite Hrun, Hpause. cbn [negb orb].
  unfold bind at 1, N64Emulator.on_cpu at 1, zoom at 1. rewrite Hstep.
  match goal with
  | |- MIPS_CPU.cycles (N64Emulator.cpu (snd (?k ?e1))) = _ =>
      change (f (exec k e1) = f self + 1);
      assert (Hk : frame_at f k e1); [| rewrite Hk; reflexivity]
  end.
  assert (Hw : forall a v e, frame_at f (N64Emulator.on_cpu (MIPS_CPU.write_word a v)) e).
  { intros a v e. unfold N64Emulator.on_cpu.
    apply frame_at_zoom with (g := MIPS_CPU.cycles); [| auto].
    unfold frame_at, exec.
    destruct (MIPS_CPU.write_word a v (N64Emulator.cpu e)) as [x c'] eqn:E.
    apply write_word_len in E. cbn [snd]. tauto. }
  apply frame_at_get_bind, frame_at_lift_bind. intros p _.
  apply frame_at_bind.
  { destruct (_ && _); [| apply frame_at_ret].
    apply frame_at_lift_bind. intros h _. now apply frame_at_put. }
  intros _ e2 _. apply frame_at_get_bind, frame_at_lift_bind. intros q _.
  apply frame_at_bind.
  { destruct (_ && _); [apply Hw | apply frame_at_ret]. }
  intros _ e3 _. apply frame_at_get_bind, frame_at_lift_bind. intros h _.
  destruct h; [apply Hw | apply frame_at_ret].
Qed.

(* ===================================================================== *)
(** * The session: loading and resetting *)
(* ===================================================================== *)

(** C1. The code departs from the claim: after [load_rom] and [reset],
    for every image and every session, the PC is the reset vector
    0xBFC00000 and not the entry address 0x80000000 that [load_rom] had
    set. [reset] builds a fresh processor and replays the memory copy of
    [load_rom], but not its assignment to the PC. *)
Theorem reset_after_load_rom_pc (image : list byte) (self : N64Emulator.t) :
  let after :=
    exec N64Emulator.reset (exec (N64Emulator.load_rom image) self) in
  PC (N64Emulator.cpu after) = Some MIPS_CPU.RESET_VECTOR
  /\ MIPS_CPU.RESET_VECTOR <> N64Emulator.ENTRY_POINT.
Proof.
  cbv zeta. split; [| discriminate].
  unfold exec at 1. rewrite reset_run. cbn [snd].
  cbn [N64Emulator.set_running N64Emulator.set_cpu N64Emulator.cpu].
  destruct (N64Emulator.rom _) as [[| b rest] |]; reflexivity.
Qed.

(** [load_rom] itself does hand control to the entry point. *)
Lemma load_rom_sets_entry_point (image : list byte) (self : N64Emulator.t) :
  length (MIPS_CPU.regs (N64Emulator.cpu self)) = 33%nat ->
  PC (N64Emulator.cpu (exec (N64Emulator.load_rom image) self))
  = Some N64Emulator.ENTRY_POINT.
Proof.
  intros Hlen. unfold exec. rewrite load_rom_run by exact Hlen.
  cbn [snd N64Emulator.cpu N64Emulator.set_cpu]. unfold PC.
  cbn [MIPS_CPU.regs]. apply list_lookup_insert_eq. lia.
Qed.

(** The memory half of the same claim does hold for an image of at least
    4096 bytes: after [load_rom] and [reset], offsets 0 to 4095 hold the
    first 4096 bytes of the image. *)
Lemma reset_after_load_rom_memory (image : list byte) (self : N64Emulator.t) :
  4096 <= len image ->
  let after :=
    exec N64Emulator.reset (exec (N64Emulator.load_rom image) self) in
  slice (MIPS_CPU.memory (N64Emulator.cpu after)) 0 0x1000
  = slice image 0 0x1000.
Proof.
  intros Himg. cbv zeta.
  unfold exec at 1. rewrite reset_run, load_rom_rom. cbn [snd].
  cbn [N64Emulator.set_running N64Emulator.set_cpu N64Emulator.cpu].
  destruct image as [| b rest]; [unfold len in Himg; cbn in Himg; lia |].
  cbn [MIPS_CPU.set_memory MIPS_CPU.memory].
  apply boot_transfer_of_full_image; [rewrite len_memory_init; lia | exact Himg].
Qed.

(** C3. The code departs from the claim: loading the one-byte image
    [b"\x00"] into a fresh emulator takes the memory from 4194304 bytes
    to 4190209, because the slice assignment replaces 4096 bytes by the
    single byte the image holds; [reset] then rebuilds the memory and
    shrinks it in the same way. *)
Theorem short_image_shrinks_memory :
  let e := exec (N64Emulator.load_rom [x00]) N64Emulator.init in
  len (MIPS_CPU.memory (N64Emulator.cpu N64Emulator.init)) = 4194304
  /\ len (MIPS_CPU.memory (N64Emulator.cpu e)) = 4190209
  /\ len (MIPS_CPU.memory (N64Emulator.cpu (exec N64Emulator.reset e)))
     = 4190209.
Proof.
  cbv zeta. split; [exact len_memory_init |]. split.
  - unfold exec. rewrite load_rom_run by reflexivity. cbn [snd].
    cbn [N64Emulator.set_cpu N64Emulator.cpu MIPS_CPU.memory].
    rewrite len_boot_transfer;
      change (MIPS_CPU.memory (N64Emulator.cpu N64Emulator.init))
        with (MIPS_CPU.memory MIPS_CPU.init);
      rewrite len_memory_init; [reflexivity | lia].
  - unfold exec at 1. rewrite reset_run, load_rom_rom. cbn [snd].
    cbn [N64Emulator.set_running N64Emulator.set_cpu N64Emulator.cpu
         MIPS_CPU.set_memory MIPS_CPU.memory].
    rewrite len_boot_transfer; rewrite len_memory_init; [reflexivity | lia].
Qed.

(** For an image of at least 4096 bytes, [load_rom] keeps the length of a
    memory of at least 4096 bytes. *)
Lemma load_rom_keeps_memory_length (image : list byte) (self : N64Emulator.t) :
  4096 <= len image ->
  4096 <= len (MIPS_CPU.memory (N64Emulator.cpu self)) ->
  len (MIPS_CPU.memory
         (N64Emulator.cpu (exec (N64Emulator.load_rom image) self)))
  = len (MIPS_CPU.memory (N64Emulator.cpu self)).
Proof.
  intros Himg Hmem.
  unfold exec, N64Emulator.load_rom, N64Emulator.on_cpu, zoom, bind, get, put.
  rewrite pi_dma_run.
  cbn [N64Emulator.cpu N64Emulator.set_cpu N64Emulator.set_rom].
  destruct (MIPS_CPU.setreg _ _ _) as [x c] eqn:E.
  pose proof (setreg_memory 32 0x80000000
                (MIPS_CPU.set_memory
                   (slice_assign (MIPS_CPU.memory (N64Emulator.cpu self)) 0
                      0x1000 (slice image 0 0x1000))
                   (N64Emulator.cpu self))) as Hm.
  unfold frame_at, exec in Hm. rewrite E in Hm. cbn [snd] in Hm.
  assert (Hc : MIPS_CPU.memory c
               = slice_assign (MIPS_CPU.memory (N64Emulator.cpu self)) 0
                   0x1000 (slice image 0 0x1000)) by exact Hm.
  destruct x as [[] | e]; cbn [snd N64Emulator.cpu N64Emulator.set_cpu];
    rewrite Hc; now apply boot_transfer_of_full_image.
Qed.

(* ===================================================================== *)
(** * The session: saving and restoring *)
(* ===================================================================== *)

(** [load_state] keeps the cycle counter of the session it restores
    into, and a capture taken right after the restore is the snapshot
    restored. *)
Lemma restore_cycles_and_capture (self other : N64Emulator.t) :
  let restored :=
    exec (N64Emulator.load_state (N64Emulator.save_state self)) other in
  MIPS_CPU.cycles (N64Emulator.cpu restored)
  = MIPS_CPU.cycles (N64Emulator.cpu other)
  /\ N64Emulator.save_state restored = N64Emulator.save_state self.
Proof.
  cbv zeta. unfold N64Emulator.save_state, exec.
  rewrite load_state_run. split; reflexivity.
Qed.

Lemma reset_init :
  exec N64Emulator.reset N64Emulator.init
  = N64Emulator.set_running true
      (N64Emulator.set_cpu MIPS_CPU.init N64Emulator.init).
Proof. unfold exec. rewrite reset_run. reflexivity. Qed.

(** The cycle counter is not part of the snapshot, so a restore into a
    later state does not bring it back. A fresh session is reset,
    captured at cycle 0, stepped once and restored from the capture:
    registers, memory and hat colour are those of the capture, but the
    cycle counter stays at 1. *)
Lemma restore_leaves_cycle_counter :
  let e0 := exec N64Emulator.reset N64Emulator.init in
  let snapshot := N64Emulator.save_state e0 in
  let e1 := exec (N64Emulator.step 0) e0 in
  let e2 := exec (N64Emulator.load_state snapshot) e1 in
  MIPS_CPU.cycles (N64Emulator.cpu e2) <> MIPS_CPU.cycles (N64Emulator.cpu e0)
  /\ MIPS_CPU.cycles (N64Emulator.cpu e0) = 0
  /\ MIPS_CPU.cycles (N64Emulator.cpu e2) = 1
  /\ N64Emulator.save_state e2 = snapshot.
Proof.
  cbv zeta.
  assert (H0 : MIPS_CPU.cycles
                 (N64Emulator.cpu (exec N64Emulator.reset N64Emulator.init))
               = 0)
    by (rewrite reset_init; reflexivity).
  assert (H1 : MIPS_CPU.cycles
                 (N64Emulator.cpu
                    (exec (N64Emulator.step 0)
                          (exec N64Emulator.reset N64Emulator.init)))
               = 1).
  { rewrite session_step_cycles;
      [rewrite H0; reflexivity | rewrite reset_init; reflexivity ..]. }
  destruct (restore_cycles_and_capture
              (exec N64Emulator.reset N64Emulator.init)
              (exec (N64Emulator.step 0)
                    (exec N64Emulator.reset N64Emulator.init)))
    as [Hc Hs].
  rewrite Hc, H1, H0.
  split; [discriminate |].
  split; [reflexivity |].
  split; [reflexivity | exact Hs].
Qed.

(** C2. For every session, [load_state] right after [save_state] returns
    and leaves the whole session as it was at the moment of capture: the
    33 register slots, the memory, the hat colour and the cycle counter
    are the same before and after the round trip. The cycle counter is
    not reset by the restore: the snapshot holds the registers, the
    memory and the hat colour, and restored into a session in any state
    it brings these three back and leaves the cycle counter at the value
    it has at the time of the restore. *)
Theorem restore_after_capture (self other : N64Emulator.t) :
  N64Emulator.load_state (N64Emulator.save_state self) self = (Ret tt, self)
  /\ exists restored,
       N64Emulator.load_state (N64Emulator.save_state self) other
       = (Ret tt, restored)
       /\ MIPS_CPU.regs (N64Emulator.cpu restored)
          = MIPS_CPU.regs (N64Emulator.cpu self)
       /\ MIPS_CPU.memory (N64Emulator.cpu restored)
          = MIPS_CPU.memory (N64Emulator.cpu self)
       /\ N64Emulator.mario_hat_color restored
          = N64Emulator.mario_hat_color self
       /\ MIPS_CPU.cycles (N64Emulator.cpu restored)
          = MIPS_CPU.cycles (N64Emulator.cpu other).
Proof.
  unfold N64Emulator.save_state. rewrite !load_state_run. split.
  - destruct self as [[r m c] ? ? ? ? ? ?]. reflexivity.
  - eexists. split; [reflexivity |]. repeat split.
Qed.



(* ===================================================================== *)
(** * The model at work on small inputs *)
(* ===================================================================== *)

(** [b = bytearray(b"\x01\x02\x03\x04\x05"); b[0:3] = b"\x09"] leaves
    [bytearray(b"\x09\x04\x05")]. *)
Example slice_assign_shrinks :
  slice_assign [x01; x02; x03; x04; x05] 0 3 [x09] = [x09; x04; x05].
Proof. reflexivity. Qed.

Example slice_clamps :
  slice [x01; x02; x03] 1 0x1000 = [x02; x03]
  /\ slice [x01; x02; x03] (-2) 3 = [x02; x03]
  /\ slice [x01; x02; x03] 2 1 = [].
Proof. repeat split. Qed.

Example from_bytes_big_endian :
  int_from_bytes_big [x20; x01; x00; x05] = 0x20010005.
Proof. reflexivity. Qed.

Example to_bytes_big_endian :
  int_to_bytes_big 0x20010005 4 = Ret [x20; x01; x00; x05]
  /\ int_to_bytes_big (2 ^ 32) 4 = Raise OverflowError
  /\ int_to_bytes_big (-1) 4 = Raise OverflowError.
Proof. repeat split. Qed.

Example sign_extend16_values :
  MIPS_CPU.sign_extend16 0x7FFF = 32767
  /\ MIPS_CPU.sign_extend16 0x8000 = -32768
  /\ MIPS_CPU.sign_extend16 0xFFFF = -1.
Proof. repeat split. Qed.

(** The scenario of the specification on an 8-byte memory: the word at
    the entry point is [addi $1, $0, 5]; after one step [regs[1]] is 5,
    the PC has advanced by 4 and the cycle counter is 1. *)
Example addi_scenario :
  let c := MIPS_CPU.mk (<[32%nat := 0x80000000]> (replicate 33 0))
                       [x20; x01; x00; x05; x00; x00; x00; x00] 0 in
  MIPS_CPU.step c
  = (Ret tt,
     MIPS_CPU.mk
       (<[32%nat := 0x80000004]> (<[1%nat := 5]> (replicate 33 0)))
       [x20; x01; x00; x05; x00; x00; x00; x00] 1).
Proof. vm_compute. reflexivity. Qed.

(** [lw $2, 8($4)] then [add $3, $2, $2] on a 12-byte memory whose last
    word is 0xFFFFFFFF, with [$4] holding the base of the segment. *)
Example lw_add_scenario :
  let mem := [x8c; x82; x00; x08; x00; x42; x18; x20;
              xff; xff; xff; xff] in
  let r := <[4%nat := 0x80000000]> (replicate 33 0) in
  let c := MIPS_CPU.mk (<[32%nat := 0x80000000]> r) mem 0 in
  exec MIPS_CPU.step (exec MIPS_CPU.step c)
  = MIPS_CPU.mk
      (<[32%nat := 0x80000008]>
         (<[3%nat := 0xFFFFFFFE]> (<[2%nat := 0xFFFFFFFF]> r)))
      mem 2.
Proof. vm_compute. reflexivity. Qed.

(* ===================================================================== *)
(** * More on the memory: ranges, byte order, independent words *)
(* ===================================================================== *)

Lemma byte_val_range (b : byte) : 0 <= byte_val b < 256.
Proof.
  unfold byte_val. pose proof (Byte.to_N_bounded b) as H. lia.
Qed.

Lemma int_from_bytes_big_snoc (bs : list byte) (b : byte) :
  int_from_bytes_big (bs ++ [b]) = int_from_bytes_big bs * 256 + byte_val b.
Proof. unfold int_from_bytes_big. now rewrite foldl_snoc. Qed.

(** [int.from_bytes] of [n] bytes is below [256^n]. *)
Lemma int_from_bytes_big_bound (bs : list byte) :
  0 <= int_from_bytes_big bs < 256 ^ len bs.
Proof.
  induction bs as [| b bs IH] using rev_ind;
    [unfold int_from_bytes_big, len; simpl; lia |].
  rewrite int_from_bytes_big_snoc. unfold len in *.
  rewrite length_app. cbn [length].
  replace (Z.of_nat (length bs + 1)) with (Z.of_nat (length bs) + 1) by lia.
  rewrite Z.pow_add_r by lia.
  pose proof (byte_val_range b). nia.
Qed.

Lemma length_slice {A : Type} (l : list A) (lo hi : Z) :
  0 <= lo <= hi -> hi <= len l ->
  length (slice l lo hi) = Z.to_nat (hi - lo).
Proof.
  intros Hlo Hhi. unfold slice.
  rewrite (clamp_inside l lo), (clamp_inside l hi) by lia.
  rewrite length_take, length_drop. unfold len in *. lia.
Qed.

Lemma lookup_slice {A : Type} (l : list A) (lo hi : Z) (i : nat) :
  0 <= lo <= hi -> hi <= len l -> (i < Z.to_nat (hi - lo))%nat ->
  slice l lo hi !! i = l !! (Z.to_nat lo + i)%nat.
Proof.
  intros Hlo Hhi Hi. unfold slice.
  rewrite (clamp_inside l lo), (clamp_inside l hi) by lia.
  rewrite lookup_take_lt by lia. apply lookup_drop.
Qed.

(** A slice assignment of as many items as the slice holds leaves the
    items outside the slice where they were. *)
Lemma lookup_slice_assign_outside {A : Type} (l src : list A) (lo hi : Z)
    (i : nat) :
  0 <= lo <= hi -> hi <= len l -> len src = hi - lo ->
  (i < Z.to_nat lo \/ Z.to_nat hi <= i)%nat ->
  slice_assign l lo hi src !! i = l !! i.
Proof.
  intros Hlo Hhi Hsrc Hi. unfold slice_assign.
  rewrite (clamp_inside l lo), (clamp_inside l hi) by lia.
  unfold len in *. destruct Hi as [Hi | Hi].
  - rewrite lookup_app_l by (rewrite length_take; lia).
    apply lookup_take_lt. exact Hi.
  - rewrite lookup_app_r by (rewrite length_take; lia).
    rewrite lookup_app_r by (rewrite length_take; lia).
    rewrite lookup_drop, length_take. f_equal. lia.
Qed.

(** ... and puts the source inside it. *)
Lemma lookup_slice_assign_inside {A : Type} (l src : list A) (lo hi : Z)
    (i : nat) :
  0 <= lo <= hi -> hi <= len l -> len src = hi - lo ->
  (i < Z.to_nat (hi - lo))%nat ->
  slice_assign l lo hi src !! (Z.to_nat lo + i)%nat = src !! i.
Proof.
  intros Hlo Hhi Hsrc Hi. unfold slice_assign.
  rewrite (clamp_inside l lo), (clamp_inside l hi) by lia.
  unfold len in *.
  rewrite lookup_app_r by (rewrite length_take; lia).
  rewrite lookup_app_l by (rewrite length_take; lia).
  f_equal. rewrite length_take. lia.
Qed.

Lemma slice_slice_assign_disjoint {A : Type} (l src : list A)
    (lo hi p q : Z) :
  0 <= lo <= hi -> hi <= len l -> len src = hi - lo ->
  0 <= p <= q -> q <= len l -> q <= lo \/ hi <= p ->
  slice (slice_assign l lo hi src) p q = slice l p q.
Proof.
  intros Hlo Hhi Hsrc Hp Hq Hdis.
  pose proof (len_slice_assign_same l src lo hi Hlo Hhi Hsrc) as Hlen.
  apply list_eq. intros i.
  destruct (decide (i < Z.to_nat (q - p))%nat) as [Hi | Hi].
  - rewrite !lookup_slice by lia.
    apply lookup_slice_assign_outside; lia.
  - rewrite !lookup_ge_None_2; [reflexivity | |];
      rewrite length_slice by lia; lia.
Qed.

(** The word four given bytes make, most significant first. *)
Lemma int_from_bytes_big_4 (b0 b1 b2 b3 : byte) :
  int_from_bytes_big [b0; b1; b2; b3]
  = byte_val b0 * 2 ^ 24 + byte_val b1 * 2 ^ 16 + byte_val b2 * 2 ^ 8
    + byte_val b3.
Proof. unfold int_from_bytes_big. cbn [foldl]. lia. Qed.

Lemma slice_4_lookup {A : Type} (l : list A) (a : Z) (x0 x1 x2 x3 : A) :
  0 <= a ->
  l !! Z.to_nat a = Some x0 -> l !! Z.to_nat (a + 1) = Some x1 ->
  l !! Z.to_nat (a + 2) = Some x2 -> l !! Z.to_nat (a + 3) = Some x3 ->
  slice l a (a + 4) = [x0; x1; x2; x3].
Proof.
  intros Ha H0 H1 H2 H3.
  pose proof (lookup_lt_Some _ _ _ H3) as Hlt.
  assert (Hlen : a + 4 <= len l) by (unfold len; lia).
  apply list_eq. intros i.
  destruct (decide (i < 4)%nat) as [Hi | Hi].
  - rewrite lookup_slice by lia.
    destruct i as [| [| [| [| i]]]]; [| | | | lia]; cbn [lookup list_lookup].
    + now rewrite Nat.add_0_r.
    + now replace (Z.to_nat a + 1)%nat with (Z.to_nat (a + 1)) by lia.
    + now replace (Z.to_nat a + 2)%nat with (Z.to_nat (a + 2)) by lia.
    + now replace (Z.to_nat a + 3)%nat with (Z.to_nat (a + 3)) by lia.
  - rewrite !lookup_ge_None_2; [reflexivity | cbn; lia |].
    rewrite length_slice by lia. lia.
Qed.

(** The state an in-range [write_word] leaves. *)
Lemma write_word_read_back (self : MIPS_CPU.t) (vaddr v : Z) :
  0 <= v < 2 ^ 32 ->
  0 <= vaddr - 0x80000000 <= len (MIPS_CPU.memory self) - 4 ->
  exists self',
    MIPS_CPU.write_word vaddr v self = (Ret tt, self')
    /\ MIPS_CPU.read_word vaddr self' = (Ret v, self')
    /\ len (MIPS_CPU.memory self') = len (MIPS_CPU.memory self)
    /\ MIPS_CPU.regs self' = MIPS_CPU.regs self
    /\ MIPS_CPU.cycles self' = MIPS_CPU.cycles self.
Proof.
  intros Hv Ha.
  eexists. split; [apply write_word_inside; lia |].
  set (phys := vaddr - 0x80000000) in *.
  assert (Hbs : len (digits_big 4 v) = phys + 4 - phys).
  { unfold len. rewrite length_digits_big. lia. }
  assert (Hlen : len (slice_assign (MIPS_CPU.memory self) phys (phys + 4)
                        (digits_big 4 v)) = len (MIPS_CPU.memory self))
    by (apply len_slice_assign_same; lia).
  split; [| split; [exact Hlen | split; reflexivity]].
  rewrite read_word_inside; fold phys;
    cbn [MIPS_CPU.set_memory MIPS_CPU.memory]; [| lia].
  rewrite slice_slice_assign by lia.
  rewrite int_from_bytes_digits_big by lia.
  change (8 * Z.of_nat 4) with 32.
  now rewrite Z.mod_small by lia.
Qed.

(** A [write_word], dropped or not, leaves what [read_word] returns at a
    word that does not overlap the one written. *)
Lemma read_word_after_write_elsewhere
    (self self' : MIPS_CPU.t) (a b v w : Z) (r : res unit) :
  b + 4 <= a \/ a + 4 <= b ->
  MIPS_CPU.write_word a v self = (r, self') ->
  MIPS_CPU.read_word b self = (Ret w, self) ->
  MIPS_CPU.read_word b self' = (Ret w, self').
Proof.
  intros Hdis Hw Hr.
  pose proof (write_word_len _ _ _ _ _ Hw) as (Hlen & _ & _).
  revert Hw Hr.
  unfold MIPS_CPU.write_word, MIPS_CPU.read_word, bind, get, ret, lift, put.
  rewrite Hlen.
  destruct (word_guard_spec (a - 0x80000000)
              (len (MIPS_CPU.memory self) - 3)) as [Ha | Ha];
    [| intros [= <- <-]; auto].
  unfold int_to_bytes_big.
  destruct (_ && _); [| intros [= <- <-]; auto].
  intros [= <- <-]. cbn [MIPS_CPU.set_memory MIPS_CPU.memory].
  destruct (word_guard_spec (b - 0x80000000)
              (len (MIPS_CPU.memory self) - 3)) as [Hb | Hb];
    [| intros [= <-]; reflexivity].
  intros [= <-]. do 2 f_equal.
  rewrite slice_slice_assign_disjoint; try lia.
  unfold len. cbn [length]. lia.
Qed.

(** What [read_word] returns fits in 32 bits. *)
Lemma read_word_range (self : MIPS_CPU.t) (addr w : Z) :
  MIPS_CPU.read_word addr self = (Ret w, self) -> u32 w.
Proof.
  unfold MIPS_CPU.read_word, bind, get, ret, u32.
  destruct (word_guard_spec (addr - 0x80000000)
              (len (MIPS_CPU.memory self) - 3)) as [Hin | Hout];
    intros [= <-]; [| lia].
  pose proof (int_from_bytes_big_bound
                (slice (MIPS_CPU.memory self) (addr - 0x80000000)
                       (addr - 0x80000000 + 4))) as Hb.
  unfold len in Hb at 1. rewrite length_slice in Hb by lia.
  replace (Z.of_nat (Z.to_nat (addr - 0x80000000 + 4 - (addr - 0x80000000))))
    with 4 in Hb by lia.
  change (256 ^ 4) with (2 ^ 32) in Hb. exact Hb.
Qed.

(** X1. [read_word] returns an unsigned 32-bit value at every address,
    in range or not, whatever bytes the memory holds, and leaves the
    machine as it is. *)
Theorem read_word_is_u32 (self : MIPS_CPU.t) (addr : Z) :
  exists w, MIPS_CPU.read_word addr self = (Ret w, self) /\ u32 w.
Proof.
  destruct (read_word_total self addr) as [w Hw].
  exists w. split; [exact Hw | exact (read_word_range _ _ _ Hw)].
Qed.

(** X2. [write_word] at an address that passes the bounds check with a
    value that is negative or does not fit in 32 bits raises
    [OverflowError], and the machine is as before. *)
Theorem write_word_overflow (self : MIPS_CPU.t) (vaddr v : Z) :
  0 <= vaddr - MIPS_CPU.KSEG_BASE <= len (MIPS_CPU.memory self) - 4 ->
  ~ u32 v ->
  MIPS_CPU.write_word vaddr v self = (Raise OverflowError, self).
Proof.
  unfold MIPS_CPU.KSEG_BASE, u32. intros Ha Hv.
  unfold MIPS_CPU.write_word, bind, get, ret, lift, put.
  destruct (word_guard_spec (vaddr - 0x80000000)
              (len (MIPS_CPU.memory self) - 3)) as [_ | Hout]; [| lia].
  unfold int_to_bytes_big. change (2 ^ (8 * Z.of_nat 4)) with (2 ^ 32).
  destruct (word_guard_spec v (2 ^ 32)) as [Hin | _]; [tauto | reflexivity].
Qed.

Lemma write_word_overflow_witness :
  MIPS_CPU.write_word 0x80000004 (2 ^ 32) toy = (Raise OverflowError, toy)
  /\ MIPS_CPU.write_word 0x80000004 (-1) toy = (Raise OverflowError, toy).
Proof.
  split; apply write_word_overflow; vm_compute; intuition discriminate.
Defined.

(** X3. A [write_word] at [a], stored or dropped or raising, leaves what
    [read_word] returns at every address [b] whose word does not overlap
    the word at [a]. *)
Theorem write_word_leaves_other_words (self : MIPS_CPU.t) (a b v : Z) :
  b + 4 <= a \/ a + 4 <= b ->
  exists w,
    MIPS_CPU.read_word b self = (Ret w, self)
    /\ MIPS_CPU.read_word b (exec (MIPS_CPU.write_word a v) self)
       = (Ret w, exec (MIPS_CPU.write_word a v) self).
Proof.
  intros Hdis. destruct (read_word_total self b) as [w Hw].
  exists w. split; [exact Hw |].
  unfold exec.
  destruct (MIPS_CPU.write_word a v self) as [r self'] eqn:E.
  exact (read_word_after_write_elsewhere _ _ _ _ _ _ _ Hdis E Hw).
Qed.

Lemma write_word_leaves_other_words_witness :
  exists w,
    MIPS_CPU.read_word 0x80000008 toy = (Ret w, toy)
    /\ MIPS_CPU.read_word 0x80000008
         (exec (MIPS_CPU.write_word 0x80000004 7) toy)
       = (Ret w, exec (MIPS_CPU.write_word 0x80000004 7) toy).
Proof.
  apply write_word_leaves_other_words. lia.
Defined.

(** X4. [read_word] is big-endian: at an address that maps to offset
    [phys >= 0] with the four bytes [b0 b1 b2 b3] at [phys .. phys + 3],
    it returns [b0 * 2^24 + b1 * 2^16 + b2 * 2^8 + b3]. *)
Theorem read_word_big_endian
    (self : MIPS_CPU.t) (vaddr : Z) (b0 b1 b2 b3 : byte) :
  let phys := vaddr - MIPS_CPU.KSEG_BASE in
  0 <= phys ->
  MIPS_CPU.memory self !! Z.to_nat phys = Some b0 ->
  MIPS_CPU.memory self !! Z.to_nat (phys + 1) = Some b1 ->
  MIPS_CPU.memory self !! Z.to_nat (phys + 2) = Some b2 ->
  MIPS_CPU.memory self !! Z.to_nat (phys + 3) = Some b3 ->
  MIPS_CPU.read_word vaddr self
  = (Ret (byte_val b0 * 2 ^ 24 + byte_val b1 * 2 ^ 16 + byte_val b2 * 2 ^ 8
          + byte_val b3), self).
Proof.
  unfold MIPS_CPU.KSEG_BASE. cbv zeta. intros Hphys H0 H1 H2 H3.
  pose proof (lookup_lt_Some _ _ _ H3) as Hlt.
  rewrite read_word_inside by (unfold len; lia).
  rewrite (slice_4_lookup _ _ b0 b1 b2 b3 Hphys H0 H1 H2 H3).
  now rewrite int_from_bytes_big_4.
Qed.

Lemma read_word_big_endian_witness :
  MIPS_CPU.read_word 0x80000004 toy
  = (Ret (byte_val x00 * 2 ^ 24 + byte_val x42 * 2 ^ 16 + byte_val x18 * 2 ^ 8
          + byte_val x20), toy).
Proof.
  apply (read_word_big_endian toy 0x80000004 x00 x42 x18 x20);
    [vm_compute; discriminate | reflexivity ..].
Defined.

Lemma digits_big_4 (v : Z) :
  digits_big 4 v
  = [byte_of_Z ((v / 2 ^ 24) mod 256); byte_of_Z ((v / 2 ^ 16) mod 256);
     byte_of_Z ((v / 2 ^ 8) mod 256); byte_of_Z (v mod 256)].
Proof.
  cbn [digits_big app].
  rewrite !Z.div_div by lia. reflexivity.
Qed.

(** X5. [write_word] is big-endian and touches four bytes only: an
    in-range write of a 32-bit value [v] at offset [phys] leaves
    [v / 2^24], [v / 2^16 mod 256], [v / 2^8 mod 256] and [v mod 256] at
    [phys .. phys + 3]; every other byte, the length of the memory, the
    registers and the cycle counter are as before. *)
Theorem write_word_stores_big_endian (self : MIPS_CPU.t) (vaddr v : Z) :
  let phys := vaddr - MIPS_CPU.KSEG_BASE in
  u32 v ->
  0 <= phys <= len (MIPS_CPU.memory self) - 4 ->
  exists self',
    MIPS_CPU.write_word vaddr v self = (Ret tt, self')
    /\ byte_val <$> MIPS_CPU.memory self' !! Z.to_nat phys
       = Some ((v / 2 ^ 24) mod 256)
    /\ byte_val <$> MIPS_CPU.memory self' !! Z.to_nat (phys + 1)
       = Some ((v / 2 ^ 16) mod 256)
    /\ byte_val <$> MIPS_CPU.memory self' !! Z.to_nat (phys + 2)
       = Some ((v / 2 ^ 8) mod 256)
    /\ byte_val <$> MIPS_CPU.memory self' !! Z.to_nat (phys + 3)
       = Some (v mod 256)
    /\ (forall i : nat,
          (i < Z.to_nat phys \/ Z.to_nat phys + 4 <= i)%nat ->
          MIPS_CPU.memory self' !! i = MIPS_CPU.memory self !! i)
    /\ length (MIPS_CPU.memory self') = length (MIPS_CPU.memory self)
    /\ MIPS_CPU.regs self' = MIPS_CPU.regs self
    /\ MIPS_CPU.cycles self' = MIPS_CPU.cycles self.
Proof.
  unfold MIPS_CPU.KSEG_BASE, u32. cbv zeta. intros Hv Ha.
  set (phys := vaddr - 0x80000000) in *.
  eexists. split; [apply write_word_inside; fold phys; lia |].
  fold phys. cbn [MIPS_CPU.set_memory MIPS_CPU.memory MIPS_CPU.regs
                  MIPS_CPU.cycles].
  rewrite digits_big_4.
  set (src := [byte_of_Z ((v / 2 ^ 24) mod 256);
               byte_of_Z ((v / 2 ^ 16) mod 256);
               byte_of_Z ((v / 2 ^ 8) mod 256); byte_of_Z (v mod 256)]).
  assert (Hsrc : len src = phys + 4 - phys)
    by (unfold len, src; cbn [length]; lia).
  assert (Hin : forall i : nat, (i < 4)%nat ->
            slice_assign (MIPS_CPU.memory self) phys (phys + 4) src
              !! Z.to_nat (phys + Z.of_nat i)
            = src !! i).
  { intros i Hi.
    replace (Z.to_nat (phys + Z.of_nat i)) with (Z.to_nat phys + i)%nat by lia.
    apply lookup_slice_assign_inside; lia. }
  assert (Hbyte : forall x, byte_val (byte_of_Z (x mod 256)) = x mod 256)
    by (intros x; apply byte_val_of_Z, Z.mod_pos_bound; lia).
  pose proof (Hin 0%nat ltac:(lia)) as H0.
  pose proof (Hin 1%nat ltac:(lia)) as H1.
  pose proof (Hin 2%nat ltac:(lia)) as H2.
  pose proof (Hin 3%nat ltac:(lia)) as H3.
  change (Z.of_nat 0) with 0 in H0. rewrite Z.add_0_r in H0.
  change (Z.of_nat 1) with 1 in H1. change (Z.of_nat 2) with 2 in H2.
  change (Z.of_nat 3) with 3 in H3.
  rewrite H0, H1, H2, H3.
  repeat split;
    try (unfold src;
         cbn [lookup list_lookup fmap option_fmap option_map];
         now rewrite Hbyte).
  - intros i Hi. apply lookup_slice_assign_outside; lia.
  - pose proof (len_slice_assign_same (MIPS_CPU.memory self) src phys
                  (phys + 4) ltac:(lia) ltac:(lia) Hsrc) as Hl.
    unfold len in Hl. lia.
Qed.

Lemma write_word_stores_big_endian_witness :
  exists self',
    MIPS_CPU.write_word 0x80000004 0x01020304 toy = (Ret tt, self')
    /\ byte_val <$> MIPS_CPU.memory self' !! 4%nat = Some 1
    /\ byte_val <$> MIPS_CPU.memory self' !! 5%nat = Some 2
    /\ byte_val <$> MIPS_CPU.memory self' !! 6%nat = Some 3
    /\ byte_val <$> MIPS_CPU.memory self' !! 7%nat = Some 4
    /\ (forall i : nat,
          (i < 4 \/ 4 + 4 <= i)%nat ->
          MIPS_CPU.memory self' !! i = MIPS_CPU.memory toy !! i)
    /\ length (MIPS_CPU.memory self') = length (MIPS_CPU.memory toy)
    /\ MIPS_CPU.regs self' = MIPS_CPU.regs toy
    /\ MIPS_CPU.cycles self' = MIPS_CPU.cycles toy.
Proof.
  apply (write_word_stores_big_endian toy 0x80000004 0x01020304);
    vm_compute; intuition discriminate.
Defined.

(* ===================================================================== *)
(** * More on the processor step *)
(* ===================================================================== *)

Lemma u32_mod (x : Z) : u32 (x mod 2 ^ 32).
Proof. unfold u32. apply Z.mod_pos_bound. lia. Qed.

(** What one step does to the register file: nothing, or one
    general-purpose register set to a 32-bit value; then the tail. *)
Lemma cpu_step_changes (self : MIPS_CPU.t) (pc : Z) :
  length (MIPS_CPU.regs self) = 33%nat ->
  PC self = Some pc ->
  exists r : list Z,
    MIPS_CPU.step self = (Ret tt, advance pc (MIPS_CPU.set_regs r self))
    /\ (r = MIPS_CPU.regs self
        \/ exists (t : nat) (v : Z),
             (t < 32)%nat /\ u32 v /\ r = <[t := v]> (MIPS_CPU.regs self)).
Proof.
  intros Hlen Hpc.
  destruct (read_word_total self pc) as [instr Hfetch].
  destruct (gpr_defined self Hlen (Instr.rs instr)
              (field5_range _)) as [a Ha].
  destruct (gpr_defined self Hlen (Instr.rt instr)
              (field5_range _)) as [b Hb].
  field_bounds instr.
  destruct (Z.eq_dec (Instr.opcode instr) 0x08) as [E8 | N8].
  { eexists. split;
      [exact (step_addi self pc instr Hlen Hpc Hfetch a E8 Ha) |].
    right. eexists _, _. split; [| split; [apply u32_mod | reflexivity]]. lia. }
  destruct (Z.eq_dec (Instr.opcode instr) 0x23) as [E23 | N23].
  { destruct (read_word_total self
                ((a + MIPS_CPU.sign_extend16 (Instr.imm instr)) mod 2 ^ 32))
      as [w Hw].
    eexists. split;
      [exact (step_lw self pc instr Hlen Hpc Hfetch a w E23 Ha Hw) |].
    right. eexists _, _.
    split; [| split; [exact (read_word_range _ _ _ Hw) | reflexivity]]. lia. }
  assert (Hself : MIPS_CPU.set_regs (MIPS_CPU.regs self) self = self)
    by now destruct self.
  assert (Hnop : ~ (Instr.opcode instr = 0 /\ Instr.funct instr = 0x20) ->
            exists r : list Z,
              MIPS_CPU.step self
              = (Ret tt, advance pc (MIPS_CPU.set_regs r self))
              /\ (r = MIPS_CPU.regs self
                  \/ exists (t : nat) (v : Z),
                       (t < 32)%nat /\ u32 v
                       /\ r = <[t := v]> (MIPS_CPU.regs self))).
  { intros Hn. exists (MIPS_CPU.regs self). split; [| now left].
    rewrite Hself. now apply step_nop with (instr := instr). }
  destruct (Z.eq_dec (Instr.opcode instr) 0x00) as [E0 | N0]; [| apply Hnop; tauto].
  destruct (Z.eq_dec (Instr.funct instr) 0x20) as [Ef | Nf]; [| apply Hnop; tauto].
  eexists. split;
    [exact (step_add self pc instr Hlen Hpc Hfetch a b E0 Ef Ha Hb) |].
  right. eexists _, _. split; [| split; [apply u32_mod | reflexivity]]. lia.
Qed.

Lemma wf_regs_PC (c : MIPS_CPU.t) :
  wf_regs (MIPS_CPU.regs c) -> exists pc, PC c = Some pc /\ u32 pc.
Proof.
  intros [Hlen Hall].
  destruct (lookup_lt_is_Some_2 (MIPS_CPU.regs c) 32 ltac:(lia)) as [pc Hpc].
  exists pc. split; [exact Hpc |].
  rewrite Forall_lookup in Hall. exact (Hall _ _ Hpc).
Qed.

(** The step on a register file of 33 unsigned 32-bit slots. *)
Lemma cpu_step_wf (self : MIPS_CPU.t) (pc : Z) :
  wf_regs (MIPS_CPU.regs self) ->
  PC self = Some pc ->
  exists self',
    MIPS_CPU.step self = (Ret tt, self')
    /\ wf_regs (MIPS_CPU.regs self')
    /\ PC self' = Some ((pc + 4) mod 2 ^ 32)
    /\ MIPS_CPU.cycles self' = MIPS_CPU.cycles self + 1
    /\ MIPS_CPU.memory self' = MIPS_CPU.memory self.
Proof.
  intros [Hlen Hall] Hpc.
  destruct (cpu_step_changes self pc Hlen Hpc) as (r & Hstep & Hr).
  assert (Hwf : wf_regs r).
  { destruct Hr as [-> | (t & v & Ht & Hv & ->)]; [now split |].
    split; [now rewrite length_insert |].
    apply Forall_insert; assumption. }
  destruct Hwf as [Hlen' Hall'].
  eexists. split; [exact Hstep |].
  split; [| split; [now apply PC_advance | split; reflexivity]].
  unfold advance. cbn [MIPS_CPU.regs MIPS_CPU.set_regs]. split.
  - now rewrite length_insert.
  - apply Forall_insert; [exact Hall' | apply u32_mod].
Qed.

(** X6. The registers stay 33 unsigned 32-bit slots: from such a register
    file [step] returns, and the register file it leaves is of the same
    kind, whatever the memory holds. *)
Theorem step_keeps_registers_well_formed (self : MIPS_CPU.t) :
  wf_regs (MIPS_CPU.regs self) ->
  exists self',
    MIPS_CPU.step self = (Ret tt, self')
    /\ wf_regs (MIPS_CPU.regs self').
Proof.
  intros Hwf. destruct (wf_regs_PC self Hwf) as (pc & Hpc & _).
  destruct (cpu_step_wf self pc Hwf Hpc) as (self' & Hstep & Hwf' & _).
  eauto.
Qed.

Lemma wf_regs_toy : wf_regs (MIPS_CPU.regs toy).
Proof. apply (bool_decide_unpack _). vm_compute. exact I. Qed.

Lemma step_keeps_registers_well_formed_witness :
  exists self',
    MIPS_CPU.step toy = (Ret tt, self') /\ wf_regs (MIPS_CPU.regs self').
Proof.
  apply step_keeps_registers_well_formed. exact wf_regs_toy.
Defined.

(** X7. A step writes at most one general-purpose register, and never
    the memory: from a register file of 33 slots, all of [regs[0..31]]
    but at most one are as before, and the memory is the same list of
    bytes. *)
Theorem step_writes_at_most_one_register (self : MIPS_CPU.t) :
  length (MIPS_CPU.regs self) = 33%nat ->
  exists (self' : MIPS_CPU.t) (t : nat),
    MIPS_CPU.step self = (Ret tt, self')
    /\ (forall i : nat,
          (i < 32)%nat -> i <> t ->
          MIPS_CPU.regs self' !! i = MIPS_CPU.regs self !! i)
    /\ MIPS_CPU.memory self' = MIPS_CPU.memory self.
Proof.
  intros Hlen.
  destruct (lookup_lt_is_Some_2 (MIPS_CPU.regs self) 32 ltac:(lia))
    as [pc Hpc].
  destruct (cpu_step_changes self pc Hlen Hpc) as (r & Hstep & Hr).
  destruct Hr as [-> | (t & v & Ht & Hv & ->)].
  - eexists _, 0%nat. split; [exact Hstep |]. split; [| reflexivity].
    intros i Hi _. now rewrite gpr_advance.
  - eexists _, t. split; [exact Hstep |]. split; [| reflexivity].
    intros i Hi Hne. rewrite gpr_advance by exact Hi.
    cbn [MIPS_CPU.set_regs MIPS_CPU.regs].
    now apply list_lookup_insert_ne.
Qed.

Lemma step_writes_at_most_one_register_witness :
  exists (self' : MIPS_CPU.t) (t : nat),
    MIPS_CPU.step toy = (Ret tt, self')
    /\ (forall i : nat,
          (i < 32)%nat -> i <> t ->
          MIPS_CPU.regs self' !! i = MIPS_CPU.regs toy !! i)
    /\ MIPS_CPU.memory self' = MIPS_CPU.memory toy.
Proof.
  apply step_writes_at_most_one_register. reflexivity.
Defined.

(** X8. Load-word (opcode 0x23) leaves in [regs[rt]] what [read_word]
    returns at [(regs[rs] + signed immediate) mod 2^32] (so 0 when that
    address is out of range, without any fault); the other
    general-purpose registers and the memory are as before. *)
Theorem lw_loads_word (self : MIPS_CPU.t) (pc instr a : Z) :
  length (MIPS_CPU.regs self) = 33%nat ->
  PC self = Some pc ->
  MIPS_CPU.read_word pc self = (Ret instr, self) ->
  Instr.opcode instr = 0x23 ->
  MIPS_CPU.regs self !! Z.to_nat (Instr.rs instr) = Some a ->
  exists (w : Z) (self' : MIPS_CPU.t),
    MIPS_CPU.read_word ((a + signed16 (Instr.imm instr)) mod 2 ^ 32) self
    = (Ret w, self)
    /\ MIPS_CPU.step self = (Ret tt, self')
    /\ MIPS_CPU.regs self' !! Z.to_nat (Instr.rt instr) = Some w
    /\ (forall i : nat,
          (i < 32)%nat -> i <> Z.to_nat (Instr.rt instr) ->
          MIPS_CPU.regs self' !! i = MIPS_CPU.regs self !! i)
    /\ MIPS_CPU.memory self' = MIPS_CPU.memory self.
Proof.
  intros Hlen Hpc Hfetch Hop Ha.
  rewrite <- sign_extend16_signed16 by apply imm_range.
  destruct (read_word_total self
              ((a + MIPS_CPU.sign_extend16 (Instr.imm instr)) mod 2 ^ 32))
    as [w Hw].
  field_bounds instr.
  eexists w, _. split; [exact Hw |].
  split; [exact (step_lw self pc instr Hlen Hpc Hfetch a w Hop Ha Hw) |].
  split; [| split; [| reflexivity]].
  - rewrite gpr_advance by lia. cbn [MIPS_CPU.set_regs MIPS_CPU.regs].
    apply list_lookup_insert_eq. lia.
  - intros i Hi Hne. rewrite gpr_advance by exact Hi.
    cbn [MIPS_CPU.set_regs MIPS_CPU.regs].
    now apply list_lookup_insert_ne.
Qed.

(** [toy] starts at [lw $2, 8($4)], and the word at offset 8 is
    0xFFFFFFFF. *)
Lemma lw_loads_word_witness :
  exists (w : Z) (self' : MIPS_CPU.t),
    MIPS_CPU.read_word
      ((0x80000000 + signed16 (Instr.imm 0x8c820008)) mod 2 ^ 32) toy
    = (Ret w, toy)
    /\ MIPS_CPU.step toy = (Ret tt, self')
    /\ MIPS_CPU.regs self' !! Z.to_nat (Instr.rt 0x8c820008) = Some w
    /\ (forall i : nat,
          (i < 32)%nat -> i <> Z.to_nat (Instr.rt 0x8c820008) ->
          MIPS_CPU.regs self' !! i = MIPS_CPU.regs toy !! i)
    /\ MIPS_CPU.memory self' = MIPS_CPU.memory toy.
Proof.
  apply (lw_loads_word toy 0x80000000 0x8c820008 0x80000000); reflexivity.
Defined.

(** X9. Add (opcode 0x00, function field 0x20) leaves in [regs[rd]] the
    sum of [regs[rs]] and [regs[rt]] modulo 2^32, without any overflow
    fault; the other general-purpose registers and the memory are as
    before. *)
Theorem add_wraps (self : MIPS_CPU.t) (pc instr a b : Z) :
  length (MIPS_CPU.regs self) = 33%nat ->
  PC self = Some pc ->
  MIPS_CPU.read_word pc self = (Ret instr, self) ->
  Instr.opcode instr = 0x00 ->
  Instr.funct instr = 0x20 ->
  MIPS_CPU.regs self !! Z.to_nat (Instr.rs instr) = Some a ->
  MIPS_CPU.regs self !! Z.to_nat (Instr.rt instr) = Some b ->
  exists self' : MIPS_CPU.t,
    MIPS_CPU.step self = (Ret tt, self')
    /\ MIPS_CPU.regs self' !! Z.to_nat (Instr.rd instr)
       = Some ((a + b) mod 2 ^ 32)
    /\ (forall i : nat,
          (i < 32)%nat -> i <> Z.to_nat (Instr.rd instr) ->
          MIPS_CPU.regs self' !! i = MIPS_CPU.regs self !! i)
    /\ MIPS_CPU.memory self' = MIPS_CPU.memory self.
Proof.
  intros Hlen Hpc Hfetch Hop Hfn Ha Hb.
  field_bounds instr.
  eexists.
  split; [exact (step_add self pc instr Hlen Hpc Hfetch a b Hop Hfn Ha Hb) |].
  split; [| split; [| reflexivity]].
  - rewrite gpr_advance by lia. cbn [MIPS_CPU.set_regs MIPS_CPU.regs].
    apply list_lookup_insert_eq. lia.
  - intros i Hi Hne. rewrite gpr_advance by exact Hi.
    cbn [MIPS_CPU.set_regs MIPS_CPU.regs].
    now apply list_lookup_insert_ne.
Qed.

(** After its first step [toy] is at [add $3, $2, $2] with
    [$2 = 0xFFFFFFFF]: the sum wraps to 0xFFFFFFFE. *)
Lemma add_wraps_witness :
  exists self' : MIPS_CPU.t,
    MIPS_CPU.step (exec MIPS_CPU.step toy) = (Ret tt, self')
    /\ MIPS_CPU.regs self' !! Z.to_nat (Instr.rd 0x00421820)
       = Some ((0xFFFFFFFF + 0xFFFFFFFF) mod 2 ^ 32)
    /\ (forall i : nat,
          (i < 32)%nat -> i <> Z.to_nat (Instr.rd 0x00421820) ->
          MIPS_CPU.regs self' !! i
          = MIPS_CPU.regs (exec MIPS_CPU.step toy) !! i)
    /\ MIPS_CPU.memory self' = MIPS_CPU.memory (exec MIPS_CPU.step toy).
Proof.
  apply (add_wraps (exec MIPS_CPU.step toy) 0x80000004 0x00421820
                   0xFFFFFFFF 0xFFFFFFFF); reflexivity.
Defined.

(** X10. Steps compose: from a register file of 33 unsigned 32-bit
    slots, [n] steps in a row all return, the PC ends at the old PC plus
    [4 * n] modulo 2^32, the cycle counter at the old one plus [n], and
    the memory is untouched. *)
Theorem steps_advance (n : nat) (self : MIPS_CPU.t) (pc : Z) :
  wf_regs (MIPS_CPU.regs self) ->
  PC self = Some pc ->
  exists self',
    steps n self = (Ret tt, self')
    /\ wf_regs (MIPS_CPU.regs self')
    /\ PC self' = Some ((pc + 4 * Z.of_nat n) mod 2 ^ 32)
    /\ MIPS_CPU.cycles self' = MIPS_CPU.cycles self + Z.of_nat n
    /\ MIPS_CPU.memory self' = MIPS_CPU.memory self.
Proof.
  revert self pc. induction n as [| n IH]; intros self pc Hwf Hpc.
  - exists self. split; [reflexivity |]. split; [exact Hwf |].
    destruct (wf_regs_PC self Hwf) as (pc' & Hpc' & Hu).
    assert (pc' = pc) by congruence. subst pc'.
    change (Z.of_nat 0) with 0. rewrite Z.mul_0_r, !Z.add_0_r.
    split; [| split; reflexivity].
    unfold u32 in Hu. now rewrite Z.mod_small.
  - destruct (cpu_step_wf self pc Hwf Hpc)
      as (s1 & Hstep & Hwf1 & Hpc1 & Hcyc1 & Hmem1).
    destruct (IH s1 _ Hwf1 Hpc1) as (s2 & Hrun & Hwf2 & Hpc2 & Hcyc2 & Hmem2).
    exists s2. cbn [steps].
    split; [rewrite (bind_ret_run _ _ _ _ _ Hstep); exact Hrun |].
    split; [exact Hwf2 |].
    split; [| split; [lia | congruence]].
    rewrite Hpc2. f_equal.
    rewrite Zplus_mod_idemp_l. f_equal. lia.
Qed.

Lemma steps_advance_witness :
  exists self',
    steps 2 toy = (Ret tt, self')
    /\ wf_regs (MIPS_CPU.regs self')
    /\ PC self' = Some ((0x80000000 + 4 * Z.of_nat 2) mod 2 ^ 32)
    /\ MIPS_CPU.cycles self' = MIPS_CPU.cycles toy + Z.of_nat 2
    /\ MIPS_CPU.memory self' = MIPS_CPU.memory toy.
Proof.
  apply steps_advance; [exact wf_regs_toy | reflexivity].
Defined.

(* ===================================================================== *)
(** * More on the session step *)
(* ===================================================================== *)

(** A [write_word] of a 32-bit value returns, stored or dropped. *)
Lemma write_word_returns (c : MIPS_CPU.t) (a v : Z) :
  u32 v ->
  MIPS_CPU.write_word a v c = (Ret tt, exec (MIPS_CPU.write_word a v) c).
Proof.
  intros Hv. unfold exec.
  destruct (Z_lt_dec (a - 0x80000000) 0) as [Hneg | Hpos].
  { rewrite write_word_outside by lia. reflexivity. }
  destruct (Z_le_dec (len (MIPS_CPU.memory c) - 3) (a - 0x80000000))
    as [Hout | Hin].
  { rewrite write_word_outside by lia. reflexivity. }
  rewrite write_word_inside by (unfold u32 in Hv; lia). reflexivity.
Qed.

Lemma choice_hat (rnd : nat) :
  exists h, choice rnd ["Red"; "Blue"; "Green"]%string = Ret h
            /\ hat_colours !! (rnd mod 3)%nat = Some h.
Proof.
  unfold choice. cbn [length].
  destruct (lookup_lt_is_Some_2 hat_colours (rnd mod 3)%nat) as [h Hh].
  { cbn [hat_colours length]. apply Nat.mod_upper_bound. lia. }
  exists h. unfold hat_colours in Hh. rewrite Hh. now split.
Qed.

(** A step of a running, unpaused session whose flags are present: the
    processor step, then the three mutators. *)
Lemma session_step_run (rnd : nat) (e : N64Emulator.t) (c1 : MIPS_CPU.t)
    (p r c : bool) :
  N64Emulator.running e = true ->
  N64Emulator.paused e = false ->
  N64Emulator.plugins e !! "Personalizer" = Some p ->
  N64Emulator.plugins e !! "Rediscovered" = Some r ->
  N64Emulator.cheats e !! "Infinite Health" = Some c ->
  MIPS_CPU.step (N64Emulator.cpu e) = (Ret tt, c1) ->
  N64Emulator.step rnd e
  = (Ret tt,
     health_pinned c
       (coin_spawned r (personalized rnd p (N64Emulator.set_cpu c1 e)))).
Proof.
  intros Hrun Hpause Hp Hr Hc Hstep.
  unfold N64Emulator.step.
  unfold bind at 1, get at 1. rewrite Hrun, Hpause. cbn [negb orb].
  unfold bind at 1, N64Emulator.on_cpu at 1, zoom at 1. rewrite Hstep.
  set (e1 := N64Emulator.set_cpu c1 e).
  unfold bind at 1, get at 1.
  unfold bind at 1, lift at 1, dict_get at 1.
  change (N64Emulator.plugins e1) with (N64Emulator.plugins e). rewrite Hp.
  assert (H2 : forall k : unit -> M N64Emulator.t unit,
            bind (if p && (MIPS_CPU.cycles (N64Emulator.cpu e1) mod 1000 =? 0)
                  then
                    bind (lift (choice rnd ["Red"; "Blue"; "Green"]%string))
                      (fun h => put (N64Emulator.set_mario_hat_color h e1))
                  else ret tt) k e1
            = k tt (personalized rnd p e1)).
  { intros k. unfold personalized.
    destruct (_ && _); [| reflexivity].
    destruct (choice_hat rnd) as (h & Hch & Hh).
    unfold bind, lift, put. rewrite Hch, Hh. reflexivity. }
  rewrite H2. clear H2. set (e2 := personalized rnd p e1).
  assert (Hflags2 : N64Emulator.plugins e2 = N64Emulator.plugins e
                    /\ N64Emulator.cheats e2 = N64Emulator.cheats e).
  { unfold e2, personalized. destruct (_ && _); [| now split].
    destruct (hat_colours !! _); now split. }
  destruct Hflags2 as [Hpl2 Hch2].
  unfold bind at 1, get at 1.
  unfold bind at 1, lift at 1, dict_get at 1. rewrite Hpl2, Hr.
  assert (H3 : forall k : unit -> M N64Emulator.t unit,
            bind (if r && (MIPS_CPU.cycles (N64Emulator.cpu e2) =? 5000)
                  then N64Emulator.on_cpu (MIPS_CPU.write_word 0x80300000 1)
                  else ret tt) k e2
            = k tt (coin_spawned r e2)).
  { intros k. unfold coin_spawned.
    destruct (_ && _); [| reflexivity].
    unfold bind, N64Emulator.on_cpu, zoom.
    rewrite write_word_returns by (unfold u32; lia). reflexivity. }
  rewrite H3. clear H3. set (e3 := coin_spawned r e2).
  assert (Hch3 : N64Emulator.cheats e3 = N64Emulator.cheats e).
  { unfold e3, coin_spawned. destruct (_ && _); exact Hch2. }
  unfold bind at 1, get at 1.
  unfold bind at 1, lift at 1, dict_get at 1. rewrite Hch3, Hc.
  unfold health_pinned. destruct c; [| reflexivity].
  unfold N64Emulator.on_cpu, zoom.
  rewrite write_word_returns by (unfold u32; lia). reflexivity.
Qed.

Lemma exec_write_word_keeps (c : MIPS_CPU.t) (a v : Z) :
  len (MIPS_CPU.memory (exec (MIPS_CPU.write_word a v) c))
  = len (MIPS_CPU.memory c)
  /\ MIPS_CPU.regs (exec (MIPS_CPU.write_word a v) c) = MIPS_CPU.regs c
  /\ MIPS_CPU.cycles (exec (MIPS_CPU.write_word a v) c) = MIPS_CPU.cycles c.
Proof.
  unfold exec. destruct (MIPS_CPU.write_word a v c) as [r c'] eqn:E.
  exact (write_word_len _ _ _ _ _ E).
Qed.

(** What the mutators leave alone: everything but the hat colour and the
    bytes of the memory. *)
Lemma mutators_keep (rnd : nat) (p r c : bool) (e : N64Emulator.t) :
  let e' := health_pinned c (coin_spawned r (personalized rnd p e)) in
  MIPS_CPU.regs (N64Emulator.cpu e') = MIPS_CPU.regs (N64Emulator.cpu e)
  /\ MIPS_CPU.cycles (N64Emulator.cpu e') = MIPS_CPU.cycles (N64Emulator.cpu e)
  /\ len (MIPS_CPU.memory (N64Emulator.cpu e'))
     = len (MIPS_CPU.memory (N64Emulator.cpu e))
  /\ N64Emulator.running e' = N64Emulator.running e
  /\ N64Emulator.paused e' = N64Emulator.paused e
  /\ N64Emulator.plugins e' = N64Emulator.plugins e
  /\ N64Emulator.cheats e' = N64Emulator.cheats e
  /\ N64Emulator.rom e' = N64Emulator.rom e.
Proof.
  cbv zeta.
  assert (H1 : forall x,
            MIPS_CPU.regs (N64Emulator.cpu (personalized rnd p x))
            = MIPS_CPU.regs (N64Emulator.cpu x)
            /\ MIPS_CPU.cycles (N64Emulator.cpu (personalized rnd p x))
               = MIPS_CPU.cycles (N64Emulator.cpu x)
            /\ len (MIPS_CPU.memory (N64Emulator.cpu (personalized rnd p x)))
               = len (MIPS_CPU.memory (N64Emulator.cpu x))
            /\ N64Emulator.running (personalized rnd p x)
               = N64Emulator.running x
            /\ N64Emulator.paused (personalized rnd p x) = N64Emulator.paused x
            /\ N64Emulator.plugins (personalized rnd p x)
               = N64Emulator.plugins x
            /\ N64Emulator.cheats (personalized rnd p x) = N64Emulator.cheats x
            /\ N64Emulator.rom (personalized rnd p x) = N64Emulator.rom x).
  { intros x. unfold personalized. destruct (_ && _); [| repeat split].
    destruct (hat_colours !! _); repeat split. }
  assert (H2 : forall x,
            MIPS_CPU.regs (N64Emulator.cpu (coin_spawned r x))
            = MIPS_CPU.regs (N64Emulator.cpu x)
            /\ MIPS_CPU.cycles (N64Emulator.cpu (coin_spawned r x))
               = MIPS_CPU.cycles (N64Emulator.cpu x)
            /\ len (MIPS_CPU.memory (N64Emulator.cpu (coin_spawned r x)))
               = len (MIPS_CPU.memory (N64Emulator.cpu x))
            /\ N64Emulator.running (coin_spawned r x) = N64Emulator.running x
            /\ N64Emulator.paused (coin_spawned r x) = N64Emulator.paused x
            /\ N64Emulator.plugins (coin_spawned r x) = N64Emulator.plugins x
            /\ N64Emulator.cheats (coin_spawned r x) = N64Emulator.cheats x
            /\ N64Emulator.rom (coin_spawned r x) = N64Emulator.rom x).
  { intros x. unfold coin_spawned. destruct (_ && _); [| repeat split].
    cbn [N64Emulator.set_cpu N64Emulator.cpu N64Emulator.running
         N64Emulator.paused N64Emulator.plugins N64Emulator.cheats
         N64Emulator.rom].
    pose proof (exec_write_word_keeps (N64Emulator.cpu x) 0x80300000 1)
      as (Hl & Hr & Hc).
    repeat split; assumption. }
  assert (H3 : forall x,
            MIPS_CPU.regs (N64Emulator.cpu (health_pinned c x))
            = MIPS_CPU.regs (N64Emulator.cpu x)
            /\ MIPS_CPU.cycles (N64Emulator.cpu (health_pinned c x))
               = MIPS_CPU.cycles (N64Emulator.cpu x)
            /\ len (MIPS_CPU.memory (N64Emulator.cpu (health_pinned c x)))
               = len (MIPS_CPU.memory (N64Emulator.cpu x))
            /\ N64Emulator.running (health_pinned c x) = N64Emulator.running x
            /\ N64Emulator.paused (health_pinned c x) = N64Emulator.paused x
            /\ N64Emulator.plugins (health_pinned c x) = N64Emulator.plugins x
            /\ N64Emulator.cheats (health_pinned c x) = N64Emulator.cheats x
            /\ N64Emulator.rom (health_pinned c x) = N64Emulator.rom x).
  { intros x. unfold health_pinned. destruct c; [| repeat split].
    cbn [N64Emulator.set_cpu N64Emulator.cpu N64Emulator.running
         N64Emulator.paused N64Emulator.plugins N64Emulator.cheats
         N64Emulator.rom].
    pose proof (exec_write_word_keeps (N64Emulator.cpu x) 0x8033B21E 8)
      as (Hl & Hr & Hc).
    repeat split; assumption. }
  destruct (H1 e) as (A1 & A2 & A3 & A4 & A5 & A6 & A7 & A8).
  destruct (H2 (personalized rnd p e)) as (B1 & B2 & B3 & B4 & B5 & B6 & B7 & B8).
  destruct (H3 (coin_spawned r (personalized rnd p e)))
    as (C1 & C2 & C3 & C4 & C5 & C6 & C7 & C8).
  repeat split; congruence.
Qed.

Lemma session_step_gated (rnd : nat) (e : N64Emulator.t) :
  N64Emulator.running e = false \/ N64Emulator.paused e = true ->
  N64Emulator.step rnd e = (Ret tt, e).
Proof.
  intros H. unfold N64Emulator.step, bind, get.
  destruct H as [-> | ->]; [reflexivity |].
  now rewrite orb_true_r.
Qed.

(** A step of a session whose flags are present and whose register file
    is well formed: it returns, and keeps both. *)
Lemma session_step_wf (rnd : nat) (e : N64Emulator.t) :
  has_flags e ->
  wf_regs (MIPS_CPU.regs (N64Emulator.cpu e)) ->
  exists e',
    N64Emulator.step rnd e = (Ret tt, e')
    /\ has_flags e'
    /\ wf_regs (MIPS_CPU.regs (N64Emulator.cpu e'))
    /\ N64Emulator.running e' = N64Emulator.running e
    /\ N64Emulator.paused e' = N64Emulator.paused e
    /\ N64Emulator.plugins e' = N64Emulator.plugins e
    /\ N64Emulator.cheats e' = N64Emulator.cheats e
    /\ N64Emulator.rom e' = N64Emulator.rom e
    /\ len (MIPS_CPU.memory (N64Emulator.cpu e'))
       = len (MIPS_CPU.memory (N64Emulator.cpu e))
    /\ MIPS_CPU.cycles (N64Emulator.cpu e')
       = MIPS_CPU.cycles (N64Emulator.cpu e)
         + (if N64Emulator.running e && negb (N64Emulator.paused e)
            then 1 else 0)
    /\ (N64Emulator.running e = true -> N64Emulator.paused e = false ->
        forall pc, PC (N64Emulator.cpu e) = Some pc ->
                   PC (N64Emulator.cpu e') = Some ((pc + 4) mod 2 ^ 32)).
Proof.
  intros Hflags Hwf.
  destruct (N64Emulator.running e) eqn:Hrun; cycle 1.
  { exists e. rewrite session_step_gated by (now left).
    cbn [andb]. rewrite Z.add_0_r.
    repeat split;
      solve [assumption | apply Hflags | apply Hwf | intros; discriminate]. }
  destruct (N64Emulator.paused e) eqn:Hpause.
  { exists e. rewrite session_step_gated by (now right).
    cbn [andb negb]. rewrite Z.add_0_r.
    repeat split;
      solve [assumption | apply Hflags | apply Hwf | intros; discriminate]. }
  destruct Hflags as ([p Hp] & [r Hr] & [c Hc]).
  destruct (wf_regs_PC _ Hwf) as (pc & Hpc & _).
  destruct (cpu_step_wf _ pc Hwf Hpc)
    as (c1 & Hstep & Hwf1 & Hpc1 & Hcyc1 & Hmem1).
  eexists. split; [exact (session_step_run rnd e c1 p r c Hrun Hpause Hp Hr Hc Hstep) |].
  pose proof (mutators_keep rnd p r c (N64Emulator.set_cpu c1 e))
    as (K1 & K2 & K3 & K4 & K5 & K6 & K7 & K8).
  cbv zeta in *.
  cbn [N64Emulator.set_cpu N64Emulator.cpu N64Emulator.running
       N64Emulator.paused N64Emulator.plugins N64Emulator.cheats
       N64Emulator.rom] in K1, K2, K3, K4, K5, K6, K7, K8.
  unfold has_flags, PC. rewrite K1, K2, K3, K4, K5, K6, K7, K8.
  cbn [andb negb].
  repeat split; eauto; try congruence; try apply Hwf1.
  intros _ _ pc' Hpc'. unfold PC in *. congruence.
Qed.

Lemma has_flags_reset_init : has_flags (exec N64Emulator.reset N64Emulator.init).
Proof. rewrite reset_init. repeat split; eexists; reflexivity. Qed.

Lemma wf_regs_init : wf_regs (MIPS_CPU.regs MIPS_CPU.init).
Proof. apply (bool_decide_unpack _). vm_compute. exact I. Qed.

(** X11. A session that is not running, or is paused, ignores steps: any
    number of them in a row returns and leaves the whole session as it
    is, cycle counter, hat colour and memory included. *)
Theorem gated_run_is_idle (rnds : list nat) (e : N64Emulator.t) :
  N64Emulator.running e = false \/ N64Emulator.paused e = true ->
  run rnds e = (Ret tt, e).
Proof.
  intros H. induction rnds as [| rnd rnds IH]; [reflexivity |].
  cbn [run]. rewrite (bind_ret_run _ _ _ _ _ (session_step_gated rnd e H)).
  exact IH.
Qed.

(** A fresh emulator is not running until it is reset. *)
Lemma gated_run_is_idle_witness :
  run [0; 1; 2]%nat N64Emulator.init = (Ret tt, N64Emulator.init).
Proof.
  apply gated_run_is_idle. left. reflexivity.
Defined.

(** X12. A session whose three flags are in the dicts and whose register
    file holds 33 unsigned 32-bit slots never raises: any number of steps
    in a row returns, and afterwards the flags, the ROM, the running and
    paused marks and the length of the memory are as before, the
    registers are again 33 unsigned 32-bit slots, and the cycle counter
    has grown by the number of steps when the session is running and not
    paused (by 0 otherwise). *)
Theorem run_is_safe (rnds : list nat) (e : N64Emulator.t) :
  has_flags e ->
  wf_regs (MIPS_CPU.regs (N64Emulator.cpu e)) ->
  exists e',
    run rnds e = (Ret tt, e')
    /\ has_flags e'
    /\ wf_regs (MIPS_CPU.regs (N64Emulator.cpu e'))
    /\ N64Emulator.running e' = N64Emulator.running e
    /\ N64Emulator.paused e' = N64Emulator.paused e
    /\ N64Emulator.plugins e' = N64Emulator.plugins e
    /\ N64Emulator.cheats e' = N64Emulator.cheats e
    /\ N64Emulator.rom e' = N64Emulator.rom e
    /\ len (MIPS_CPU.memory (N64Emulator.cpu e'))
       = len (MIPS_CPU.memory (N64Emulator.cpu e))
    /\ MIPS_CPU.cycles (N64Emulator.cpu e')
       = MIPS_CPU.cycles (N64Emulator.cpu e)
         + (if N64Emulator.running e && negb (N64Emulator.paused e)
            then Z.of_nat (length rnds) else 0).
Proof.
  revert e. induction rnds as [| rnd rnds IH]; intros e Hflags Hwf.
  - exists e. split; [reflexivity |].
    cbn [length]. change (Z.of_nat 0) with 0.
    destruct (_ && _); rewrite Z.add_0_r; repeat split;
      solve [assumption | apply Hflags | apply Hwf].
  - destruct (session_step_wf rnd e Hflags Hwf)
      as (e1 & Hstep & Hf1 & Hw1 & R1 & P1 & L1 & C1 & O1 & M1 & Y1 & _).
    destruct (IH e1 Hf1 Hw1)
      as (e2 & Hrun & Hf2 & Hw2 & R2 & P2 & L2 & C2 & O2 & M2 & Y2).
    exists e2. cbn [run].
    split; [rewrite (bind_ret_run _ _ _ _ _ Hstep); exact Hrun |].
    rewrite R1, P1 in Y2.
    repeat split; try congruence; try apply Hf2; try apply Hw2.
    rewrite Y2, Y1. cbn [length].
    destruct (_ && _); lia.
Qed.

Lemma run_is_safe_witness :
  exists e',
    run [0; 1; 2]%nat (exec N64Emulator.reset N64Emulator.init) = (Ret tt, e')
    /\ has_flags e'
    /\ wf_regs (MIPS_CPU.regs (N64Emulator.cpu e'))
    /\ N64Emulator.running e'
       = N64Emulator.running (exec N64Emulator.reset N64Emulator.init)
    /\ N64Emulator.paused e'
       = N64Emulator.paused (exec N64Emulator.reset N64Emulator.init)
    /\ N64Emulator.plugins e'
       = N64Emulator.plugins (exec N64Emulator.reset N64Emulator.init)
    /\ N64Emulator.cheats e'
       = N64Emulator.cheats (exec N64Emulator.reset N64Emulator.init)
    /\ N64Emulator.rom e'
       = N64Emulator.rom (exec N64Emulator.reset N64Emulator.init)
    /\ len (MIPS_CPU.memory (N64Emulator.cpu e'))
       = len (MIPS_CPU.memory
                (N64Emulator.cpu (exec N64Emulator.reset N64Emulator.init)))
    /\ MIPS_CPU.cycles (N64Emulator.cpu e')
       = MIPS_CPU.cycles
           (N64Emulator.cpu (exec N64Emulator.reset N64Emulator.init))
         + (if N64Emulator.running (exec N64Emulator.reset N64Emulator.init)
               && negb (N64Emulator.paused
                          (exec N64Emulator.reset N64Emulator.init))
            then Z.of_nat (length [0; 1; 2]%nat) else 0).
Proof.
  apply run_is_safe; [exact has_flags_reset_init |].
  rewrite reset_init. exact wf_regs_init.
Defined.

(** The running session of the witnesses below: a fresh emulator after
    [reset], at a given cycle count and with given flags. *)
Lemma witness_session_flags (pl ch : gmap string bool) (cyc : Z) :
  let e := N64Emulator.mk (MIPS_CPU.set_cycles cyc MIPS_CPU.init) None true
             false pl ch "Red" in
  N64Emulator.running e = true
  /\ N64Emulator.paused e = false
  /\ wf_regs (MIPS_CPU.regs (N64Emulator.cpu e))
  /\ len (MIPS_CPU.memory (N64Emulator.cpu e)) = 4194304
  /\ MIPS_CPU.cycles (N64Emulator.cpu e) = cyc.
Proof.
  cbv zeta. split; [reflexivity |]. split; [reflexivity |].
  split; [exact wf_regs_init |]. split; [exact len_memory_init | reflexivity].
Qed.

(** X13. The Infinite Health cheat pins its word: after every step of a
    running, unpaused session with the cheat on and a memory that holds
    offset 0x33B21E .. 0x33B221, [read_word(0x8033B21E)] returns 8,
    whatever the instruction executed and the other flags. *)
Theorem infinite_health_pins_the_word (rnd : nat) (e : N64Emulator.t) :
  N64Emulator.running e = true ->
  N64Emulator.paused e = false ->
  has_flags e ->
  N64Emulator.cheats e !! "Infinite Health" = Some true ->
  wf_regs (MIPS_CPU.regs (N64Emulator.cpu e)) ->
  0x33B222 <= len (MIPS_CPU.memory (N64Emulator.cpu e)) ->
  exists e',
    N64Emulator.step rnd e = (Ret tt, e')
    /\ MIPS_CPU.read_word 0x8033B21E (N64Emulator.cpu e')
       = (Ret 8, N64Emulator.cpu e').
Proof.
  intros Hrun Hpause ([p Hp] & [r Hr] & _) Hc Hwf Hmem.
  destruct (wf_regs_PC _ Hwf) as (pc & Hpc & _).
  destruct (cpu_step_wf _ pc Hwf Hpc) as (c1 & Hstep & _ & _ & _ & Hmem1).
  eexists.
  split; [exact (session_step_run rnd e c1 p r true Hrun Hpause Hp Hr Hc Hstep) |].
  pose proof (mutators_keep rnd p r false (N64Emulator.set_cpu c1 e))
    as (_ & _ & K3 & _).
  cbv zeta in K3. cbn [health_pinned N64Emulator.set_cpu N64Emulator.cpu] in K3.
  set (e3 := coin_spawned r (personalized rnd p (N64Emulator.set_cpu c1 e)))
    in *.
  cbn [health_pinned N64Emulator.set_cpu N64Emulator.cpu].
  destruct (write_word_read_back (N64Emulator.cpu e3) 0x8033B21E 8)
    as (c' & Hw & Hread & _); [lia | rewrite K3, Hmem1; lia |].
  unfold exec. rewrite Hw. exact Hread.
Qed.

Lemma infinite_health_pins_the_word_witness :
  let e := N64Emulator.mk (MIPS_CPU.set_cycles 0 MIPS_CPU.init) None true
             false (N64Emulator.plugins N64Emulator.init)
             (<["Infinite Health" := true]> ∅) "Red" in
  exists e',
    N64Emulator.step 0 e = (Ret tt, e')
    /\ MIPS_CPU.read_word 0x8033B21E (N64Emulator.cpu e')
       = (Ret 8, N64Emulator.cpu e').
Proof.
  cbv zeta.
  destruct (witness_session_flags (N64Emulator.plugins N64Emulator.init)
              (<["Infinite Health" := true]> ∅) 0)
    as (Hrun & Hpause & Hwf & Hlen & _).
  apply infinite_health_pins_the_word;
    [exact Hrun | exact Hpause | | reflexivity | exact Hwf | rewrite Hlen; lia].
  repeat split; eexists; reflexivity.
Defined.

(** X14. The Rediscovered trigger spawns its coin at cycle 5000: when a
    running, unpaused session with the plugin on takes the step that
    brings the cycle counter from 4999 to 5000, and the memory holds
    offset 0x300000 .. 0x300003, [read_word(0x80300000)] returns 1
    afterwards, with the cheat on or off. *)
Theorem rediscovered_spawns_the_coin (rnd : nat) (e : N64Emulator.t) :
  N64Emulator.running e = true ->
  N64Emulator.paused e = false ->
  has_flags e ->
  N64Emulator.plugins e !! "Rediscovered" = Some true ->
  wf_regs (MIPS_CPU.regs (N64Emulator.cpu e)) ->
  MIPS_CPU.cycles (N64Emulator.cpu e) = 4999 ->
  0x300004 <= len (MIPS_CPU.memory (N64Emulator.cpu e)) ->
  exists e',
    N64Emulator.step rnd e = (Ret tt, e')
    /\ MIPS_CPU.read_word 0x80300000 (N64Emulator.cpu e')
       = (Ret 1, N64Emulator.cpu e').
Proof.
  intros Hrun Hpause ([p Hp] & _ & [c Hc]) Hr Hwf Hcyc Hmem.
  destruct (wf_regs_PC _ Hwf) as (pc & Hpc & _).
  destruct (cpu_step_wf _ pc Hwf Hpc) as (c1 & Hstep & _ & _ & Hcyc1 & Hmem1).
  eexists.
  split; [exact (session_step_run rnd e c1 p true c Hrun Hpause Hp Hr Hc Hstep) |].
  pose proof (mutators_keep rnd p false false (N64Emulator.set_cpu c1 e))
    as (_ & K2 & K3 & _).
  cbv zeta in K2, K3.
  cbn [health_pinned coin_spawned andb N64Emulator.set_cpu N64Emulator.cpu]
    in K2, K3.
  set (e2 := personalized rnd p (N64Emulator.set_cpu c1 e)) in *.
  assert (Hcoin : coin_spawned true e2
                  = N64Emulator.set_cpu
                      (exec (MIPS_CPU.write_word 0x80300000 1)
                            (N64Emulator.cpu e2)) e2).
  { unfold coin_spawned. rewrite K2, Hcyc1, Hcyc. reflexivity. }
  rewrite Hcoin.
  destruct (write_word_read_back (N64Emulator.cpu e2) 0x80300000 1)
    as (c' & Hw & Hread & _); [lia | rewrite K3, Hmem1; lia |].
  assert (Hc' : exec (MIPS_CPU.write_word 0x80300000 1) (N64Emulator.cpu e2)
                = c') by (unfold exec; now rewrite Hw).
  rewrite Hc'. destruct c; cbn [health_pinned N64Emulator.set_cpu
                                N64Emulator.cpu]; [| exact Hread].
  unfold exec.
  destruct (MIPS_CPU.write_word 0x8033B21E 8 c') as [x c''] eqn:E.
  cbn [snd].
  exact (read_word_after_write_elsewhere c' c'' 0x8033B21E 0x80300000 8 1 x
           ltac:(left; lia) E Hread).
Qed.

Lemma rediscovered_spawns_the_coin_witness :
  let e := N64Emulator.mk (MIPS_CPU.set_cycles 4999 MIPS_CPU.init) None true
             false
             (<["Rediscovered" := true]> (N64Emulator.plugins N64Emulator.init))
             (<["Infinite Health" := true]> ∅) "Red" in
  exists e',
    N64Emulator.step 0 e = (Ret tt, e')
    /\ MIPS_CPU.read_word 0x80300000 (N64Emulator.cpu e')
       = (Ret 1, N64Emulator.cpu e').
Proof.
  cbv zeta.
  destruct (witness_session_flags
              (<["Rediscovered" := true]> (N64Emulator.plugins N64Emulator.init))
              (<["Infinite Health" := true]> ∅) 4999)
    as (Hrun & Hpause & Hwf & Hlen & Hcyc).
  apply rediscovered_spawns_the_coin;
    [exact Hrun | exact Hpause | | reflexivity | exact Hwf | exact Hcyc
    | rewrite Hlen; lia].
  repeat split; eexists; reflexivity.
Defined.

Lemma cpu_personalized (rnd : nat) (p : bool) (e : N64Emulator.t) :
  N64Emulator.cpu (personalized rnd p e) = N64Emulator.cpu e.
Proof.
  unfold personalized. destruct (_ && _); [| reflexivity].
  destruct (hat_colours !! _); reflexivity.
Qed.

Lemma hat_after_mutators (rnd : nat) (p r c : bool) (e : N64Emulator.t) :
  N64Emulator.mario_hat_color
    (health_pinned c (coin_spawned r (personalized rnd p e)))
  = N64Emulator.mario_hat_color (personalized rnd p e).
Proof.
  unfold health_pinned, coin_spawned.
  destruct c, (_ && _); reflexivity.
Qed.

(** X15. A step writes the memory only through its two pokes: with the
    cheat off, and the Rediscovered plugin off or the cycle counter not
    about to reach 5000, the memory after a step is the memory before,
    byte for byte, and the step returns. *)
Theorem step_memory_untouched (rnd : nat) (e : N64Emulator.t) :
  has_flags e ->
  wf_regs (MIPS_CPU.regs (N64Emulator.cpu e)) ->
  N64Emulator.cheats e !! "Infinite Health" = Some false ->
  N64Emulator.plugins e !! "Rediscovered" = Some false
  \/ MIPS_CPU.cycles (N64Emulator.cpu e) + 1 <> 5000 ->
  exists e',
    N64Emulator.step rnd e = (Ret tt, e')
    /\ MIPS_CPU.memory (N64Emulator.cpu e')
       = MIPS_CPU.memory (N64Emulator.cpu e).
Proof.
  intros ([p Hp] & [r Hr] & _) Hwf Hc Hcoin.
  destruct (N64Emulator.running e) eqn:Hrun; cycle 1.
  { exists e. now rewrite session_step_gated by (now left). }
  destruct (N64Emulator.paused e) eqn:Hpause.
  { exists e. now rewrite session_step_gated by (now right). }
  destruct (wf_regs_PC _ Hwf) as (pc & Hpc & _).
  destruct (cpu_step_wf _ pc Hwf Hpc) as (c1 & Hstep & _ & _ & Hcyc1 & Hmem1).
  eexists.
  split; [exact (session_step_run rnd e c1 p r false Hrun Hpause Hp Hr Hc Hstep) |].
  cbn [health_pinned]. unfold coin_spawned.
  rewrite cpu_personalized. cbn [N64Emulator.set_cpu N64Emulator.cpu].
  assert (Hoff : r && (MIPS_CPU.cycles c1 =? 5000) = false).
  { destruct Hcoin as [Hr' | Hne].
    - assert (r = false) by congruence. now subst r.
    - rewrite Hcyc1. apply andb_false_iff. right. now apply Z.eqb_neq. }
  rewrite Hoff, cpu_personalized. exact Hmem1.
Qed.

Lemma step_memory_untouched_witness :
  exists e',
    N64Emulator.step 0 (exec N64Emulator.reset N64Emulator.init) = (Ret tt, e')
    /\ MIPS_CPU.memory (N64Emulator.cpu e')
       = MIPS_CPU.memory
           (N64Emulator.cpu (exec N64Emulator.reset N64Emulator.init)).
Proof.
  apply step_memory_untouched;
    [exact has_flags_reset_init
    | rewrite reset_init; exact wf_regs_init
    | rewrite reset_init; reflexivity
    | left; rewrite reset_init; reflexivity].
Defined.

(** X16. The hat colour stays in the palette and moves on round cycle
    counts only: a step of a session with its flags and a well-formed
    register file returns; if the hat colour was Red, Blue or Green it
    still is; and it is unchanged when the Personalizer is off or the
    cycle counter does not reach a multiple of 1000. *)
Theorem hat_colour_stays_in_palette (rnd : nat) (e : N64Emulator.t) :
  has_flags e ->
  wf_regs (MIPS_CPU.regs (N64Emulator.cpu e)) ->
  exists e',
    N64Emulator.step rnd e = (Ret tt, e')
    /\ (N64Emulator.mario_hat_color e ∈ hat_colours ->
        N64Emulator.mario_hat_color e' ∈ hat_colours)
    /\ ((MIPS_CPU.cycles (N64Emulator.cpu e) + 1) mod 1000 <> 0 ->
        N64Emulator.mario_hat_color e' = N64Emulator.mario_hat_color e)
    /\ (N64Emulator.plugins e !! "Personalizer" = Some false ->
        N64Emulator.mario_hat_color e' = N64Emulator.mario_hat_color e).
Proof.
  intros ([p Hp] & [r Hr] & [c Hc]) Hwf.
  destruct (N64Emulator.running e) eqn:Hrun; cycle 1.
  { exists e. rewrite session_step_gated by (now left). auto. }
  destruct (N64Emulator.paused e) eqn:Hpause.
  { exists e. rewrite session_step_gated by (now right). auto. }
  destruct (wf_regs_PC _ Hwf) as (pc & Hpc & _).
  destruct (cpu_step_wf _ pc Hwf Hpc) as (c1 & Hstep & _ & _ & Hcyc1 & _).
  eexists.
  split; [exact (session_step_run rnd e c1 p r c Hrun Hpause Hp Hr Hc Hstep) |].
  rewrite hat_after_mutators. unfold personalized.
  cbn [N64Emulator.set_cpu N64Emulator.cpu]. rewrite Hcyc1.
  split; [| split].
  - intros Hin. destruct (_ && _); [| exact Hin].
    destruct (hat_colours !! (rnd mod 3)%nat) as [h |] eqn:Hh; [| exact Hin].
    cbn [N64Emulator.set_mario_hat_color N64Emulator.mario_hat_color].
    apply list_elem_of_lookup. eauto.
  - intros Hne. apply Z.eqb_neq in Hne. rewrite Hne, andb_false_r.
    reflexivity.
  - intros Hoff. assert (p = false) by congruence. now subst p.
Qed.

Lemma hat_colour_stays_in_palette_witness :
  exists e',
    N64Emulator.step 1 (exec N64Emulator.reset N64Emulator.init) = (Ret tt, e')
    /\ (N64Emulator.mario_hat_color (exec N64Emulator.reset N64Emulator.init)
          ∈ hat_colours ->
        N64Emulator.mario_hat_color e' ∈ hat_colours)
    /\ ((MIPS_CPU.cycles
           (N64Emulator.cpu (exec N64Emulator.reset N64Emulator.init)) + 1)
          mod 1000 <> 0 ->
        N64Emulator.mario_hat_color e'
        = N64Emulator.mario_hat_color (exec N64Emulator.reset N64Emulator.init))
    /\ (N64Emulator.plugins (exec N64Emulator.reset N64Emulator.init)
          !! "Personalizer" = Some false ->
        N64Emulator.mario_hat_color e'
        = N64Emulator.mario_hat_color (exec N64Emulator.reset N64Emulator.init)).
Proof.
  apply hat_colour_stays_in_palette;
    [exact has_flags_reset_init | rewrite reset_init; exact wf_regs_init].
Defined.

(* ===================================================================== *)
(** * More on loading and resetting *)
(* ===================================================================== *)

Lemma take_min_length {A : Type} (l : list A) (n : nat) :
  take (length l `min` n) l = take n l.
Proof.
  destruct (Nat.le_gt_cases (length l) n) as [Hle | Hgt].
  - rewrite Nat.min_l by exact Hle. now rewrite !take_ge by lia.
  - now rewrite Nat.min_r by lia.
Qed.

Lemma drop_min_length {A : Type} (l : list A) (n : nat) :
  drop (length l `min` n) l = drop n l.
Proof.
  destruct (Nat.le_gt_cases (length l) n) as [Hle | Hgt].
  - rewrite Nat.min_l by exact Hle. now rewrite !drop_ge by lia.
  - now rewrite Nat.min_r by lia.
Qed.

(** The boot transfer on lists: the leading 4096 bytes of the memory are
    replaced by the leading bytes of the image, as many as it has up to
    4096, and the rest of the memory follows them. *)
Lemma boot_transfer_shape (mem image : list byte) :
  slice_assign mem 0 0x1000 (slice image 0 0x1000)
  = take 4096 image ++ drop 4096 mem.
Proof.
  assert (Hc0 : forall l : list byte, clamp l 0 = 0%nat).
  { intros l. apply (clamp_inside l 0). pose proof (len_nonneg l). lia. }
  assert (Hc1 : forall l : list byte, clamp l 0x1000 = (length l `min` 4096)%nat).
  { intros l. unfold clamp, len. cbn [Z.ltb Z.compare]. lia. }
  unfold slice_assign, slice. rewrite !Hc0, !Hc1.
  rewrite take_0, drop_0, Nat.sub_0_r, Nat.max_0_l, app_nil_l.
  now rewrite take_min_length, drop_min_length.
Qed.

Lemma setreg_short (c : MIPS_CPU.t) (v : Z) :
  (length (MIPS_CPU.regs c) < 33)%nat ->
  MIPS_CPU.setreg 32 v c = (Raise IndexError, c).
Proof.
  intros Hlt. unfold MIPS_CPU.setreg, bind, get, lift, setitem, index, len.
  destruct (32 <? Z.of_nat (length (MIPS_CPU.regs c))) eqn:E;
    [apply Z.ltb_lt in E; lia |].
  reflexivity.
Qed.

(** X17. [reset] always returns and is idempotent: it leaves a running
    session with the registers and the cycle counter of a fresh
    processor, keeps the ROM, the paused mark, the flags and the hat
    colour, and a second [reset] right after changes nothing. *)
Theorem reset_is_idempotent (e : N64Emulator.t) :
  exists e',
    N64Emulator.reset e = (Ret tt, e')
    /\ N64Emulator.running e' = true
    /\ MIPS_CPU.regs (N64Emulator.cpu e') = MIPS_CPU.regs MIPS_CPU.init
    /\ MIPS_CPU.cycles (N64Emulator.cpu e') = 0
    /\ N64Emulator.rom e' = N64Emulator.rom e
    /\ N64Emulator.paused e' = N64Emulator.paused e
    /\ N64Emulator.plugins e' = N64Emulator.plugins e
    /\ N64Emulator.cheats e' = N64Emulator.cheats e
    /\ N64Emulator.mario_hat_color e' = N64Emulator.mario_hat_color e
    /\ N64Emulator.reset e' = (Ret tt, e').
Proof.
  eexists. split; [apply reset_run |].
  rewrite reset_run.
  cbn [N64Emulator.set_running N64Emulator.set_cpu N64Emulator.cpu
       N64Emulator.rom N64Emulator.running N64Emulator.paused
       N64Emulator.plugins N64Emulator.cheats N64Emulator.mario_hat_color].
  destruct (N64Emulator.rom e) as [[| b image] |]; repeat split.
Qed.

(** X18. [load_rom] on a session whose register file has its 33 slots
    returns; it stores the image, sets the PC to 0x80000000, and makes the
    memory the leading bytes of the image (at most 4096) followed by the
    old memory from offset 4096 on. It clears nothing else: the 32
    general-purpose registers, the cycle counter, the running and paused
    marks, the flags and the hat colour are as before. *)
Theorem load_rom_transfers_and_keeps
    (image : list byte) (e : N64Emulator.t) :
  length (MIPS_CPU.regs (N64Emulator.cpu e)) = 33%nat ->
  exists e',
    N64Emulator.load_rom image e = (Ret tt, e')
    /\ N64Emulator.rom e' = Some image
    /\ PC (N64Emulator.cpu e') = Some 0x80000000
    /\ MIPS_CPU.memory (N64Emulator.cpu e')
       = take 4096 image ++ drop 4096 (MIPS_CPU.memory (N64Emulator.cpu e))
    /\ (forall i : nat,
          (i < 32)%nat ->
          MIPS_CPU.regs (N64Emulator.cpu e') !! i
          = MIPS_CPU.regs (N64Emulator.cpu e) !! i)
    /\ MIPS_CPU.cycles (N64Emulator.cpu e')
       = MIPS_CPU.cycles (N64Emulator.cpu e)
    /\ N64Emulator.running e' = N64Emulator.running e
    /\ N64Emulator.paused e' = N64Emulator.paused e
    /\ N64Emulator.plugins e' = N64Emulator.plugins e
    /\ N64Emulator.cheats e' = N64Emulator.cheats e
    /\ N64Emulator.mario_hat_color e' = N64Emulator.mario_hat_color e.
Proof.
  intros Hlen. eexists. split; [apply load_rom_run; exact Hlen |].
  cbn [N64Emulator.set_cpu N64Emulator.set_rom N64Emulator.cpu
       N64Emulator.rom N64Emulator.running N64Emulator.paused
       N64Emulator.plugins N64Emulator.cheats N64Emulator.mario_hat_color
       MIPS_CPU.regs MIPS_CPU.memory MIPS_CPU.cycles].
  unfold PC. cbn [MIPS_CPU.regs].
  split; [reflexivity |].
  split; [apply list_lookup_insert_eq; lia |].
  split; [apply boot_transfer_shape |].
  split; [| repeat split].
  intros i Hi. apply list_lookup_insert_ne. lia.
Qed.

Lemma load_rom_transfers_and_keeps_witness :
  exists e',
    N64Emulator.load_rom [x00] N64Emulator.init = (Ret tt, e')
    /\ N64Emulator.rom e' = Some [x00]
    /\ PC (N64Emulator.cpu e') = Some 0x80000000
    /\ MIPS_CPU.memory (N64Emulator.cpu e')
       = take 4096 [x00]
         ++ drop 4096 (MIPS_CPU.memory (N64Emulator.cpu N64Emulator.init))
    /\ (forall i : nat,
          (i < 32)%nat ->
          MIPS_CPU.regs (N64Emulator.cpu e') !! i
          = MIPS_CPU.regs (N64Emulator.cpu N64Emulator.init) !! i)
    /\ MIPS_CPU.cycles (N64Emulator.cpu e')
       = MIPS_CPU.cycles (N64Emulator.cpu N64Emulator.init)
    /\ N64Emulator.running e' = N64Emulator.running N64Emulator.init
    /\ N64Emulator.paused e' = N64Emulator.paused N64Emulator.init
    /\ N64Emulator.plugins e' = N64Emulator.plugins N64Emulator.init
    /\ N64Emulator.cheats e' = N64Emulator.cheats N64Emulator.init
    /\ N64Emulator.mario_hat_color e'
       = N64Emulator.mario_hat_color N64Emulator.init.
Proof.
  apply load_rom_transfers_and_keeps. reflexivity.
Defined.

(** X19. [load_rom] is not all-or-nothing: on a register file without
    slot 32 it raises [IndexError] at its last statement, after the image
    has been stored and the memory rewritten. *)
Theorem load_rom_raises_half_way (image : list byte) (e : N64Emulator.t) :
  (length (MIPS_CPU.regs (N64Emulator.cpu e)) < 33)%nat ->
  exists e',
    N64Emulator.load_rom image e = (Raise IndexError, e')
    /\ N64Emulator.rom e' = Some image
    /\ MIPS_CPU.memory (N64Emulator.cpu e')
       = take 4096 image ++ drop 4096 (MIPS_CPU.memory (N64Emulator.cpu e))
    /\ MIPS_CPU.regs (N64Emulator.cpu e') = MIPS_CPU.regs (N64Emulator.cpu e).
Proof.
  intros Hlt. eexists. split.
  - unfold N64Emulator.load_rom, N64Emulator.on_cpu, zoom, bind, get, put.
    rewrite pi_dma_run.
    cbn [N64Emulator.cpu N64Emulator.set_cpu N64Emulator.set_rom].
    rewrite setreg_short by exact Hlt. reflexivity.
  - cbn [N64Emulator.set_cpu N64Emulator.set_rom N64Emulator.cpu
         N64Emulator.rom MIPS_CPU.set_memory MIPS_CPU.memory MIPS_CPU.regs].
    split; [reflexivity |]. split; [apply boot_transfer_shape | reflexivity].
Qed.

(** The session a snapshot with no register leaves behind. *)
Lemma load_rom_raises_half_way_witness :
  let e := exec (N64Emulator.load_state (N64Emulator.Triple [] [x01; x02] "Red"))
                (N64Emulator.mk toy None false false ∅ ∅ "Red") in
  exists e',
    N64Emulator.load_rom [x09] e = (Raise IndexError, e')
    /\ N64Emulator.rom e' = Some [x09]
    /\ MIPS_CPU.memory (N64Emulator.cpu e')
       = take 4096 [x09] ++ drop 4096 (MIPS_CPU.memory (N64Emulator.cpu e))
    /\ MIPS_CPU.regs (N64Emulator.cpu e') = MIPS_CPU.regs (N64Emulator.cpu e).
Proof.
  apply load_rom_raises_half_way. cbn. lia.
Defined.

(* ===================================================================== *)
(** * What runs after a reset *)
(* ===================================================================== *)

(** The PC [k] steps after a reset, for the first 806354944 steps, maps
    outside the memory: above it until the PC wraps around, below the
    base of the segment afterwards. *)
Lemma reset_pc_outside (k n : Z) :
  0 <= k < 806354944 -> n <= 4194304 ->
  let pc := (0xBFC00000 + 4 * k) mod 2 ^ 32 in
  pc - 0x80000000 < 0 \/ n - 3 <= pc - 0x80000000.
Proof.
  intros Hk Hn. cbv zeta. change (2 ^ 32) with 4294967296.
  destruct (Z_lt_dec k 269484032) as [Hlow | Hhigh].
  - right. rewrite Z.mod_small by lia. lia.
  - left.
    replace ((0xBFC00000 + 4 * k) mod 4294967296)
      with (0xBFC00000 + 4 * k - 4294967296); [lia |].
    apply Z.mod_unique with (q := 1); lia.
Qed.

(** One step of a session that was reset [k] steps ago. *)
Lemma idle_step (rnd : nat) (k : Z) (e : N64Emulator.t) :
  0 <= k < 806354944 ->
  N64Emulator.running e = true ->
  N64Emulator.paused e = false ->
  has_flags e ->
  MIPS_CPU.regs (N64Emulator.cpu e)
  = <[32%nat := (0xBFC00000 + 4 * k) mod 2 ^ 32]> (replicate 33 0) ->
  MIPS_CPU.cycles (N64Emulator.cpu e) = k ->
  len (MIPS_CPU.memory (N64Emulator.cpu e)) <= 4194304 ->
  exists e',
    N64Emulator.step rnd e = (Ret tt, e')
    /\ N64Emulator.running e' = true
    /\ N64Emulator.paused e' = false
    /\ has_flags e'
    /\ MIPS_CPU.regs (N64Emulator.cpu e')
       = <[32%nat := (0xBFC00000 + 4 * (k + 1)) mod 2 ^ 32]> (replicate 33 0)
    /\ MIPS_CPU.cycles (N64Emulator.cpu e') = k + 1
    /\ len (MIPS_CPU.memory (N64Emulator.cpu e')) <= 4194304.
Proof.
  intros Hk Hrun Hpause Hflags Hregs Hcyc Hmem.
  set (pc := (0xBFC00000 + 4 * k) mod 2 ^ 32) in *.
  assert (Hlen : length (MIPS_CPU.regs (N64Emulator.cpu e)) = 33%nat)
    by (rewrite Hregs, length_insert; apply length_replicate).
  assert (Hpc : PC (N64Emulator.cpu e) = Some pc).
  { unfold PC. rewrite Hregs. apply list_lookup_insert_eq.
    rewrite length_replicate. lia. }
  assert (Hfetch : MIPS_CPU.read_word pc (N64Emulator.cpu e)
                   = (Ret 0, N64Emulator.cpu e)).
  { apply read_word_outside.
    exact (reset_pc_outside k _ Hk Hmem). }
  assert (Hstep : MIPS_CPU.step (N64Emulator.cpu e)
                  = (Ret tt, advance pc (N64Emulator.cpu e))).
  { apply (step_nop _ pc 0 Hlen Hpc Hfetch); vm_compute; intuition discriminate. }
  destruct Hflags as ([p Hp] & [r Hr] & [c Hc]).
  eexists. split;
    [exact (session_step_run rnd e _ p r c Hrun Hpause Hp Hr Hc Hstep) |].
  pose proof (mutators_keep rnd p r c
                (N64Emulator.set_cpu (advance pc (N64Emulator.cpu e)) e))
    as (K1 & K2 & K3 & K4 & K5 & K6 & K7 & _).
  cbv zeta in *.
  cbn [N64Emulator.set_cpu N64Emulator.cpu N64Emulator.running
       N64Emulator.paused N64Emulator.plugins N64Emulator.cheats
       advance MIPS_CPU.regs MIPS_CPU.cycles MIPS_CPU.memory]
    in K1, K2, K3, K4, K5, K6, K7.
  unfold has_flags. rewrite K1, K2, K3, K4, K5, K6, K7.
  split; [exact Hrun |]. split; [exact Hpause |].
  split; [repeat split; eauto |].
  split; [| split; [lia | exact Hmem]].
  rewrite Hregs, list_insert_insert_eq. f_equal.
  unfold pc. rewrite Zplus_mod_idemp_l. f_equal. lia.
Qed.

(** X20. After a reset the loaded ROM is not reached for 806354944
    steps: the PC starts at the reset vector 0xBFC00000, which maps outside
    the memory, and so does every PC up to the wrap-around to 0x80000000.
    For any session with its flags and not paused, whatever ROM it holds,
    any run of at most 806354944 steps after [reset] returns, leaves the
    32 general-purpose registers at 0, the cycle counter at the number of
    steps and the PC at the reset vector plus four times that number,
    modulo 2^32. *)
Theorem reset_runs_idle (e : N64Emulator.t) (rnds : list nat) :
  has_flags e ->
  N64Emulator.paused e = false ->
  Z.of_nat (length rnds) <= 806354944 ->
  exists e',
    run rnds (exec N64Emulator.reset e) = (Ret tt, e')
    /\ (forall i : nat,
          (i < 32)%nat -> MIPS_CPU.regs (N64Emulator.cpu e') !! i = Some 0)
    /\ PC (N64Emulator.cpu e')
       = Some ((0xBFC00000 + 4 * Z.of_nat (length rnds)) mod 2 ^ 32)
    /\ MIPS_CPU.cycles (N64Emulator.cpu e') = Z.of_nat (length rnds).
Proof.
  intros Hflags Hpause Hn.
  assert (Hgen : forall (rnds : list nat) (k : Z) (s : N64Emulator.t),
            0 <= k -> k + Z.of_nat (length rnds) <= 806354944 ->
            N64Emulator.running s = true ->
            N64Emulator.paused s = false ->
            has_flags s ->
            MIPS_CPU.regs (N64Emulator.cpu s)
            = <[32%nat := (0xBFC00000 + 4 * k) mod 2 ^ 32]> (replicate 33 0) ->
            MIPS_CPU.cycles (N64Emulator.cpu s) = k ->
            len (MIPS_CPU.memory (N64Emulator.cpu s)) <= 4194304 ->
            exists s',
              run rnds s = (Ret tt, s')
              /\ MIPS_CPU.regs (N64Emulator.cpu s')
                 = <[32%nat := (0xBFC00000
                                + 4 * (k + Z.of_nat (length rnds)))
                               mod 2 ^ 32]> (replicate 33 0)
              /\ MIPS_CPU.cycles (N64Emulator.cpu s')
                 = k + Z.of_nat (length rnds)).
  { clear. induction rnds as [| rnd rnds IH];
      intros k s Hk Hn Hrun Hpause Hflags Hregs Hcyc Hmem.
    - exists s. cbn [length]. change (Z.of_nat 0) with 0.
      rewrite Z.add_0_r. now split.
    - cbn [length] in *.
      destruct (idle_step rnd k s ltac:(lia) Hrun Hpause Hflags Hregs Hcyc Hmem)
        as (s1 & Hstep & R1 & P1 & F1 & G1 & C1 & M1).
      destruct (IH (k + 1) s1 ltac:(lia) ltac:(lia) R1 P1 F1 G1 C1 M1)
        as (s2 & Hrun2 & G2 & C2).
      exists s2. cbn [run].
      split; [rewrite (bind_ret_run _ _ _ _ _ Hstep); exact Hrun2 |].
      replace (k + Z.of_nat (Datatypes.S (length rnds)))
        with (k + 1 + Z.of_nat (length rnds)) by lia.
      now split. }
  assert (Hreset : exists s,
            exec N64Emulator.reset e = s
            /\ N64Emulator.running s = true
            /\ N64Emulator.paused s = false
            /\ has_flags s
            /\ MIPS_CPU.regs (N64Emulator.cpu s)
               = <[32%nat := (0xBFC00000 + 4 * 0) mod 2 ^ 32]> (replicate 33 0)
            /\ MIPS_CPU.cycles (N64Emulator.cpu s) = 0
            /\ len (MIPS_CPU.memory (N64Emulator.cpu s)) <= 4194304).
  { eexists. split; [reflexivity |].
    unfold exec. rewrite reset_run.
    cbn [snd N64Emulator.set_running N64Emulator.set_cpu N64Emulator.cpu
         N64Emulator.running N64Emulator.paused].
    split; [reflexivity |]. split; [exact Hpause |].
    split; [exact Hflags |].
    destruct (N64Emulator.rom e) as [[| b image] |];
      cbn [MIPS_CPU.set_memory MIPS_CPU.regs MIPS_CPU.cycles MIPS_CPU.memory];
      (split; [reflexivity |]); (split; [reflexivity |]).
    - rewrite len_memory_init. lia.
    - pose proof (len_boot_transfer (MIPS_CPU.memory MIPS_CPU.init)
                    (b :: image)) as Hl.
      rewrite len_memory_init in Hl. specialize (Hl ltac:(lia)).
      change 0x1000 with 4096 in Hl. lia.
    - rewrite len_memory_init. lia. }
  destruct Hreset as (s & -> & R & P & F & G & C & M).
  destruct (Hgen rnds 0 s ltac:(lia) ltac:(lia) R P F G C M)
    as (s' & Hrun & G' & C').
  exists s'. split; [exact Hrun |].
  rewrite Z.add_0_l in G', C'.
  split; [| split; [| exact C']].
  - intros i Hi. rewrite G'.
    rewrite list_lookup_insert_ne by lia.
    apply lookup_replicate_2. lia.
  - unfold PC. rewrite G'. apply list_lookup_insert_eq.
    rewrite length_replicate. lia.
Qed.

Lemma reset_runs_idle_witness :
  exists e',
    run [0; 1; 2]%nat
        (exec N64Emulator.reset
              (exec (N64Emulator.load_rom addi_r0_image) N64Emulator.init))
    = (Ret tt, e')
    /\ (forall i : nat,
          (i < 32)%nat -> MIPS_CPU.regs (N64Emulator.cpu e') !! i = Some 0)
    /\ PC (N64Emulator.cpu e')
       = Some ((0xBFC00000 + 4 * Z.of_nat (length [0; 1; 2]%nat)) mod 2 ^ 32)
    /\ MIPS_CPU.cycles (N64Emulator.cpu e')
       = Z.of_nat (length [0; 1; 2]%nat).
Proof.
  apply reset_runs_idle.
  - unfold exec. rewrite load_rom_run by reflexivity.
    repeat split; eexists; reflexivity.
  - unfold exec. rewrite load_rom_run by reflexivity. reflexivity.
  - cbn. lia.
Defined.

(* ===================================================================== *)
(** * The callbacks of the window *)
(* ===================================================================== *)

Lemma append_assoc (s1 s2 s3 : string) :
  (s1 +:+ s2) +:+ s3 = s1 +:+ (s2 +:+ s3).
Proof.
  induction s1 as [| a s1 IH]; [reflexivity |].
  change (String a ((s1 +:+ s2) +:+ s3) = String a (s1 +:+ s2 +:+ s3)).
  now rewrite IH.
Qed.

(** A flag put back to the value it had leaves the dict as it was. *)
Lemma dict_toggle_twice (d : gmap string bool) (k : string) (v : bool) :
  d !! k = Some v ->
  <[k := negb (negb v)]> (<[k := negb v]> d) = d.
Proof.
  intros Hk. rewrite insert_insert_eq, negb_involutive.
  now apply insert_id.
Qed.

Lemma toggle_cheat_run (cheat : string) (v : bool) (g : EmulatorGUI.t) :
  N64Emulator.cheats (EmulatorGUI.emu g) !! cheat = Some v ->
  EmulatorGUI.toggle_cheat cheat g
  = (Ret tt,
     EmulatorGUI.set_emu
       (EmulatorGUI.set_cheats
          (<[cheat := negb v]> (N64Emulator.cheats (EmulatorGUI.emu g)))
          (EmulatorGUI.emu g)) g).
Proof.
  intros Hk. unfold EmulatorGUI.toggle_cheat, bind, get, lift, dict_get, put.
  now rewrite Hk.
Qed.

Lemma toggle_plugin_run (plugin : string) (v : bool) (g : EmulatorGUI.t) :
  plugin <> "Debugger" ->
  N64Emulator.plugins (EmulatorGUI.emu g) !! plugin = Some v ->
  EmulatorGUI.toggle_plugin plugin g
  = (Ret tt,
     EmulatorGUI.set_emu
       (EmulatorGUI.set_plugins
          (<[plugin := negb v]> (N64Emulator.plugins (EmulatorGUI.emu g)))
          (EmulatorGUI.emu g)) g).
Proof.
  intros Hne Hk.
  unfold EmulatorGUI.toggle_plugin, bind, get, lift, dict_get, put.
  rewrite Hk. apply String.eqb_neq in Hne. now rewrite Hne.
Qed.

(** X21. Toggling a cheat twice puts everything back: for a cheat that
    is in the dict, the callback returns and flips the flag, and a second
    call right after leaves the window and the emulator exactly as they
    were at the start. *)
Theorem toggle_cheat_twice (k : string) (v : bool) (g : EmulatorGUI.t) :
  N64Emulator.cheats (EmulatorGUI.emu g) !! k = Some v ->
  exists g1,
    EmulatorGUI.toggle_cheat k g = (Ret tt, g1)
    /\ N64Emulator.cheats (EmulatorGUI.emu g1) !! k = Some (negb v)
    /\ EmulatorGUI.toggle_cheat k g1 = (Ret tt, g).
Proof.
  destruct g as [[c ro ru pa pl ch hat] d w].
  cbn [EmulatorGUI.emu N64Emulator.cheats].
  intros Hk. eexists. split; [apply (toggle_cheat_run k v); exact Hk |].
  cbn [EmulatorGUI.set_emu EmulatorGUI.set_cheats EmulatorGUI.emu
       N64Emulator.cheats].
  split; [apply lookup_insert_eq |].
  rewrite (toggle_cheat_run k (negb v)) by apply lookup_insert_eq.
  cbn [EmulatorGUI.set_emu EmulatorGUI.set_cheats EmulatorGUI.emu
       EmulatorGUI.display EmulatorGUI.debuggers
       N64Emulator.cheats N64Emulator.cpu N64Emulator.rom
       N64Emulator.running N64Emulator.paused N64Emulator.plugins
       N64Emulator.mario_hat_color].
  now rewrite dict_toggle_twice.
Qed.

Lemma toggle_cheat_twice_witness :
  exists g1,
    EmulatorGUI.toggle_cheat "Infinite Health" EmulatorGUI.init = (Ret tt, g1)
    /\ N64Emulator.cheats (EmulatorGUI.emu g1) !! "Infinite Health"
       = Some (negb false)
    /\ EmulatorGUI.toggle_cheat "Infinite Health" g1
       = (Ret tt, EmulatorGUI.init).
Proof.
  apply toggle_cheat_twice. reflexivity.
Defined.

(** X22. Toggling a plugin other than the Debugger twice puts everything
    back in the same way; the plugin must be in the dict. *)
Theorem toggle_plugin_twice (k : string) (v : bool) (g : EmulatorGUI.t) :
  k <> "Debugger" ->
  N64Emulator.plugins (EmulatorGUI.emu g) !! k = Some v ->
  exists g1,
    EmulatorGUI.toggle_plugin k g = (Ret tt, g1)
    /\ N64Emulator.plugins (EmulatorGUI.emu g1) !! k = Some (negb v)
    /\ EmulatorGUI.toggle_plugin k g1 = (Ret tt, g).
Proof.
  destruct g as [[c ro ru pa pl ch hat] d w].
  cbn [EmulatorGUI.emu N64Emulator.plugins].
  intros Hne Hk. eexists.
  split; [apply (toggle_plugin_run k v); [exact Hne | exact Hk] |].
  cbn [EmulatorGUI.set_emu EmulatorGUI.set_plugins EmulatorGUI.emu
       N64Emulator.plugins].
  split; [apply lookup_insert_eq |].
  rewrite (toggle_plugin_run k (negb v))
    by (try exact Hne; apply lookup_insert_eq).
  cbn [EmulatorGUI.set_emu EmulatorGUI.set_plugins EmulatorGUI.emu
       EmulatorGUI.display EmulatorGUI.debuggers
       N64Emulator.cheats N64Emulator.cpu N64Emulator.rom
       N64Emulator.running N64Emulator.paused N64Emulator.plugins
       N64Emulator.mario_hat_color].
  now rewrite dict_toggle_twice.
Qed.

Lemma toggle_plugin_twice_witness :
  exists g1,
    EmulatorGUI.toggle_plugin "Rediscovered" EmulatorGUI.init = (Ret tt, g1)
    /\ N64Emulator.plugins (EmulatorGUI.emu g1) !! "Rediscovered"
       = Some (negb false)
    /\ EmulatorGUI.toggle_plugin "Rediscovered" g1
       = (Ret tt, EmulatorGUI.init).
Proof.
  apply toggle_plugin_twice; [discriminate | reflexivity].
Defined.

(** ** The debugger window *)

Lemma pack_run (text : string) (ws : list (list string)) (w : list string)
    (g : EmulatorGUI.t) :
  EmulatorGUI.debuggers g = ws ++ [w] ->
  EmulatorGUI.pack text g
  = (Ret tt, EmulatorGUI.set_debuggers (ws ++ [w ++ [text]]) g).
Proof.
  intros Hw. unfold EmulatorGUI.pack, bind, get, put.
  rewrite Hw, reverse_snoc, reverse_cons, reverse_involutive. reflexivity.
Qed.

(** The lines of the memory view: one per address, each read with
    [read_word], none of which changes the processor. *)
Lemma dump_lines (c : MIPS_CPU.t) (addrs : list Z) :
  exists lines,
    EmulatorGUI.for_each
      (fun addr =>
         w <- MIPS_CPU.read_word addr ;;
         ret (EmulatorGUI.hex addr +:+ ": " +:+ EmulatorGUI.hex w))
      addrs c
    = (Ret lines, c)
    /\ Forall2
         (fun addr line =>
            exists w, MIPS_CPU.read_word addr c = (Ret w, c)
                      /\ line = EmulatorGUI.hex addr +:+ ": "
                                +:+ EmulatorGUI.hex w)
         addrs lines.
Proof.
  induction addrs as [| addr addrs IH].
  - exists []. split; [reflexivity | constructor].
  - destruct IH as (lines & Hrun & Hall).
    destruct (read_word_total c addr) as [w Hw].
    exists ((EmulatorGUI.hex addr +:+ ": " +:+ EmulatorGUI.hex w) :: lines).
    split.
    + cbn [EmulatorGUI.for_each].
      unfold bind at 1. unfold bind at 1. rewrite Hw. unfold ret at 1.
      unfold bind at 1. rewrite Hrun. reflexivity.
    + constructor; [eauto | exact Hall].
Qed.

(** X23. Switching the Debugger on opens one window and changes nothing
    else but the flag: when the Debugger plugin is off and the register
    file has its PC slot, [toggle_plugin("Debugger")] returns, sets the
    flag, and adds one window holding three texts: the PC in hexadecimal,
    the cycle count, and a memory view of 64 lines, the i-th being the
    address [0x80000000 + 4 i] and the word [read_word] returns there,
    both in hexadecimal. The processor, the ROM, the running and paused
    marks, the other plugin flags, the cheats, the hat colour, the
    display label and the windows opened before are as they were. *)
Theorem debugger_opens_one_window (g : EmulatorGUI.t) (pc : Z) :
  N64Emulator.plugins (EmulatorGUI.emu g) !! "Debugger" = Some false ->
  PC (N64Emulator.cpu (EmulatorGUI.emu g)) = Some pc ->
  exists (g' : EmulatorGUI.t) (lines : list string),
    EmulatorGUI.toggle_plugin "Debugger" g = (Ret tt, g')
    /\ g'
       = EmulatorGUI.mk
           (N64Emulator.mk
              (N64Emulator.cpu (EmulatorGUI.emu g))
              (N64Emulator.rom (EmulatorGUI.emu g))
              (N64Emulator.running (EmulatorGUI.emu g))
              (N64Emulator.paused (EmulatorGUI.emu g))
              (<["Debugger" := true]>
                 (N64Emulator.plugins (EmulatorGUI.emu g)))
              (N64Emulator.cheats (EmulatorGUI.emu g))
              (N64Emulator.mario_hat_color (EmulatorGUI.emu g)))
           (EmulatorGUI.display g)
           (EmulatorGUI.debuggers g
            ++ [["PC: " +:+ EmulatorGUI.hex pc;
                 "Cycles: "
                   +:+ EmulatorGUI.str
                         (MIPS_CPU.cycles
                            (N64Emulator.cpu (EmulatorGUI.emu g)));
                 String.concat EmulatorGUI.nl lines]])
    /\ EmulatorGUI.debuggers g'
       = EmulatorGUI.debuggers g
         ++ [["PC: " +:+ EmulatorGUI.hex pc;
              "Cycles: "
                +:+ EmulatorGUI.str
                      (MIPS_CPU.cycles (N64Emulator.cpu (EmulatorGUI.emu g)));
              String.concat EmulatorGUI.nl lines]]
    /\ length lines = 64%nat
    /\ (forall i : nat,
          (i < 64)%nat ->
          exists w,
            MIPS_CPU.read_word (0x80000000 + 4 * Z.of_nat i)
              (N64Emulator.cpu (EmulatorGUI.emu g))
            = (Ret w, N64Emulator.cpu (EmulatorGUI.emu g))
            /\ lines !! i
               = Some (EmulatorGUI.hex (0x80000000 + 4 * Z.of_nat i)
                       +:+ ": " +:+ EmulatorGUI.hex w))
    /\ N64Emulator.plugins (EmulatorGUI.emu g') !! "Debugger" = Some true
    /\ N64Emulator.cpu (EmulatorGUI.emu g')
       = N64Emulator.cpu (EmulatorGUI.emu g)
    /\ EmulatorGUI.display g' = EmulatorGUI.display g.
Proof.
  intros Hoff Hpc.
  destruct (dump_lines (N64Emulator.cpu (EmulatorGUI.emu g))
              (EmulatorGUI.range 0x80000000 4 64)) as (lines & Hdump & Hall).
  set (e1 := EmulatorGUI.set_plugins
               (<["Debugger" := true]>
                  (N64Emulator.plugins (EmulatorGUI.emu g)))
               (EmulatorGUI.emu g)).
  set (g1 := EmulatorGUI.set_emu e1 g).
  assert (Hcpu : N64Emulator.cpu e1 = N64Emulator.cpu (EmulatorGUI.emu g))
    by reflexivity.
  assert (Hshow :
    EmulatorGUI.show_debugger g1
    = (Ret tt,
       EmulatorGUI.set_debuggers
         (EmulatorGUI.debuggers g
          ++ [["PC: " +:+ EmulatorGUI.hex pc;
               "Cycles: "
                 +:+ EmulatorGUI.str
                       (MIPS_CPU.cycles (N64Emulator.cpu (EmulatorGUI.emu g)));
               String.concat EmulatorGUI.nl lines]]) g1)).
  { unfold EmulatorGUI.show_debugger.
    unfold bind at 1, get at 1. unfold bind at 1, put at 1.
    set (g2 := EmulatorGUI.set_debuggers (EmulatorGUI.debuggers g1 ++ [[]]) g1).
    unfold bind at 1, EmulatorGUI.on_emu at 1, N64Emulator.on_cpu at 1,
      zoom at 1 2.
    change (N64Emulator.cpu (EmulatorGUI.emu g2))
      with (N64Emulator.cpu (EmulatorGUI.emu g)).
    rewrite (getreg_run _ 32 pc ltac:(lia) Hpc).
    assert (Hg2 : EmulatorGUI.set_emu
                    (N64Emulator.set_cpu
                       (N64Emulator.cpu (EmulatorGUI.emu g))
                       (EmulatorGUI.emu g2)) g2 = g2).
    { unfold g2, g1, e1. destruct g as [[c ro ru pa pl ch hat] d w].
      reflexivity. }
    rewrite Hg2.
    rewrite (bind_ret_run _ _ _ _ _
               (pack_run _ (EmulatorGUI.debuggers g) [] g2 eq_refl)).
    set (g3 := EmulatorGUI.set_debuggers _ g2).
    unfold bind at 1, get at 1.
    rewrite (bind_ret_run _ _ _ _ _
               (pack_run _ (EmulatorGUI.debuggers g) _ g3 eq_refl)).
    set (g4 := EmulatorGUI.set_debuggers _ g3).
    unfold bind at 1, EmulatorGUI.on_emu at 1, N64Emulator.on_cpu at 1,
      zoom at 1 2.
    change (N64Emulator.cpu (EmulatorGUI.emu g4))
      with (N64Emulator.cpu (EmulatorGUI.emu g)).
    rewrite Hdump.
    assert (Hg4 : EmulatorGUI.set_emu
                    (N64Emulator.set_cpu
                       (N64Emulator.cpu (EmulatorGUI.emu g))
                       (EmulatorGUI.emu g4)) g4 = g4).
    { unfold g4, g3, g2, g1, e1. destruct g as [[c ro ru pa pl ch hat] d w].
      reflexivity. }
    rewrite Hg4.
    rewrite (pack_run _ (EmulatorGUI.debuggers g) _ g4 eq_refl).
    reflexivity. }
  exists (EmulatorGUI.set_debuggers
            (EmulatorGUI.debuggers g
             ++ [["PC: " +:+ EmulatorGUI.hex pc;
                  "Cycles: "
                    +:+ EmulatorGUI.str
                          (MIPS_CPU.cycles
                             (N64Emulator.cpu (EmulatorGUI.emu g)));
                  String.concat EmulatorGUI.nl lines]]) g1), lines.
  split.
  { unfold EmulatorGUI.toggle_plugin.
    unfold bind at 1, get at 1.
    unfold bind at 1, lift at 1, dict_get at 1. rewrite Hoff.
    unfold bind at 1, put at 1. cbn [negb]. fold e1. fold g1.
    unfold bind at 1, get at 1.
    change (("Debugger" =? "Debugger")%string) with true. cbv iota.
    unfold bind at 1, lift at 1, dict_get at 1.
    assert (Hon : N64Emulator.plugins (EmulatorGUI.emu g1) !! "Debugger"
                  = Some true) by apply lookup_insert_eq.
    rewrite Hon. exact Hshow. }
  split; [reflexivity |].
  split; [reflexivity |].
  pose proof (Forall2_length _ _ _ Hall) as Hlen.
  unfold EmulatorGUI.range in Hlen. rewrite length_map, length_seq in Hlen.
  split; [now symmetry |].
  split; [| split; [apply lookup_insert_eq | split; reflexivity]].
  intros i Hi.
  destruct (lookup_lt_is_Some_2 lines i ltac:(lia)) as [line Hline].
  assert (Haddr : EmulatorGUI.range 0x80000000 4 64 !! i
                  = Some (0x80000000 + 4 * Z.of_nat i)).
  { unfold EmulatorGUI.range. rewrite list_lookup_fmap.
    rewrite lookup_seq_lt by exact Hi. reflexivity. }
  destruct (Forall2_lookup_lr _ _ _ _ _ _ Hall Haddr Hline)
    as (w & Hw & ->).
  exists w. split; [exact Hw | exact Hline].
Qed.

Lemma debugger_opens_one_window_witness :
  exists (g' : EmulatorGUI.t) (lines : list string),
    EmulatorGUI.toggle_plugin "Debugger" EmulatorGUI.init = (Ret tt, g')
    /\ g'
       = EmulatorGUI.mk
           (N64Emulator.mk
              (N64Emulator.cpu (EmulatorGUI.emu EmulatorGUI.init))
              (N64Emulator.rom (EmulatorGUI.emu EmulatorGUI.init))
              (N64Emulator.running (EmulatorGUI.emu EmulatorGUI.init))
              (N64Emulator.paused (EmulatorGUI.emu EmulatorGUI.init))
              (<["Debugger" := true]>
                 (N64Emulator.plugins (EmulatorGUI.emu EmulatorGUI.init)))
              (N64Emulator.cheats (EmulatorGUI.emu EmulatorGUI.init))
              (N64Emulator.mario_hat_color (EmulatorGUI.emu EmulatorGUI.init)))
           (EmulatorGUI.display EmulatorGUI.init)
           (EmulatorGUI.debuggers EmulatorGUI.init
            ++ [["PC: " +:+ EmulatorGUI.hex MIPS_CPU.RESET_VECTOR;
                 "Cycles: "
                   +:+ EmulatorGUI.str
                         (MIPS_CPU.cycles
                            (N64Emulator.cpu
                               (EmulatorGUI.emu EmulatorGUI.init)));
                 String.concat EmulatorGUI.nl lines]])
    /\ EmulatorGUI.debuggers g'
       = EmulatorGUI.debuggers EmulatorGUI.init
         ++ [["PC: " +:+ EmulatorGUI.hex MIPS_CPU.RESET_VECTOR;
              "Cycles: "
                +:+ EmulatorGUI.str
                      (MIPS_CPU.cycles
                         (N64Emulator.cpu (EmulatorGUI.emu EmulatorGUI.init)));
              String.concat EmulatorGUI.nl lines]]
    /\ length lines = 64%nat
    /\ (forall i : nat,
          (i < 64)%nat ->
          exists w,
            MIPS_CPU.read_word (0x80000000 + 4 * Z.of_nat i)
              (N64Emulator.cpu (EmulatorGUI.emu EmulatorGUI.init))
            = (Ret w, N64Emulator.cpu (EmulatorGUI.emu EmulatorGUI.init))
            /\ lines !! i
               = Some (EmulatorGUI.hex (0x80000000 + 4 * Z.of_nat i)
                       +:+ ": " +:+ EmulatorGUI.hex w))
    /\ N64Emulator.plugins (EmulatorGUI.emu g') !! "Debugger" = Some true
    /\ N64Emulator.cpu (EmulatorGUI.emu g')
       = N64Emulator.cpu (EmulatorGUI.emu EmulatorGUI.init)
    /\ EmulatorGUI.display g' = EmulatorGUI.display EmulatorGUI.init.
Proof.
  apply debugger_opens_one_window; reflexivity.
Defined.

(** ** Frames *)

(** The status text starts with the cycle count. *)
Lemma status_run (e : N64Emulator.t) (g : EmulatorGUI.t) (r w : bool) :
  N64Emulator.plugins e !! "Rediscovered" = Some r ->
  N64Emulator.plugins e !! "Wonder Graphics" = Some w ->
  exists rest,
    EmulatorGUI.status e g
    = (Ret ("Running - Cycles: "
            +:+ EmulatorGUI.str (MIPS_CPU.cycles (N64Emulator.cpu e))
            +:+ rest), g).
Proof.
  intros Hr Hw. unfold EmulatorGUI.status, bind, lift, dict_get, ret.
  rewrite Hr, Hw. cbv zeta.
  destruct r, w; rewrite ?append_assoc; eexists; reflexivity.
Qed.

(** A frame over a running emulator whose step returns. *)
Lemma update_frame_run (rnd : nat) (g : EmulatorGUI.t) (e' : N64Emulator.t)
    (r w : bool) :
  N64Emulator.running (EmulatorGUI.emu g) = true ->
  N64Emulator.step rnd (EmulatorGUI.emu g) = (Ret tt, e') ->
  N64Emulator.plugins e' !! "Rediscovered" = Some r ->
  N64Emulator.plugins e' !! "Wonder Graphics" = Some w ->
  exists rest,
    EmulatorGUI.update_frame rnd g
    = (Ret tt,
       EmulatorGUI.mk e'
         ("Running - Cycles: "
          +:+ EmulatorGUI.str (MIPS_CPU.cycles (N64Emulator.cpu e'))
          +:+ rest)
         (EmulatorGUI.debuggers g)).
Proof.
  intros Hrun Hstep Hr Hw.
  destruct (status_run e' (EmulatorGUI.set_emu e' g) r w Hr Hw)
    as (rest & Hstatus).
  exists rest. unfold EmulatorGUI.update_frame.
  unfold bind at 1, get at 1. rewrite Hrun.
  unfold bind at 1, EmulatorGUI.on_emu at 1, zoom at 1. rewrite Hstep.
  unfold bind at 1, get at 1.
  change (EmulatorGUI.emu (EmulatorGUI.set_emu e' g)) with e'.
  unfold bind at 1. rewrite Hstatus. reflexivity.
Qed.

(** X24. The "Paused" text does not survive a frame. From a running,
    unpaused emulator with the Rediscovered and Wonder Graphics plugins
    in the dict, [toggle_pause] pauses it and writes "Paused" on the
    label; the next frame leaves the emulator as it is, still paused and
    with the same processor state, but writes the status of a running
    emulator on the label, starting with "Running - Cycles: " and the
    unchanged cycle count. *)
Theorem pause_text_is_overwritten (rnd : nat) (g : EmulatorGUI.t) :
  N64Emulator.running (EmulatorGUI.emu g) = true ->
  N64Emulator.paused (EmulatorGUI.emu g) = false ->
  is_Some (N64Emulator.plugins (EmulatorGUI.emu g) !! "Rediscovered") ->
  is_Some (N64Emulator.plugins (EmulatorGUI.emu g) !! "Wonder Graphics") ->
  exists (g1 g2 : EmulatorGUI.t) (rest : string),
    EmulatorGUI.toggle_pause g = (Ret tt, g1)
    /\ EmulatorGUI.display g1 = "Paused"
    /\ EmulatorGUI.update_frame rnd g1 = (Ret tt, g2)
    /\ EmulatorGUI.emu g2 = EmulatorGUI.emu g1
    /\ N64Emulator.paused (EmulatorGUI.emu g2) = true
    /\ N64Emulator.cpu (EmulatorGUI.emu g2)
       = N64Emulator.cpu (EmulatorGUI.emu g)
    /\ EmulatorGUI.display g2
       = "Running - Cycles: "
         +:+ EmulatorGUI.str
               (MIPS_CPU.cycles (N64Emulator.cpu (EmulatorGUI.emu g)))
         +:+ rest.
Proof.
  intros Hrun Hpause [r Hr] [w Hw].
  set (e1 := EmulatorGUI.set_paused true (EmulatorGUI.emu g)).
  set (g1 := EmulatorGUI.set_display "Paused" (EmulatorGUI.set_emu e1 g)).
  assert (Htoggle : EmulatorGUI.toggle_pause g = (Ret tt, g1)).
  { unfold EmulatorGUI.toggle_pause, bind, get, put. rewrite Hpause.
    reflexivity. }
  destruct (update_frame_run rnd g1 e1 r w) as (rest & Hframe);
    [exact Hrun | | exact Hr | exact Hw |].
  { apply session_step_gated. right. reflexivity. }
  eexists g1, _, rest. split; [exact Htoggle |]. split; [reflexivity |].
  split; [exact Hframe |]. repeat split.
Qed.

Lemma gui_reset_init :
  EmulatorGUI.reset EmulatorGUI.init
  = (Ret tt,
     EmulatorGUI.mk
       (N64Emulator.set_running true
          (N64Emulator.set_cpu MIPS_CPU.init N64Emulator.init))
       "ROM Reset: Running..." []).
Proof.
  unfold EmulatorGUI.reset, EmulatorGUI.on_emu, zoom, bind, get, put.
  cbn [EmulatorGUI.emu EmulatorGUI.init]. rewrite reset_run. reflexivity.
Qed.

Lemma pause_text_is_overwritten_witness :
  let g := EmulatorGUI.mk
             (N64Emulator.set_running true
                (N64Emulator.set_cpu MIPS_CPU.init N64Emulator.init))
             "ROM Reset: Running..." [] in
  exists (g1 g2 : EmulatorGUI.t) (rest : string),
    EmulatorGUI.toggle_pause g = (Ret tt, g1)
    /\ EmulatorGUI.display g1 = "Paused"
    /\ EmulatorGUI.update_frame 0 g1 = (Ret tt, g2)
    /\ EmulatorGUI.emu g2 = EmulatorGUI.emu g1
    /\ N64Emulator.paused (EmulatorGUI.emu g2) = true
    /\ N64Emulator.cpu (EmulatorGUI.emu g2)
       = N64Emulator.cpu (EmulatorGUI.emu g)
    /\ EmulatorGUI.display g2
       = "Running - Cycles: "
         +:+ EmulatorGUI.str
               (MIPS_CPU.cycles (N64Emulator.cpu (EmulatorGUI.emu g)))
         +:+ rest.
Proof.
  apply pause_text_is_overwritten;
    [reflexivity | reflexivity | eexists; reflexivity | eexists; reflexivity].
Defined.

(** X25. Frames count cycles: over a running, unpaused emulator with the
    flags the step and the status read in the dicts (Personalizer,
    Rediscovered, Wonder Graphics, Infinite Health) and 33 unsigned
    32-bit registers, any number of frames return, the cycle counter
    grows by the number of frames, the debugger windows are untouched,
    and after at least one frame the label starts with
    "Running - Cycles: " and the new cycle count. *)
Theorem frames_count_cycles (rnds : list nat) (g : EmulatorGUI.t) :
  N64Emulator.running (EmulatorGUI.emu g) = true ->
  N64Emulator.paused (EmulatorGUI.emu g) = false ->
  has_flags (EmulatorGUI.emu g) ->
  is_Some (N64Emulator.plugins (EmulatorGUI.emu g) !! "Wonder Graphics") ->
  wf_regs (MIPS_CPU.regs (N64Emulator.cpu (EmulatorGUI.emu g))) ->
  exists g',
    frames rnds g = (Ret tt, g')
    /\ MIPS_CPU.cycles (N64Emulator.cpu (EmulatorGUI.emu g'))
       = MIPS_CPU.cycles (N64Emulator.cpu (EmulatorGUI.emu g))
         + Z.of_nat (length rnds)
    /\ EmulatorGUI.debuggers g' = EmulatorGUI.debuggers g
    /\ (rnds <> [] ->
        exists rest,
          EmulatorGUI.display g'
          = "Running - Cycles: "
            +:+ EmulatorGUI.str
                  (MIPS_CPU.cycles (N64Emulator.cpu (EmulatorGUI.emu g))
                   + Z.of_nat (length rnds))
            +:+ rest).
Proof.
  revert g. induction rnds as [| rnd rnds IH];
    intros g Hrun Hpause Hflags Hwg Hwf.
  - exists g. split; [reflexivity |].
    cbn [length]. change (Z.of_nat 0) with 0. rewrite Z.add_0_r.
    split; [reflexivity |]. split; [reflexivity | congruence].
  - destruct (session_step_wf rnd _ Hflags Hwf)
      as (e1 & Hstep & Hf1 & Hw1 & R1 & P1 & L1 & C1 & O1 & M1 & Y1 & _).
    rewrite Hrun, Hpause in Y1. cbn [andb negb] in Y1.
    destruct Hwg as [w Hw].
    pose proof Hflags as (_ & [r Hr] & _).
    destruct (update_frame_run rnd g e1 r w Hrun Hstep) as (rest & Hframe);
      [now rewrite L1 | now rewrite L1 |].
    set (g1 := EmulatorGUI.mk e1 _ (EmulatorGUI.debuggers g)) in Hframe.
    destruct (IH g1) as (g2 & Hrest & Hc2 & Hd2 & Hs2).
    { cbn [g1 EmulatorGUI.emu]. congruence. }
    { cbn [g1 EmulatorGUI.emu]. congruence. }
    { exact Hf1. }
    { cbn [g1 EmulatorGUI.emu]. rewrite L1. eauto. }
    { exact Hw1. }
    exists g2. cbn [frames].
    split; [rewrite (bind_ret_run _ _ _ _ _ Hframe); exact Hrest |].
    cbn [g1 EmulatorGUI.emu EmulatorGUI.debuggers] in Hc2, Hd2, Hs2.
    cbn [length].
    replace (MIPS_CPU.cycles (N64Emulator.cpu (EmulatorGUI.emu g))
             + Z.of_nat (Datatypes.S (length rnds)))
      with (MIPS_CPU.cycles (N64Emulator.cpu e1) + Z.of_nat (length rnds))
      by lia.
    split; [exact Hc2 |]. split; [exact Hd2 |].
    intros _. destruct rnds as [| rnd' rnds].
    + cbn [frames] in Hrest. injection Hrest as <-.
      cbn [length]. change (Z.of_nat 0) with 0. rewrite Z.add_0_r.
      exists rest. reflexivity.
    + apply Hs2. discriminate.
Qed.

Lemma frames_count_cycles_witness :
  let g := EmulatorGUI.mk
             (N64Emulator.set_running true
                (N64Emulator.set_cpu MIPS_CPU.init N64Emulator.init))
             "ROM Reset: Running..." [] in
  exists g',
    frames [0; 1; 2]%nat g = (Ret tt, g')
    /\ MIPS_CPU.cycles (N64Emulator.cpu (EmulatorGUI.emu g'))
       = MIPS_CPU.cycles (N64Emulator.cpu (EmulatorGUI.emu g))
         + Z.of_nat (length [0; 1; 2]%nat)
    /\ EmulatorGUI.debuggers g' = EmulatorGUI.debuggers g
    /\ ([0; 1; 2]%nat <> [] ->
        exists rest,
          EmulatorGUI.display g'
          = "Running - Cycles: "
            +:+ EmulatorGUI.str
                  (MIPS_CPU.cycles (N64Emulator.cpu (EmulatorGUI.emu g))
                   + Z.of_nat (length [0; 1; 2]%nat))
            +:+ rest).
Proof.
  apply frames_count_cycles;
    [reflexivity | reflexivity | | eexists; reflexivity | exact wf_regs_init].
  repeat split; eexists; reflexivity.
Defined.

(** X26. Opening a ROM starts from a fresh processor. With a file chosen
    (a non-empty path), a non-empty image and 33 register slots,
    [open_rom] returns; the emulator runs, holds the image, and its
    processor is a new one, whatever the earlier registers, memory and
    cycle count were: registers and cycle counter as after construction
    (so the program counter is the reset vector 0xBFC00000, not the entry
    point that [load_rom] had written), memory the leading bytes of the
    image (at most 4096) followed by the memory of a new processor from
    offset 4096 on. The pause flag, the flag dicts, the hat colour and
    the debugger windows are kept, and the label reads
    "ROM Loaded: Running...". *)
Theorem open_rom_starts_fresh (path : string) (image : list byte)
    (g : EmulatorGUI.t) :
  path <> "" ->
  image <> [] ->
  length (MIPS_CPU.regs (N64Emulator.cpu (EmulatorGUI.emu g))) = 33%nat ->
  EmulatorGUI.open_rom path image g
  = (Ret tt,
     EmulatorGUI.mk
       (N64Emulator.mk
          (MIPS_CPU.mk (MIPS_CPU.regs MIPS_CPU.init)
                       (take 4096 image
                        ++ drop 4096 (MIPS_CPU.memory MIPS_CPU.init))
                       0)
          (Some image)
          true
          (N64Emulator.paused (EmulatorGUI.emu g))
          (N64Emulator.plugins (EmulatorGUI.emu g))
          (N64Emulator.cheats (EmulatorGUI.emu g))
          (N64Emulator.mario_hat_color (EmulatorGUI.emu g)))
       "ROM Loaded: Running..."
       (EmulatorGUI.debuggers g)).
Proof.
  intros Hpath Himage Hlen. unfold EmulatorGUI.open_rom.
  destruct (String.eqb_spec path "") as [-> | _]; [now destruct Hpath |].
  unfold bind at 1, EmulatorGUI.on_emu at 1, zoom at 1.
  rewrite (load_rom_run image _ Hlen).
  unfold bind at 1, EmulatorGUI.on_emu at 1, zoom at 1.
  cbn [EmulatorGUI.emu EmulatorGUI.set_emu].
  rewrite reset_run.
  cbn [N64Emulator.rom N64Emulator.set_cpu N64Emulator.set_rom].
  destruct image as [| b image]; [now destruct Himage |].
  rewrite boot_transfer_shape.
  reflexivity.
Qed.

Lemma open_rom_starts_fresh_witness :
  exists g',
    EmulatorGUI.open_rom "mario.z64" addi_r0_image EmulatorGUI.init
    = (Ret tt, g')
    /\ N64Emulator.running (EmulatorGUI.emu g') = true
    /\ EmulatorGUI.display g' = "ROM Loaded: Running...".
Proof.
  eexists. split; [| split].
  - apply open_rom_starts_fresh; [discriminate | discriminate | reflexivity].
  - reflexivity.
  - reflexivity.
Defined.
